(** * Daily Expense Tracker: the expense store, its derived views and its
      persistence, verified over a shallow embedding of [HomePage].

    The file has three parts.  The first is the model: the calls the page
    makes to the JavaScript platform ([JS], [JSON], [localStorage], arrays
    on a [Heap]), then the component itself, its state, its event handlers,
    its two memoised views and its two effects.  The second gathers the
    predicates the statements use.  The third is the verification.

    Modelling choices:
    - a JavaScript number is an IEEE 754 binary64 value, Rocq's primitive
      [float], whose operations are the same binary64 operations (round to
      nearest, ties to even);
    - a string is a [string], one character per code unit, so the model
      covers code units 0 to 255;
    - [Date.now()] is an input of [handleAdd], an integer number of
      milliseconds; the time value of [new Date()] and its time zone
      offset are inputs of [todayIsoDate];
    - the effects of a render run after it, in the order they are
      declared;
    - an exception is a result [None]; the two effects catch theirs. *)

From Stdlib Require Import ZArith Floats String Ascii List Bool Lia.
From Stdlib Require Import DecimalString DecimalZ DecimalPos Sorting.Sorted Permutation.
From stdpp Require Import base gmap strings list.
Import ListNotations.

Set Warnings "-inexact-float".

Local Open Scope string_scope.
Local Open Scope Z_scope.

(** ** The parts of the JavaScript platform the page calls *)

Module JS.

Abbreviation number := float.

(** *** Characters *)

Definition code (c : ascii) : Z := Z.of_N (N_of_ascii c).

(** WhiteSpace and LineTerminator code units (TAB, LF, VT, FF, CR, SP, NBSP). *)
Definition isWhiteSpace (c : ascii) : bool :=
  let n := code c in
  ((9 <=? n) && (n <=? 13)) || (n =? 32) || (n =? 160).

Definition isDigit (c : ascii) : bool :=
  let n := code c in (48 <=? n) && (n <=? 57).

Definition digitValue (c : ascii) : Z := code c - 48.

(** *** String.prototype.trim *)

Fixpoint trimStart (s : string) : string :=
  match s with
  | String c s' => if isWhiteSpace c then trimStart s' else s
  | EmptyString => EmptyString
  end.

(** [trimEnd] drops a character exactly when it is white space and
    everything after it has been dropped too. *)
Fixpoint trimEnd (s : string) : string :=
  match s with
  | String c s' =>
      match trimEnd s' with
      | EmptyString => if isWhiteSpace c then EmptyString else String c EmptyString
      | t => String c t
      end
  | EmptyString => EmptyString
  end.

Definition trim (s : string) : string := trimEnd (trimStart s).

(** ToBoolean on a string: only the empty string is falsy. *)
Definition truthy (s : string) : bool :=
  match s with EmptyString => false | _ => true end.

(** [a || b] on strings. *)
Definition or_else (a b : string) : string := if truthy a then a else b.

(** *** Numbers *)

Definition isFinite (x : number) : bool := PrimFloat.is_finite x.

(** The binary64 value nearest to the integer [z] (ties to even). *)
Definition of_Z (z : Z) : number :=
  SF2Prim (binary_normalize prec emax z 0 false).

(** The binary64 value nearest to [(-1)^neg * m * 10^e]: the rounding that
    StringToNumber applies to a decimal literal. *)
Definition of_decimal (neg : bool) (m : Z) (e : Z) : number :=
  match m with
  | Zpos p =>
      match e with
      | Zneg k =>
          SF2Prim (SFdiv prec emax (S754_finite neg p 0)
                                   (S754_finite false (Pos.pow 10 k) 0))
      | _ => SF2Prim (binary_normalize prec emax
                        (if neg then - (m * 10 ^ e) else m * 10 ^ e) 0 neg)
      end
  | _ => if neg then PrimFloat.neg_zero else PrimFloat.zero
  end.

(** Math.round: the integral number closest to [x], ties towards
    +Infinity; an already integral [x] (also NaN, the infinities and the
    zeros) is returned as it is, and a result of zero keeps the sign of
    [x]. *)
Definition Math_round (x : number) : number :=
  match Prim2SF x with
  | S754_finite s m (Zneg k) =>
      let v := if s then Zneg m else Zpos m in
      let r := (2 * v + 2 ^ Zpos k) / 2 ^ (Zpos k + 1) in
      if r =? 0 then (if s then PrimFloat.neg_zero else PrimFloat.zero) else of_Z r
  | _ => x
  end.

(** *** Decimal literals: parseFloat and Number *)

(** A scanned StrDecimalLiteral: [Infinity] with its sign, or the digits
    [m] scaled by [10^e] with the sign. *)
Inductive literal :=
| LitInfinity (neg : bool)
| LitDecimal (neg : bool) (m : Z) (e : Z).

Definition literalValue (l : literal) : number :=
  match l with
  | LitInfinity neg => if neg then PrimFloat.neg_infinity else PrimFloat.infinity
  | LitDecimal neg m e => of_decimal neg m e
  end.

(** DecimalDigits: reads the longest run of digits, accumulating their
    value on [acc] and their count on [n]. *)
Fixpoint scanDigits (acc n : Z) (s : string) : Z * Z * string :=
  match s with
  | String c s' =>
      if isDigit c then scanDigits (10 * acc + digitValue c) (n + 1) s'
      else (acc, n, s)
  | EmptyString => (acc, n, s)
  end.

Definition scanSign (s : string) : bool * string :=
  match s with
  | String c s' =>
      if code c =? 45 then (true, s')
      else if code c =? 43 then (false, s')
      else (false, s)
  | EmptyString => (false, s)
  end.

(** ExponentPart, taken only when it is complete ([e] or [E], an optional
    sign and at least one digit). *)
Definition scanExponent (s : string) : Z * string :=
  match s with
  | String c s' =>
      if (code c =? 101) || (code c =? 69) then
        let (neg, s'') := scanSign s' in
        let '(v, n, r) := scanDigits 0 0 s'' in
        if n =? 0 then (0, s) else (if neg then - v else v, r)
      else (0, s)
  | EmptyString => (0, s)
  end.

(** StrUnsignedDecimalLiteral other than Infinity. *)
Definition scanUnsigned (s : string) : option (Z * Z * string) :=
  let '(i, ni, r1) := scanDigits 0 0 s in
  match r1 with
  | String c r2 =>
      if code c =? 46 then
        let '(m, nf, r3) := scanDigits i 0 r2 in
        if (ni =? 0) && (nf =? 0) then None
        else let (e, r4) := scanExponent r3 in Some (m, e - nf, r4)
      else if ni =? 0 then None
      else let (e, r4) := scanExponent r1 in Some (i, e, r4)
  | EmptyString =>
      if ni =? 0 then None else Some (i, 0, r1)
  end.

Fixpoint dropPrefix (p s : string) : option string :=
  match p, s with
  | EmptyString, _ => Some s
  | String a p', String b s' => if Ascii.eqb a b then dropPrefix p' s' else None
  | _, _ => None
  end.

(** The longest prefix of [s] that is a StrDecimalLiteral, and the rest. *)
Definition scanDecimalLiteral (s : string) : option (literal * string) :=
  let (neg, r) := scanSign s in
  match dropPrefix "Infinity" r with
  | Some r' => Some (LitInfinity neg, r')
  | None =>
      match scanUnsigned r with
      | Some (m, e, r') => Some (LitDecimal neg m e, r')
      | None => None
      end
  end.

(** parseFloat: leading white space is skipped, the longest decimal
    literal is read, anything after it is ignored; NaN when there is no
    literal. *)
Definition parseFloat (s : string) : number :=
  match scanDecimalLiteral (trimStart s) with
  | Some (l, _) => literalValue l
  | None => PrimFloat.nan
  end.

(** Digits of a NonDecimalIntegerLiteral. *)
Definition radixDigit (radix : Z) (c : ascii) : option Z :=
  let n := code c in
  let d := if (48 <=? n) && (n <=? 57) then n - 48
           else if (97 <=? n) && (n <=? 102) then n - 87
           else if (65 <=? n) && (n <=? 70) then n - 55
           else radix in
  if d <? radix then Some d else None.

Fixpoint radixValue (radix acc : Z) (s : string) : option Z :=
  match s with
  | String c s' =>
      match radixDigit radix c with
      | Some d => radixValue radix (radix * acc + d) s'
      | None => None
      end
  | EmptyString => Some acc
  end.

Definition radixOfPrefix (c : ascii) : option Z :=
  let n := code c in
  if (n =? 120) || (n =? 88) then Some 16
  else if (n =? 111) || (n =? 79) then Some 8
  else if (n =? 98) || (n =? 66) then Some 2
  else None.

(** Number(s) on a string (StringToNumber): the whole trimmed string has
    to be a numeric literal; the empty string is +0. *)
Definition Number (s : string) : number :=
  match trim s with
  | EmptyString => PrimFloat.zero
  | String c0 (String c1 ((String _ _) as ds)) as t =>
      match (if code c0 =? 48 then radixOfPrefix c1 else None) with
      | Some radix =>
          match radixValue radix 0 ds with
          | Some v => of_Z v
          | None => PrimFloat.nan
          end
      | None =>
          match scanDecimalLiteral t with
          | Some (l, EmptyString) => literalValue l
          | _ => PrimFloat.nan
          end
      end
  | t =>
      match scanDecimalLiteral t with
      | Some (l, EmptyString) => literalValue l
      | _ => PrimFloat.nan
      end
  end.

(** String(t) for an integral number below 10^21 in magnitude, such as a
    time value: its decimal digits, with a minus sign when negative. *)
Definition String_of_int (t : Z) : string :=
  NilZero.string_of_int (Z.to_int t).

(** *** Arrays *)

Definition Array_filter {A} (f : A -> bool) (l : list A) : list A :=
  List.filter f l.

(** Array.prototype.sort is stable; [cmp x y > 0] asks for [x] after [y],
    and a NaN from the comparator counts as 0. *)
Fixpoint insert_sorted {A} (cmp : A -> A -> number) (x : A) (l : list A) : list A :=
  match l with
  | [] => [x]
  | y :: l' =>
      if (0 <? cmp x y)%float then y :: insert_sorted cmp x l' else x :: l
  end.

Definition Array_sort {A} (cmp : A -> A -> number) (l : list A) : list A :=
  fold_right (insert_sorted cmp) [] l.

Definition Array_reduce {A B} (f : B -> A -> B) (init : B) (l : list A) : B :=
  fold_left f l init.

End JS.

(** ** JSON and Number::toString *)

Module JSON.

Import JS.

(** The values JSON texts denote.  An object is the list of its own
    properties in their enumeration order. *)
#[warnings="-register-all"]
Inductive json :=
| JNull
| JBool (b : bool)
| JNumber (x : number)
| JString (s : string)
| JArray (l : list json)
| JObject (l : list (string * json)).

Definition Array_isArray (v : json) : bool :=
  match v with JArray _ => true | _ => false end.

(** The elements of an array value. *)
Definition elements (v : json) : list json :=
  match v with JArray l => l | _ => [] end.

(** *** Number::toString (radix 10) *)

Definition digitChar (d : Z) : ascii := ascii_of_N (Z.to_N (48 + d)).

(** The decimal digits of [z >= 0], least significant last; [fuel] bounds
    their number. *)
Fixpoint digitsOf (fuel : nat) (z : Z) (acc : string) : string :=
  match fuel with
  | O => acc
  | S fuel' =>
      let acc' := String (digitChar (z mod 10)) acc in
      if z <? 10 then acc' else digitsOf fuel' (z / 10) acc'
  end.

Definition decimal (z : Z) : string := digitsOf (Z.to_nat (Z.log2 z) + 1) z "".

Fixpoint zeros (n : nat) : string :=
  match n with O => "" | S n' => String "0" (zeros n') end.

Fixpoint takeChars (n : nat) (s : string) : string :=
  match n, s with
  | S n', String c s' => String c (takeChars n' s')
  | _, _ => ""
  end.

Fixpoint dropChars (n : nat) (s : string) : string :=
  match n, s with
  | S n', String _ s' => dropChars n' s'
  | _, _ => s
  end.

(** The [n] with [10^(n-1) <= num/den < 10^n], searched upwards from
    [n]. *)
Fixpoint magnitude (fuel : nat) (num den : Z) (n : Z) : Z :=
  match fuel with
  | O => n
  | S fuel' =>
      if (if 0 <=? n then num <? den * 10 ^ n else num * 10 ^ (- n) <? den) then n
      else magnitude fuel' num den (n + 1)
  end.

(** [num/den * 10^j] as a fraction. *)
Definition scale10 (num den j : Z) : Z * Z :=
  if 0 <=? j then (num * 10 ^ j, den) else (num, den * 10 ^ (- j)).

(** The [k]-digit candidates [s] for which [s * 10^(n-k)] reads back as
    [x]: the two integers around [x / 10^(n-k)], the closer one first
    (the even one on a tie). *)
Definition candidates (x : number) (num den n k : Z) : list Z :=
  let (a, b) := scale10 num den (k - n) in
  let lo := a / b in
  let hi := lo + 1 in
  let r := a - lo * b in
  let ordered :=
    match 2 * r ?= b with
    | Lt => [lo; hi]
    | Gt => [hi; lo]
    | Eq => if Z.even lo then [lo; hi] else [hi; lo]
    end in
  List.filter (fun s => (0 <? s) && PrimFloat.Leibniz.eqb (of_decimal false s (n - k)) x)
              ordered.

(** The least [k <= 17] that has a candidate, with the candidate. *)
Fixpoint shortest (fuel : nat) (x : number) (num den n k : Z) : Z * Z :=
  match fuel with
  | O => (k, 0)
  | S fuel' =>
      match candidates x num den n k with
      | s :: _ => (k, s)
      | [] => shortest fuel' x num den n (k + 1)
      end
  end.

(** The text of a positive finite number with digits [s] ([k] of them)
    and decimal exponent [n]. *)
Definition formatDecimal (s k n : Z) : string :=
  let ds := decimal s in
  if (k <=? n) && (n <=? 21) then ds ++ zeros (Z.to_nat (n - k))
  else if (0 <? n) && (n <=? 21) then
    takeChars (Z.to_nat n) ds ++ "." ++ dropChars (Z.to_nat n) ds
  else if (-6 <? n) && (n <=? 0) then
    "0." ++ zeros (Z.to_nat (- n)) ++ ds
  else
    let e := n - 1 in
    let es := (if e <? 0 then "-" else "+") ++ decimal (Z.abs e) in
    if k =? 1 then ds ++ "e" ++ es
    else takeChars 1 ds ++ "." ++ dropChars 1 ds ++ "e" ++ es.

Definition Number_toString (x : number) : string :=
  match Prim2SF x with
  | S754_nan => "NaN"
  | S754_zero _ => "0"
  | S754_infinity s => if s then "-Infinity" else "Infinity"
  | S754_finite sg m e =>
      let (num, den) := if 0 <=? e then (Zpos m * 2 ^ e, 1) else (Zpos m, 2 ^ (- e)) in
      let n := magnitude 700 num den (-330) in
      let (k, s) := shortest 17 (PrimFloat.abs x) num den n 1 in
      (* a candidate of [k] digits that reached [10^k] is [10^(k-1)],
         one decimal place up *)
      let text := if s =? 10 ^ k then formatDecimal (10 ^ (k - 1)) k (n + 1)
                  else formatDecimal s k n in
      if sg then "-" ++ text else text
  end.

(** *** JSON.stringify *)

Definition hexChar (d : Z) : ascii :=
  ascii_of_N (Z.to_N (if d <? 10 then 48 + d else 87 + d)).

(** QuoteJSONString, one code unit. *)
Definition escapeChar (c : ascii) : string :=
  let n := code c in
  if n =? 8 then "\b"
  else if n =? 9 then "\t"
  else if n =? 10 then "\n"
  else if n =? 12 then "\f"
  else if n =? 13 then "\r"
  else if n =? 34 then String "\" (String c "")
  else if n =? 92 then "\\"
  else if n <? 32 then
    "\u00" ++ String (hexChar (n / 16)) (String (hexChar (n mod 16)) "")
  else String c "".

Fixpoint escape (s : string) : string :=
  match s with
  | String c s' => escapeChar c ++ escape s'
  | EmptyString => ""
  end.

Definition dquote : ascii := ascii_of_N 34.

Definition quote (s : string) : string :=
  String dquote (escape s ++ String dquote "").

Fixpoint join (parts : list string) : string :=
  match parts with
  | [] => ""
  | [p] => p
  | p :: ps => p ++ "," ++ join ps
  end.

(** JSON.stringify(v) without a replacer or an indent: NaN and the
    infinities are written [null]. *)
Fixpoint stringify (v : json) : string :=
  match v with
  | JNull => "null"
  | JBool b => if b then "true" else "false"
  | JNumber x => if isFinite x then Number_toString x else "null"
  | JString s => quote s
  | JArray l => "[" ++ join (map stringify l) ++ "]"
  | JObject l =>
      "{" ++ join (map (fun kv => quote (fst kv) ++ ":" ++ stringify (snd kv)) l) ++ "}"
  end.

(** *** JSON.parse *)

Definition isJsonWhiteSpace (c : ascii) : bool :=
  let n := code c in (n =? 32) || (n =? 9) || (n =? 10) || (n =? 13).

Fixpoint skipWhiteSpace (s : string) : string :=
  match s with
  | String c s' => if isJsonWhiteSpace c then skipWhiteSpace s' else s
  | EmptyString => s
  end.

Definition hexValue (c : ascii) : option Z := radixDigit 16 c.

Definition unescapeChar (c : ascii) : option ascii :=
  let n := code c in
  if (n =? 34) || (n =? 92) || (n =? 47) then Some c
  else if n =? 98 then Some (ascii_of_N 8)
  else if n =? 102 then Some (ascii_of_N 12)
  else if n =? 110 then Some (ascii_of_N 10)
  else if n =? 114 then Some (ascii_of_N 13)
  else if n =? 116 then Some (ascii_of_N 9)
  else None.

(** What reading a text yields: a value; the SyntaxError that the reader
    throws; or nothing this model can say, because the text, valid so far,
    denotes a code unit above 255, which the strings of the model do not
    have. *)
Inductive parsed (A : Type) : Type :=
| Parsed (a : A)
| SyntaxError
| Unrepresented.

Arguments Parsed {A} a.
Arguments SyntaxError {A}.
Arguments Unrepresented {A}.

Definition consChar (c : ascii) (r : parsed (string * string)) : parsed (string * string) :=
  match r with
  | Parsed (s, rest) => Parsed (String c s, rest)
  | SyntaxError => SyntaxError
  | Unrepresented => Unrepresented
  end.

(** The characters of a string literal after its opening quote: the
    string they denote and the text after the closing quote.  An escape
    [\uXXXX] is any code unit; the model has those up to 00FF. *)
Fixpoint parseChars (s : string) : parsed (string * string) :=
  match s with
  | EmptyString => SyntaxError
  | String c r =>
      if code c =? 34 then Parsed ("", r)
      else if code c =? 92 then
        match r with
        | String e r' =>
            if code e =? 117 then
              match r' with
              | String h1 (String h2 (String h3 (String h4 r''))) =>
                  match hexValue h1, hexValue h2, hexValue h3, hexValue h4 with
                  | Some a, Some b, Some c, Some d =>
                      if (a =? 0) && (b =? 0)
                      then consChar (ascii_of_N (Z.to_N (16 * c + d))) (parseChars r'')
                      else Unrepresented
                  | _, _, _, _ => SyntaxError
                  end
              | _ => SyntaxError
              end
            else
              match unescapeChar e with
              | Some ch => consChar ch (parseChars r')
              | None => SyntaxError
              end
        | EmptyString => SyntaxError
        end
      else if code c <? 32 then SyntaxError
      else consChar c (parseChars r)
  end.

Definition isNumberChar (c : ascii) : bool :=
  let n := code c in
  isDigit c || (n =? 45) || (n =? 43) || (n =? 46) || (n =? 101) || (n =? 69).

(** The longest prefix of number characters, and the rest. *)
Fixpoint spanNumber (s : string) : string * string :=
  match s with
  | String c s' =>
      if isNumberChar c then let (t, r) := spanNumber s' in (String c t, r)
      else ("", s)
  | EmptyString => ("", s)
  end.

(** The JSON number grammar: an optional minus sign; a zero, or digits
    that do not start with a zero; optionally a point and digits;
    optionally an exponent. *)
Definition validNumber (tok : string) : bool :=
  let body := match tok with
              | String c r => if code c =? 45 then r else tok
              | EmptyString => tok
              end in
  match body with
  | String d r =>
      isDigit d &&
      let '(_, ni, r1) := scanDigits 0 0 body in
      ((ni =? 1) || negb (code d =? 48)) &&
      let r2 := match r1 with
                | String p f =>
                    if code p =? 46 then
                      let '(_, nf, r') := scanDigits 0 0 f in
                      if nf =? 0 then r1 else r'
                    else r1
                | EmptyString => r1
                end in
      match r2 with
      | EmptyString => true
      | String p _ =>
          ((code p =? 101) || (code p =? 69)) &&
          match snd (scanExponent r2) with EmptyString => true | _ => false end
      end
  | EmptyString => false
  end.

(** The value of a number token. *)
Definition jsonNumber (tok : string) : option number :=
  if validNumber tok then
    match scanDecimalLiteral tok with
    | Some (l, EmptyString) => Some (literalValue l)
    | _ => None
    end
  else None.

(** Whether a key is an array index ("0", "1", ... up to 2^32 - 2). *)
Definition arrayIndex (k : string) : option Z :=
  match k with
  | String d r =>
      let '(v, n, rest) := scanDigits 0 0 k in
      match rest with
      | EmptyString =>
          if ((n =? 1) || negb (code d =? 48)) && (v <? 4294967295) then Some v else None
      | _ => None
      end
  | EmptyString => None
  end.

Fixpoint hasKey (k : string) (o : list (string * json)) : bool :=
  match o with
  | (k', _) :: o' => String.eqb k k' || hasKey k o'
  | [] => false
  end.

Fixpoint replaceKey (k : string) (v : json) (o : list (string * json)) :=
  match o with
  | (k', v') :: o' =>
      if String.eqb k k' then (k, v) :: o' else (k', v') :: replaceKey k v o'
  | [] => []
  end.

Fixpoint insertIndex (i : Z) (k : string) (v : json) (o : list (string * json)) :=
  match o with
  | (k', v') :: o' =>
      match arrayIndex k' with
      | Some j => if j <? i then (k', v') :: insertIndex i k v o' else (k, v) :: o
      | None => (k, v) :: o
      end
  | [] => [(k, v)]
  end.

(** CreateDataProperty on an ordinary object: a key it has keeps its
    place; a new array index goes among the indices, in ascending order;
    any other new key goes last. *)
Definition setProperty (o : list (string * json)) (kv : string * json) :=
  let (k, v) := kv in
  if hasKey k o then replaceKey k v o
  else match arrayIndex k with
       | Some i => insertIndex i k v o
       | None => (o ++ [(k, v)])%list
       end.

Definition expect (lit : string) (v : json) (s : string) : parsed (json * string) :=
  match dropPrefix lit s with
  | Some r => Parsed (v, r)
  | None => SyntaxError
  end.

(** A value, then the elements of an array after its first, then the
    members of an object; every call spends one unit of [fuel]. *)
Fixpoint parseValue (fuel : nat) (s : string) {struct fuel} : parsed (json * string) :=
  match fuel with
  | O => SyntaxError
  | S fuel' =>
      match skipWhiteSpace s with
      | String c r =>
          let n := code c in
          if n =? 34 then
            match parseChars r with
            | Parsed (str, r') => Parsed (JString str, r')
            | SyntaxError => SyntaxError
            | Unrepresented => Unrepresented
            end
          else if n =? 91 then
            match skipWhiteSpace r with
            | String c' r' =>
                if code c' =? 93 then Parsed (JArray [], r')
                else match parseElements fuel' r with
                     | Parsed (vs, r'') => Parsed (JArray vs, r'')
                     | SyntaxError => SyntaxError
                     | Unrepresented => Unrepresented
                     end
            | EmptyString => SyntaxError
            end
          else if n =? 123 then
            match skipWhiteSpace r with
            | String c' r' =>
                if code c' =? 125 then Parsed (JObject [], r')
                else match parseMembers fuel' r with
                     | Parsed (ms, r'') => Parsed (JObject (fold_left setProperty ms []), r'')
                     | SyntaxError => SyntaxError
                     | Unrepresented => Unrepresented
                     end
            | EmptyString => SyntaxError
            end
          else if n =? 116 then expect "true" (JBool true) (String c r)
          else if n =? 102 then expect "false" (JBool false) (String c r)
          else if n =? 110 then expect "null" JNull (String c r)
          else
            let (tok, r') := spanNumber (String c r) in
            match jsonNumber tok with
            | Some x => Parsed (JNumber x, r')
            | None => SyntaxError
            end
      | EmptyString => SyntaxError
      end
  end
with parseElements (fuel : nat) (s : string) {struct fuel}
  : parsed (list json * string) :=
  match fuel with
  | O => SyntaxError
  | S fuel' =>
      match parseValue fuel' s with
      | Parsed (v, r) =>
          match skipWhiteSpace r with
          | String c r' =>
              if code c =? 44 then
                match parseElements fuel' r' with
                | Parsed (vs, r'') => Parsed (v :: vs, r'')
                | SyntaxError => SyntaxError
                | Unrepresented => Unrepresented
                end
              else if code c =? 93 then Parsed ([v], r')
              else SyntaxError
          | EmptyString => SyntaxError
          end
      | SyntaxError => SyntaxError
      | Unrepresented => Unrepresented
      end
  end
with parseMembers (fuel : nat) (s : string) {struct fuel}
  : parsed (list (string * json) * string) :=
  match fuel with
  | O => SyntaxError
  | S fuel' =>
      match skipWhiteSpace s with
      | String q r =>
          if code q =? 34 then
            match parseChars r with
            | Parsed (k, r1) =>
                match skipWhiteSpace r1 with
                | String col r2 =>
                    if code col =? 58 then
                      match parseValue fuel' r2 with
                      | Parsed (v, r3) =>
                          match skipWhiteSpace r3 with
                          | String c r4 =>
                              if code c =? 44 then
                                match parseMembers fuel' r4 with
                                | Parsed (ms, r5) => Parsed ((k, v) :: ms, r5)
                                | SyntaxError => SyntaxError
                                | Unrepresented => Unrepresented
                                end
                              else if code c =? 125 then Parsed ([(k, v)], r4)
                              else SyntaxError
                          | EmptyString => SyntaxError
                          end
                      | SyntaxError => SyntaxError
                      | Unrepresented => Unrepresented
                      end
                    else SyntaxError
                | EmptyString => SyntaxError
                end
            | SyntaxError => SyntaxError
            | Unrepresented => Unrepresented
            end
          else SyntaxError
      | EmptyString => SyntaxError
      end
  end.

(** JSON.parse(text). *)
Definition parse (text : string) : parsed json :=
  match parseValue (2 * String.length text + 2) text with
  | Parsed (v, r) =>
      match skipWhiteSpace r with
      | EmptyString => Parsed v
      | _ => SyntaxError
      end
  | SyntaxError => SyntaxError
  | Unrepresented => Unrepresented
  end.

End JSON.

(** ** Date: time values and their ISO text *)

Module Date.

Definition msPerDay : Z := 86400000.

(** A Date holds a time value of at most 8.64e15 ms either side of the
    epoch. *)
Definition maxTime : Z := 8640000000000000.

(** [new Date(t)]: the time value it holds, [None] for the invalid date. *)
Definition TimeClip (t : Z) : option Z :=
  if Z.abs t <=? maxTime then Some t else None.

Definition Day (t : Z) : Z := t / msPerDay.

Definition DaysInYear (y : Z) : Z :=
  if negb (y mod 4 =? 0) then 365
  else if negb (y mod 100 =? 0) then 366
  else if negb (y mod 400 =? 0) then 365
  else 366.

Definition DayFromYear (y : Z) : Z :=
  365 * (y - 1970) + (y - 1969) / 4 - (y - 1901) / 100 + (y - 1601) / 400.

(** The largest year whose first day is not after the day of [t]: the year
    a mean year length gives, or the one before or after it. *)
Definition YearFromTime (t : Z) : Z :=
  let d := Day t in
  let y := 1970 + (400 * d) / 146097 in
  if d <? DayFromYear y then y - 1
  else if DayFromYear (y + 1) <=? d then y + 1
  else y.

Definition InLeapYear (t : Z) : Z :=
  if DaysInYear (YearFromTime t) =? 366 then 1 else 0.

Definition DayWithinYear (t : Z) : Z := Day t - DayFromYear (YearFromTime t).

(** January is month 0. *)
Definition MonthFromTime (t : Z) : Z :=
  let d := DayWithinYear t in
  let l := InLeapYear t in
  if d <? 31 then 0
  else if d <? 59 + l then 1
  else if d <? 90 + l then 2
  else if d <? 120 + l then 3
  else if d <? 151 + l then 4
  else if d <? 181 + l then 5
  else if d <? 212 + l then 6
  else if d <? 243 + l then 7
  else if d <? 273 + l then 8
  else if d <? 304 + l then 9
  else if d <? 334 + l then 10
  else 11.

Definition DateFromTime (t : Z) : Z :=
  let d := DayWithinYear t in
  let l := InLeapYear t in
  match MonthFromTime t with
  | 0 => d + 1
  | 1 => d - 30
  | 2 => d - 58 - l
  | 3 => d - 89 - l
  | 4 => d - 119 - l
  | 5 => d - 150 - l
  | 6 => d - 180 - l
  | 7 => d - 211 - l
  | 8 => d - 242 - l
  | 9 => d - 272 - l
  | 10 => d - 303 - l
  | _ => d - 333 - l
  end.

Definition HourFromTime (t : Z) : Z := (t / 3600000) mod 24.
Definition MinFromTime (t : Z) : Z := (t / 60000) mod 60.
Definition SecFromTime (t : Z) : Z := (t / 1000) mod 60.
Definition msFromTime (t : Z) : Z := t mod 1000.

(** The last [n] decimal digits of [v], in front of [acc]. *)
Fixpoint pad (n : nat) (v : Z) (acc : string) : string :=
  match n with
  | O => acc
  | S n' => pad n' (v / 10) (String (JSON.digitChar (v mod 10)) acc)
  end.

(** Four digits for the years 0 to 9999, a sign and six digits otherwise. *)
Definition yearText (y : Z) : string :=
  if (0 <=? y) && (y <=? 9999) then pad 4 y ""
  else String (if y <? 0 then "-" else "+") (pad 6 (Z.abs y) "").

(** [toISOString]: YYYY-MM-DDTHH:mm:ss.sssZ; [None] stands for the
    RangeError it throws on the invalid date. *)
Definition toISOString (tv : option Z) : option string :=
  match tv with
  | Some t =>
      Some (yearText (YearFromTime t) ++ "-" ++ pad 2 (MonthFromTime t + 1) ""
            ++ "-" ++ pad 2 (DateFromTime t) ""
            ++ "T" ++ pad 2 (HourFromTime t) "" ++ ":" ++ pad 2 (MinFromTime t) ""
            ++ ":" ++ pad 2 (SecFromTime t) "" ++ "." ++ pad 3 (msFromTime t) "" ++ "Z")
  | None => None
  end.

End Date.

(** ** The page: [HomePage] *)

Module Expense.
Record t := mk {
  id : string;
  date : string;  (* YYYY-MM-DD *)
  amount : JS.number;
  category : string;
  note : string;
}.
End Expense.

Abbreviation Expense := Expense.t.

Definition STORAGE_KEY : string := "et_expenses_v1".

(** The six [useState] cells of the component. *)
Record State := mkState {
  expenses : list Expense;
  selectedDate : string;
  amount : string;
  category : string;
  note : string;
  date : string;
}.

(** The first render; [today] and [today'] are the values of the two
    calls of [todayIsoDate()], the one for the viewed date and the one for
    the form's date. *)
Definition initialState (today today' : string) : State :=
  {| expenses := []; selectedDate := today;
     amount := ""; category := "General"; note := ""; date := today' |}.

(** *** Derived views *)

(** The [useMemo] bodies, as functions of their dependencies. *)
Definition expensesForSelectedDate (expenses : list Expense) (selectedDate : string)
  : list Expense :=
  JS.Array_sort
    (fun a b => (JS.Number (Expense.id b) - JS.Number (Expense.id a))%float)
    (JS.Array_filter (fun e => String.eqb (Expense.date e) selectedDate) expenses).

Definition totalForSelectedDate (expensesForSelectedDate : list Expense) : JS.number :=
  JS.Array_reduce (fun sum e => (sum + Expense.amount e)%float) 0%float
    expensesForSelectedDate.

(** *** Event handlers *)

Definition resetForm (st : State) : State :=
  {| expenses := expenses st; selectedDate := selectedDate st;
     amount := ""; category := "General"; note := ""; date := selectedDate st |}.

(** [handleAdd]; [now] is the value of [Date.now()].  The state setters
    queue their updates, so [resetForm] still sees the [selectedDate] of the
    render the handler was created in. *)
Definition handleAdd (now : Z) (st : State) : State :=
  let parsedAmount := JS.parseFloat (amount st) in
  if negb (JS.isFinite parsedAmount) || (parsedAmount <=? 0)%float then st
  else
    let newExpense :=
      {| Expense.id := JS.String_of_int now;
         Expense.date := date st;
         Expense.amount := (JS.Math_round (parsedAmount * 100) / 100)%float;
         Expense.category := JS.or_else (JS.trim (category st)) "General";
         Expense.note := JS.trim (note st) |} in
    {| expenses := newExpense :: expenses st;
       selectedDate :=
         if String.eqb (date st) (selectedDate st) then selectedDate st else date st;
       amount := amount (resetForm st);
       category := category (resetForm st);
       note := note (resetForm st);
       date := date (resetForm st) |}.

Definition handleDelete (id : string) (st : State) : State :=
  {| expenses :=
       JS.Array_filter (fun e => negb (String.eqb (Expense.id e) id)) (expenses st);
     selectedDate := selectedDate st;
     amount := amount st; category := category st; note := note st;
     date := date st |}.

(** The [onChange] handlers of the inputs. *)
Definition setAmount (v : string) (st : State) : State :=
  {| expenses := expenses st; selectedDate := selectedDate st;
     amount := v; category := category st; note := note st; date := date st |}.

Definition setCategory (v : string) (st : State) : State :=
  {| expenses := expenses st; selectedDate := selectedDate st;
     amount := amount st; category := v; note := note st; date := date st |}.

Definition setNote (v : string) (st : State) : State :=
  {| expenses := expenses st; selectedDate := selectedDate st;
     amount := amount st; category := category st; note := v; date := date st |}.

Definition setDate (v : string) (st : State) : State :=
  {| expenses := expenses st; selectedDate := selectedDate st;
     amount := amount st; category := category st; note := note st; date := v |}.

(** The viewing-date input sets both the viewed date and the form's date. *)
Definition changeViewingDate (v : string) (st : State) : State :=
  {| expenses := expenses st; selectedDate := v;
     amount := amount st; category := category st; note := note st; date := v |}.

(** *** Persistence *)

(** The browser's local storage: string keys, string values, and a quota on
    what it holds. *)
Module localStorage.

Definition getItem (k : string) (ls : gmap string string) : option string :=
  ls !! k.

Definition usage (ls : gmap string string) : N :=
  map_fold (fun k v n => (N.of_nat (String.length k + String.length v) + n)%N) 0%N ls.

(** [None] stands for the QuotaExceededError that [setItem] throws. *)
Definition setItem (quota : N) (k v : string) (ls : gmap string string)
  : option (gmap string string) :=
  let ls' := <[k := v]> ls in
  if (usage ls' <=? quota)%N then Some ls' else None.

End localStorage.

(** An [Expense] object as a JSON value: its properties in the order
    [handleAdd] creates them. *)
Definition json_of_Expense (e : Expense) : JSON.json :=
  JSON.JObject
    [ ("id", JSON.JString (Expense.id e));
      ("date", JSON.JString (Expense.date e));
      ("amount", JSON.JNumber (Expense.amount e));
      ("category", JSON.JString (Expense.category e));
      ("note", JSON.JString (Expense.note e)) ].

(** The load effect: the array it hands to [setExpenses], or the [[]] the
    state started with when it hands over nothing.  The cast to [Expense[]]
    checks nothing, so what is loaded is a list of JSON values.  [None]:
    the stored text denotes a code unit the model does not have, and the
    model says nothing of what is loaded. *)
Definition loadEffect (ls : gmap string string) : option (list JSON.json) :=
  match localStorage.getItem STORAGE_KEY ls with
  | Some raw =>
      if JS.truthy raw then
        match JSON.parse raw with
        | JSON.Parsed parsed =>
            Some (if JSON.Array_isArray parsed then JSON.elements parsed else [])
        | JSON.SyntaxError => Some []  (* the SyntaxError is caught *)
        | JSON.Unrepresented => None
        end
      else Some []
  | None => Some []
  end.

(** The persist effect: the storage afterwards; a refused write is caught
    and leaves the storage as it was. *)
Definition persistEffect (quota : N) (expenses : list Expense)
  (ls : gmap string string) : gmap string string :=
  match localStorage.setItem quota STORAGE_KEY
          (JSON.stringify (JSON.JArray (map json_of_Expense expenses))) ls with
  | Some ls' => ls'
  | None => ls
  end.

(** *** Arrays as mutable objects *)

(** The arrays of the page live on a heap: [filter] allocates a new array,
    [sort] reorders the array it is called on and returns that same array,
    [reduce] only reads. *)
Module Heap.

Definition filter (f : Expense -> bool) (a : positive)
  (h : gmap positive (list Expense)) : option (positive * gmap positive (list Expense)) :=
  match h !! a with
  | Some xs => let b := fresh (dom h) in Some (b, <[b := JS.Array_filter f xs]> h)
  | None => None
  end.

Definition sort (cmp : Expense -> Expense -> JS.number) (a : positive)
  (h : gmap positive (list Expense)) : option (positive * gmap positive (list Expense)) :=
  match h !! a with
  | Some xs => Some (a, <[a := JS.Array_sort cmp xs]> h)
  | None => None
  end.

Definition reduce {B} (f : B -> Expense -> B) (init : B) (a : positive)
  (h : gmap positive (list Expense)) : option (B * gmap positive (list Expense)) :=
  match h !! a with
  | Some xs => Some (JS.Array_reduce f init xs, h)
  | None => None
  end.

(** The two memo bodies, run on the heap. *)
Definition expensesForSelectedDate (expenses : positive) (selectedDate : string)
  (h : gmap positive (list Expense)) : option (positive * gmap positive (list Expense)) :=
  match filter (fun e => String.eqb (Expense.date e) selectedDate) expenses h with
  | Some (b, h') =>
      sort (fun a b => (JS.Number (Expense.id b) - JS.Number (Expense.id a))%float) b h'
  | None => None
  end.

Definition totalForSelectedDate (expensesForSelectedDate : positive)
  (h : gmap positive (list Expense)) : option (JS.number * gmap positive (list Expense)) :=
  reduce (fun sum e => (sum + Expense.amount e)%float) 0%float
    expensesForSelectedDate h.

End Heap.

(** *** The page as a transition system *)

(** What can happen to a mounted page; [Submit] carries the reading of
    [Date.now()] that [handleAdd] makes. *)
Inductive Event :=
| ChangeViewingDate (v : string)
| SetDate (v : string)
| SetAmount (v : string)
| SetCategory (v : string)
| SetNote (v : string)
| Submit (now : Z)
| Delete (id : string).

Definition step (st : State) (ev : Event) : State :=
  match ev with
  | ChangeViewingDate v => changeViewingDate v st
  | SetDate v => setDate v st
  | SetAmount v => setAmount v st
  | SetCategory v => setCategory v st
  | SetNote v => setNote v st
  | Submit now => handleAdd now st
  | Delete id => handleDelete id st
  end.

Definition run (evs : list Event) (st : State) : State := fold_left step evs st.

(** *** The first render *)

(** [todayIsoDate]; [now] is the time value of [new Date()] and
    [timezoneOffset] what [getTimezoneOffset()] returns for it, in minutes.
    The date object named [tzOffset] holds the clock reading shifted by the
    offset, so its UTC fields are the local ones. *)
Definition todayIsoDate (now timezoneOffset : Z) : option string :=
  let tzOffset := Date.TimeClip (now - timezoneOffset * 60000) in
  match Date.toISOString tzOffset with
  | Some iso => Some (String.substring 0 10 iso)
  | None => None
  end.

(** *** Mounting *)

(** What the load effect does: it calls [setExpenses] with the array it
    has parsed, or makes no call. *)
Inductive LoadCall :=
| Calls (parsed : list JSON.json)
| NoCall.

(** [None]: the stored text denotes a code unit the model does not have. *)
Definition loadCall (ls : gmap string string) : option LoadCall :=
  match localStorage.getItem STORAGE_KEY ls with
  | Some raw =>
      if JS.truthy raw then
        match JSON.parse raw with
        | JSON.Parsed parsed =>
            Some (if JSON.Array_isArray parsed then Calls (JSON.elements parsed)
                  else NoCall)
        | JSON.SyntaxError => Some NoCall
        | JSON.Unrepresented => None
        end
      else Some NoCall
  | None => Some NoCall
  end.

(** The persist effect on a store of any values, as the load effect may
    leave one. *)
Definition persistValues (quota : N) (values : list JSON.json)
  (ls : gmap string string) : gmap string string :=
  match localStorage.setItem quota STORAGE_KEY
          (JSON.stringify (JSON.JArray values)) ls with
  | Some ls' => ls'
  | None => ls
  end.

(** [e.k] on a loaded value: [None] stands for [undefined]. *)
Fixpoint ownProperty (k : string) (o : list (string * JSON.json)) : option JSON.json :=
  match o with
  | (k', v) :: o' => if String.eqb k k' then Some v else ownProperty k o'
  | [] => None
  end.

Definition getProperty (k : string) (e : JSON.json) : option JSON.json :=
  match e with
  | JSON.JObject o => ownProperty k o
  | _ => None
  end.

(** [e.date === selectedDate] on a loaded value other than [null]. *)
Definition viewed (selectedDate : string) (e : JSON.json) : bool :=
  match getProperty "date" e with
  | Some (JSON.JString d) => String.eqb d selectedDate
  | _ => false
  end.

Definition isPrimitive (v : option JSON.json) : bool :=
  match v with
  | Some (JSON.JArray _) | Some (JSON.JObject _) => false
  | _ => true
  end.

(** Whether the render of a store of loaded values returns.  The callback
    of [filter] reads [e.date] of every element, which throws a TypeError
    on [null].  Of the elements that pass the filter the render reads
    [id], [amount], [category] and [note]; it returns when these are
    undefined, null, booleans, numbers or strings.  [None]: one of them is
    an array or an object, which the model does not follow through the sort,
    the sum and the rows. *)
Definition renders (selectedDate : string) (values : list JSON.json) : option bool :=
  if existsb (fun e => match e with JSON.JNull => true | _ => false end) values
  then Some false
  else if forallb (fun e => isPrimitive (getProperty "id" e)
                            && isPrimitive (getProperty "amount" e)
                            && isPrimitive (getProperty "category" e)
                            && isPrimitive (getProperty "note" e))
                  (List.filter (viewed selectedDate) values)
       then Some true
       else None.

(** What mounting leaves: a page with a store and the storage, or, when
    a render has thrown, no page and the storage. *)
Inductive Mount :=
| Mounted (store : list JSON.json) (ls : gmap string string)
| Failed (ls : gmap string string).

(** The effects of the first render, in the order they are declared: the
    load effect reads the storage; the persist effect, whose [expenses] is
    still the empty array of that render, writes it; when the load effect
    has called [setExpenses], the page renders again, with the viewed date
    of the first render, and when that render returns the persist effect
    writes what was loaded.  [None]: the model does not cover what the
    storage holds. *)
Definition mount (quota : N) (selectedDate : string) (ls : gmap string string)
  : option Mount :=
  let ls1 := persistValues quota [] ls in
  match loadCall ls with
  | Some (Calls parsed) =>
      match renders selectedDate parsed with
      | Some true => Some (Mounted parsed (persistValues quota parsed ls1))
      | Some false => Some (Failed ls1)
      | None => None
      end
  | Some NoCall => Some (Mounted [] ls1)
  | None => None
  end.

(** *** The mounted page and its storage *)

(** Whether an event makes [expenses] a new array: an accepted submission
    and every deletion do, the other events set other cells. *)
Definition setsExpenses (st : State) (ev : Event) : bool :=
  match ev with
  | Submit _ =>
      let parsedAmount := JS.parseFloat (amount st) in
      negb (negb (JS.isFinite parsedAmount) || (parsedAmount <=? 0)%float)
  | Delete _ => true
  | _ => false
  end.

(** An event, and the persist effect after the render it causes; that
    effect depends on [expenses] alone. *)
Definition stepPage (quota : N) (pg : State * gmap string string) (ev : Event)
  : State * gmap string string :=
  let st' := step (fst pg) ev in
  (st', if setsExpenses (fst pg) ev
        then persistEffect quota (expenses st') (snd pg)
        else snd pg).

Definition runPage (quota : N) (evs : list Event) (pg : State * gmap string string)
  : State * gmap string string :=
  fold_left (stepPage quota) evs pg.

(** *** What the list section renders *)

(** The item count of the header, and the list itself: a message when the
    view is empty, one row per record of the view otherwise, each row under
    the key [e.id].  The Delete button of the row of [e] calls
    [handleDelete] with the id of [e].  React tells the rows of one render
    from those of the next by their keys and supports no two rows with one
    key; [None]: two records of the view share an id, and what is shown is
    not what this model can say. *)
Definition itemCount (st : State) : nat :=
  length (expensesForSelectedDate (expenses st) (selectedDate st)).

Inductive Listing :=
| NoExpensesYet
| Rows (rows : list Expense).

Definition listing (st : State) : option Listing :=
  let view := expensesForSelectedDate (expenses st) (selectedDate st) in
  if (length view =? 0)%nat then Some NoExpensesYet
  else if bool_decide (NoDup (map Expense.id view)) then Some (Rows view)
  else None.

(** * What the statements are about *)

(** ** White space *)

Fixpoint allWhiteSpace (s : string) : bool :=
  match s with
  | String c s' => JS.isWhiteSpace c && allWhiteSpace s'
  | EmptyString => true
  end.

Definition startsWithWhiteSpace (s : string) : bool :=
  match s with String c _ => JS.isWhiteSpace c | EmptyString => false end.

Fixpoint endsWithWhiteSpace (s : string) : bool :=
  match s with
  | String c EmptyString => JS.isWhiteSpace c
  | String _ s' => endsWithWhiteSpace s'
  | EmptyString => false
  end.

(** ** Binary64 numbers, as the specification of the primitive operations
       sees them *)

(** Whether a float is a non-zero number or infinity of the given sign. *)
Definition signed_nonzero (s : bool) (x : spec_float) : Prop :=
  match x with
  | S754_finite s' _ _ | S754_infinity s' => s' = s
  | _ => False
  end.

(** The signed mantissa of a finite number once shifted to exponent [ez]. *)
Definition aligned (ez : Z) (s : bool) (m : positive) (e : Z) : Z :=
  cond_Zopp s (Zpos (fst (shl_align m e ez))).

(** The place of a number other than NaN on the number line, as an integer:
    finite values in units of the least positive number, the infinities
    beyond every finite value. *)
Definition SFrank (x : spec_float) : Z :=
  match x with
  | S754_finite s m e => cond_Zopp s (Zpos m * 2 ^ (e + 1074))
  | S754_infinity s => cond_Zopp s (2 ^ 2200)
  | _ => 0
  end.

Definition rank (x : float) : Z := SFrank (Prim2SF x).

(** ** Digit strings and number texts *)

Fixpoint allDigits (s : string) : bool :=
  match s with
  | String c s' => JS.isDigit c && allDigits s'
  | EmptyString => true
  end.

Definition signed (neg : bool) (s : string) : string :=
  if neg then String "-" s else s.

Fixpoint allNumberChars (s : string) : bool :=
  match s with
  | String c s' => JSON.isNumberChar c && allNumberChars s'
  | EmptyString => true
  end.

Definition startsWithNumberChar (s : string) : bool :=
  match s with String c _ => JSON.isNumberChar c | EmptyString => false end.

(** ** The view of a date *)

(** [a] may stand before [b] when sorting by decreasing key. *)
Definition keyDescending {A} (k : A -> float) (a b : A) : Prop :=
  (k b <=? k a)%float = true.

(** A record whose id reads as a number. *)
Definition numericId (e : Expense) : Prop :=
  is_nan (JS.Number (Expense.id e)) = false.

(** Newest first: by decreasing numeric id. *)
Definition newestFirst : Expense -> Expense -> Prop :=
  keyDescending (fun e => JS.Number (Expense.id e)).

(** [view] is the view of date [d] of [store]: the records of that date,
    each as often as the store holds it, newest first. *)
Definition isViewOf (store : list Expense) (d : string) (view : list Expense) : Prop :=
  Permutation view (List.filter (fun e => String.eqb (Expense.date e) d) store)
  /\ (forall e, In e view <-> In e store /\ Expense.date e = d)
  /\ StronglySorted newestFirst view.

(** ** Amounts in cents *)

(** [n] is the whole number nearest to [x], the upper one on a tie. *)
Definition nearestWhole (x : float) (n : Z) : Prop :=
  (2 * n - 1) * 2 ^ 1073 <= rank x < (2 * n + 1) * 2 ^ 1073.

(** [x] is the fraction [num / den], counted in units of the least
    positive number, to within one part in 2^53, which is the accuracy of
    binary64. *)
Definition approximates (x : float) (num den : Z) : Prop :=
  Z.abs (den * rank x - num) * 2 ^ 53 <= den * rank x.

(** [x] is the finite binary64 number that holds [n] hundredths. *)
Definition hundredths (x : float) (n : Z) : Prop :=
  JS.isFinite x = true /\ approximates x (n * 2 ^ 1074) 100.



(** ** The invariants of the store *)

Definition isLeapYear (y : Z) : bool :=
  ((y mod 4 =? 0) && negb (y mod 100 =? 0)) || (y mod 400 =? 0).

Definition daysInMonth (y m : Z) : Z :=
  if m =? 2 then (if isLeapYear y then 29 else 28)
  else if (m =? 4) || (m =? 6) || (m =? 9) || (m =? 11) then 30
  else 31.

(** A calendar date written YYYY-MM-DD. *)
Definition validDate (s : string) : bool :=
  match s with
  | String y1 (String y2 (String y3 (String y4 (String h1 (String m1 (String m2
      (String h2 (String d1 (String d2 EmptyString))))))))) =>
      let y := 1000 * JS.digitValue y1 + 100 * JS.digitValue y2
               + 10 * JS.digitValue y3 + JS.digitValue y4 in
      let m := 10 * JS.digitValue m1 + JS.digitValue m2 in
      let d := 10 * JS.digitValue d1 + JS.digitValue d2 in
      forallb JS.isDigit [y1; y2; y3; y4; m1; m2; d1; d2]
      && (JS.code h1 =? 45) && (JS.code h2 =? 45)
      && (1 <=? y) && (1 <=? m) && (m <=? 12) && (1 <=? d) && (d <=? daysInMonth y m)
  | _ => false
  end.




(** The readings of the clock made by the submissions of a trace. *)
Definition submitTimes (evs : list Event) : list Z :=
  flat_map (fun ev => match ev with Submit now => [now] | _ => [] end) evs.



(** ** Persisted content *)

(** [v] is read back from its text by every parse with at least [f] units
    of fuel, whatever follows the text (a number must not be followed by a
    number character). *)
Definition readsBack (f : nat) (v : JSON.json) : Prop :=
  forall f' rest, (f <= f')%nat -> startsWithNumberChar rest = false ->
    JSON.parseValue f' (JSON.stringify v ++ rest) = JSON.Parsed (v, rest).

Definition memberText (kv : string * JSON.json) : string :=
  JSON.quote (fst kv) ++ ":" ++ JSON.stringify (snd kv).

(** A well-formed record: its amount is a finite number that its JSON text
    reads back as. *)
Definition wellFormed (e : Expense) : Prop :=
  JS.isFinite (Expense.amount e) = true
  /\ JSON.jsonNumber (JSON.Number_toString (Expense.amount e)) = Some (Expense.amount e).

Fixpoint property (k : string) (o : list (string * JSON.json)) : option JSON.json :=
  match o with
  | (k', v) :: o' => if String.eqb k k' then Some v else property k o'
  | [] => None
  end.

(** A value with the shape of an [Expense]: string fields [id], [date],
    [category], [note] and a numeric field [amount]. *)
Definition expenseShaped (v : JSON.json) : bool :=
  match v with
  | JSON.JObject o =>
      match property "id" o, property "date" o, property "amount" o,
            property "category" o, property "note" o with
      | Some (JSON.JString _), Some (JSON.JString _), Some (JSON.JNumber _),
        Some (JSON.JString _), Some (JSON.JString _) => true
      | _, _, _, _, _ => false
      end
  | _ => false
  end.

(** Content that parses to a sequence of expense-shaped values. *)
Definition parsesToExpenses (raw : string) : Prop :=
  exists l, JSON.parse raw = JSON.Parsed (JSON.JArray l) /\ forallb expenseShaped l = true.

(** ** Sample data *)

(** The text of an array that holds one string literal, given the
    characters between its quotes. *)
Definition quotedInArray (chars : string) : string :=
  String "[" (String JSON.dquote (chars ++ String JSON.dquote "]")).

(** The form of the scenario: 12.345 on 2024-01-01, category and note left
    blank. *)
Definition demo_form : State :=
  {| expenses := []; selectedDate := "2024-01-01"; amount := "12.345";
     category := ""; note := ""; date := "2024-01-01" |}.

(** Records of one date, one of them with an id that is no number. *)
Definition mixedIds : list Expense :=
  [ Expense.mk "1" "2024-01-01" 1 "General" "";
    Expense.mk "x" "2024-01-01" 2 "General" "";
    Expense.mk "2" "2024-01-01" 3 "General" "" ].

(** Two views whose totals do not add up. *)
Definition tenths : list Expense :=
  [ Expense.mk "1704067200000" "2024-01-01" 0.1 "General" "" ].

Definition fifths : list Expense :=
  [ Expense.mk "1704067200001" "2024-01-01" 0.2 "General" "";
    Expense.mk "1704067200002" "2024-01-01" 0.3 "General" "" ].




(** Two additions a millisecond apart, then a deletion. *)
Definition twoAdds : list Event :=
  [SetAmount "10.00"; Submit 1704067200000; SetAmount "5.50"; Submit 1704067200001;
   Delete "1704067200000"].

(** A heap holding one array. *)
Definition oneArray : gmap positive (list Expense) := {[ 1%positive := mixedIds ]}.

(** Stored content that is an array but holds no expense record. *)
Definition foreignArray : gmap string string := {[ STORAGE_KEY := "[1]" ]}.

Definition twoRecords : list Expense :=
  [ Expense.mk "1704067200001" "2024-01-01" 5.5 "Food" "lunch";
    Expense.mk "1704067200000" "2024-01-01" 12.35 "General" "" ].


(** ** The calendar, counted in days *)

Definition yearLength (y : Z) : Z := if isLeapYear y then 366 else 365.

Fixpoint daysOfYears (from : Z) (n : nat) : Z :=
  match n with
  | O => 0
  | S k => yearLength from + daysOfYears (from + 1) k
  end.

(** The days from 1970-01-01 to the first day of year [y]. *)
Definition daysToYear (y : Z) : Z :=
  if 1970 <=? y then daysOfYears 1970 (Z.to_nat (y - 1970))
  else - daysOfYears y (Z.to_nat (1970 - y)).

(** The days of the first [n] months of year [y]. *)
Fixpoint daysOfMonths (y : Z) (n : nat) : Z :=
  match n with
  | O => 0
  | S k => daysOfMonths y k + daysInMonth y (Z.of_nat n)
  end.

(** The year, month and day that a text YYYY-MM-DD spells. *)
Definition dateFields (s : string) : Z * Z * Z :=
  match s with
  | String y1 (String y2 (String y3 (String y4 (String _ (String m1 (String m2
      (String _ (String d1 (String d2 EmptyString))))))))) =>
      (1000 * JS.digitValue y1 + 100 * JS.digitValue y2
         + 10 * JS.digitValue y3 + JS.digitValue y4,
       10 * JS.digitValue m1 + JS.digitValue m2,
       10 * JS.digitValue d1 + JS.digitValue d2)
  | _ => (0, 0, 0)
  end.

(** The day a calendar date is, counted from 1970-01-01. *)
Definition dayNumber (s : string) : Z :=
  let '(y, m, d) := dateFields s in
  daysToYear y + daysOfMonths y (Z.to_nat (m - 1)) + (d - 1).

(** ** Stored text and amounts *)

(** A number of sign [s] that may be zero or infinite, but is not NaN. *)
Definition signed_number (s : bool) (x : spec_float) : Prop :=
  match x with
  | S754_zero s' | S754_finite s' _ _ | S754_infinity s' => s' = s
  | S754_nan => False
  end.

Definition trimmed (s : string) : Prop :=
  startsWithWhiteSpace s = false /\ endsWithWhiteSpace s = false.

(** [t] is [s] without the white space at its two ends. *)
Definition strippedOf (s t : string) : Prop :=
  exists l r, s = l ++ t ++ r /\ allWhiteSpace l = true /\ allWhiteSpace r = true
              /\ trimmed t.

(** Categories are not empty, and categories and notes carry no white
    space at either end. *)
Definition textsTrimmed (store : list Expense) : Prop :=
  Forall (fun e => Expense.category e <> "" /\ trimmed (Expense.category e)
                   /\ trimmed (Expense.note e)) store.

(** Amounts are numbers, zero or above. *)
Definition amountsNotNegative (store : list Expense) : Prop :=
  Forall (fun e => (0 <=? Expense.amount e)%float = true) store.

(** ** Shifted mantissas *)


(** ** Digit strings and their values *)

(** The number a string of digits spells, continuing from [acc]. *)
Fixpoint digitsValue (acc : Z) (ds : string) : Z :=
  match ds with
  | String c r => digitsValue (10 * acc + JS.digitValue c) r
  | EmptyString => acc
  end.

Definition startsWithDigit (s : string) : bool :=
  match s with String c _ => JS.isDigit c | EmptyString => false end.

(** ** Decimal magnitudes *)

(** Whether [num / den] is below [10^n]. *)
Definition below10 (num den n : Z) : bool :=
  if 0 <=? n then num <? den * 10 ^ n else num * 10 ^ (- n) <? den.

(** Whether [f] holds of the [len] whole numbers from [lo] on. *)
Fixpoint forallZ (lo : Z) (len : nat) (f : Z -> bool) : bool :=
  match len with
  | O => true
  | S len' => f lo && forallZ (lo + 1) len' f
  end.

(** ** Clock readings *)

(** The submissions of a trace read a clock that holds time values. *)
Definition timeValues (evs : list Event) : Prop :=
  Forall (fun t => Z.abs t <= Date.maxTime) (submitTimes evs).

(** [a] was stamped by a later reading of the clock than [b]. *)
Definition stampedAfter (a b : Expense) : Prop :=
  exists ta tb, Expense.id a = JS.String_of_int ta /\ Expense.id b = JS.String_of_int tb
                /\ tb < ta /\ Z.abs ta <= Date.maxTime /\ Z.abs tb <= Date.maxTime.


(** ** Records with the same numeric id *)

Definition sameNumericId (r e : Expense) : bool :=
  (JS.Number (Expense.id e) =? JS.Number (Expense.id r))%float.

(** ** The persisted text of a store *)

Definition storeText (store : list Expense) : string :=
  JSON.stringify (JSON.JArray (map json_of_Expense store)).

(** ** More sample data *)

(** A form with an amount typed, on a page that views another date than
    the one the form holds. *)
Definition otherDateForm : State :=
  {| expenses := twoRecords; selectedDate := "2024-01-01"; amount := "3.20";
     category := " Coffee "; note := "flat white  "; date := "2024-01-02" |}.

(** Two records stamped within one tick of the clock, and an older one. *)
Definition sameTickStore : list Expense :=
  [ Expense.mk "1704067200000" "2024-01-01" 7 "General" "b";
    Expense.mk "1704067200000" "2024-01-01" 5 "General" "a";
    Expense.mk "1704067100000" "2024-01-01" 1 "General" "" ].

(** A storage whose slot holds the text of two records, and one whose
    slot holds an object. *)
Definition savedStorage : gmap string string :=
  {[ STORAGE_KEY := storeText twoRecords ]}.

Definition objectStorage : gmap string string := {[ STORAGE_KEY := "{}" ]}.

(** A storage whose slot holds the array of one [null]. *)
Definition nullStorage : gmap string string := {[ STORAGE_KEY := "[null]" ]}.

(** A storage as the first mount leaves it. *)
Definition emptyListStorage : gmap string string := {[ STORAGE_KEY := "[]" ]}.

(** * Verification *)

(** ** Numbers: comparisons with zero *)

Lemma Prim2SF_zero : Prim2SF 0%float = S754_zero false.
Proof. reflexivity. Qed.

Lemma ltb_zero_leb (p : float) : (0 <? p)%float = true -> (p <=? 0)%float = false.
Proof.
  rewrite ltb_spec, leb_spec, Prim2SF_zero.
  destruct (Prim2SF p) as [s|s| |s m e]; try destruct s; cbn; congruence.
Qed.

(** ** String.prototype.trim *)

Lemma append_cons (c : ascii) (a b : string) : String c a ++ b = String c (a ++ b).
Proof. reflexivity. Qed.

Lemma trimStart_spec (s : string) :
  exists l, s = l ++ JS.trimStart s /\ allWhiteSpace l = true
            /\ startsWithWhiteSpace (JS.trimStart s) = false.
Proof.
  induction s as [|c s IH]; cbn.
  - now exists "".
  - destruct (JS.isWhiteSpace c) eqn:E.
    + destruct IH as (l & Hs & Hl & Hn). exists (String c l).
      rewrite append_cons, <- Hs. cbn. now rewrite E, Hl.
    + exists "". cbn. now rewrite E.
Qed.

Lemma trimEnd_spec (s : string) :
  exists r, s = JS.trimEnd s ++ r /\ allWhiteSpace r = true
            /\ endsWithWhiteSpace (JS.trimEnd s) = false.
Proof.
  induction s as [|c s IH]; cbn.
  - now exists "".
  - destruct IH as (r & Hs & Hr & Hn).
    destruct (JS.trimEnd s) as [|d t] eqn:E.
    + change ("" ++ r) with r in Hs. subst r. destruct (JS.isWhiteSpace c) eqn:Ec; cbn.
      * exists (String c s). cbn. now rewrite Ec, Hr.
      * exists s. cbn. now rewrite Ec.
    + exists r. rewrite append_cons, <- Hs. repeat split; assumption.
Qed.

Lemma trimEnd_starts (s : string) :
  startsWithWhiteSpace s = false ->
  startsWithWhiteSpace (JS.trimEnd s) = false.
Proof.
  destruct s as [|c s]; [reflexivity|]. cbn. intros Hc.
  destruct (JS.trimEnd s); [rewrite Hc|]; cbn; assumption.
Qed.

(** [trim s] is [s] without its leading and trailing white space. *)
Lemma trim_spec (s : string) :
  exists l r, s = l ++ JS.trim s ++ r
              /\ allWhiteSpace l = true /\ allWhiteSpace r = true
              /\ startsWithWhiteSpace (JS.trim s) = false
              /\ endsWithWhiteSpace (JS.trim s) = false.
Proof.
  destruct (trimStart_spec s) as (l & Hs & Hl & Hn).
  destruct (trimEnd_spec (JS.trimStart s)) as (r & Ht & Hr & He).
  exists l, r. unfold JS.trim. rewrite <- Ht.
  repeat split; try assumption. now apply trimEnd_starts.
Qed.

(** ** The platform model at work *)

(** Values a JavaScript engine gives for the same calls. *)

Example Math_round_examples :
  map JS.Math_round
    [2.5; -2.5; 0.5; -0.5; 0.49999999999999994; 1234.5; 100.49999999999999; -0.2]%float
  = [3; -2; 1; -0; 0; 1235; 100; -0]%float.
Proof. vm_compute. reflexivity. Qed.

Example rounding_to_cents_examples :
  map (fun p => (JS.Math_round (p * 100) / 100)%float) [12.345; 1.005; 0.004; 5.5; 1e308]%float
  = [12.35; 1; 0; 5.5; infinity]%float.
Proof. vm_compute. reflexivity. Qed.

Example parseFloat_examples :
  map JS.parseFloat ["12.345"; "  -0.5e1abc"; ".5"; "1."; "1e"; "1.e2"; "-Infinity"; "0x10"; "1e-7"]
  = [12.345; -5; 0.5; 1; 1; 100; neg_infinity; 0; 1e-7]%float
  /\ map (fun s => is_nan (JS.parseFloat s)) ["abc"; ""; "."; "e5"; "-"]
     = [true; true; true; true; true].
Proof. split; vm_compute; reflexivity. Qed.

Example Number_examples :
  map JS.Number ["12.345"; "  12  "; ""; "0x1F"; "0b101"; "0o17"; "1726000000000"; "1e3"]
  = [12.345; 12; 0; 31; 5; 15; 1726000000000; 1000]%float
  /\ map (fun s => is_nan (JS.Number s)) ["12px"; "x"; "0x"; "-0x10"; "1_0"; "1 2"]
     = [true; true; true; true; true; true].
Proof. split; vm_compute; reflexivity. Qed.

Example trim_examples :
  map JS.trim ["   ab c  "; "   "; ""; "a"] = ["ab c"; ""; ""; "a"].
Proof. reflexivity. Qed.

Example Number_toString_examples :
  map JSON.Number_toString
    [12.35; 0.1; 1e21; 1e20; 1.5e-7; 0.000001; 5e-324; 1.7976931348623157e308;
     0.30000000000000004; -2.5; 1726000000000; 15.5; 0; -0]%float
  = ["12.35"; "0.1"; "1e+21"; "100000000000000000000"; "1.5e-7"; "0.000001";
     "5e-324"; "1.7976931348623157e+308"; "0.30000000000000004"; "-2.5";
     "1726000000000"; "15.5"; "0"; "0"].
Proof. vm_compute. reflexivity. Qed.

Example String_of_int_examples :
  map JS.String_of_int [1726000000000; 0; -5] = ["1726000000000"; "0"; "-5"]
  /\ JSON.Number_toString (JS.of_Z 1726000000000) = JS.String_of_int 1726000000000.
Proof. split; vm_compute; reflexivity. Qed.

Example JSON_parse_examples :
  map JSON.parse ["[1]"; "{}"; " [ 1 , 2.5e1, -0.5 ] "; "null"; "[[],{}]";
                  quotedInArray "\u00e9"]
  = [ JSON.Parsed (JSON.JArray [JSON.JNumber 1]); JSON.Parsed (JSON.JObject []);
      JSON.Parsed (JSON.JArray [JSON.JNumber 1; JSON.JNumber 25; JSON.JNumber (-0.5)]);
      JSON.Parsed JSON.JNull; JSON.Parsed (JSON.JArray [JSON.JArray []; JSON.JObject []]);
      JSON.Parsed (JSON.JArray [JSON.JString (String (ascii_of_N 233) "")]) ]
  /\ map JSON.parse ["01"; "1."; ".5"; "+1"; "[1,]"; "nul"; "[1 2]"; "-"; "1 x"; "";
                     "NaN"; "[1]]"; "0x10"; quotedInArray "\u00g0"]
     = repeat JSON.SyntaxError 14
  /\ JSON.parse (quotedInArray "\u20ac") = JSON.Unrepresented.
Proof. repeat split; vm_compute; reflexivity. Qed.

Example sort_is_stable :
  JS.Array_sort (fun a b => (JS.Number (fst b) - JS.Number (fst a))%float)
    [("2", 1); ("7", 2); ("2", 3); ("7", 4); ("10", 5)]
  = [("10", 5); ("7", 2); ("7", 4); ("2", 1); ("2", 3)].
Proof. vm_compute. reflexivity. Qed.

(** ** Binary64 subtraction keeps the order *)

Section Binary64.

Abbreviation fexp64 := (SpecFloat.fexp prec emax).
Abbreviation emin64 := (SpecFloat.emin prec emax).

Lemma fexp64_eq (z : Z) : fexp64 z = Z.max (z - 53) (-1074).
Proof. reflexivity. Qed.

Lemma digits2_bounds (p : positive) :
  2 ^ (Zpos (digits2_pos p) - 1) <= Zpos p < 2 ^ Zpos (digits2_pos p).
Proof.
  induction p as [p IH|p IH|]; cbn [digits2_pos].
  - rewrite Pos2Z.inj_succ. change (Zpos p~1) with (2 * Zpos p + 1).
    replace (Z.succ (Zpos (digits2_pos p)) - 1) with (Z.succ (Zpos (digits2_pos p) - 1)) by lia.
    rewrite !Z.pow_succ_r by lia.
    revert IH. generalize (2 ^ (Zpos (digits2_pos p) - 1)) (2 ^ Zpos (digits2_pos p)). lia.
  - rewrite Pos2Z.inj_succ. change (Zpos p~0) with (2 * Zpos p).
    replace (Z.succ (Zpos (digits2_pos p)) - 1) with (Z.succ (Zpos (digits2_pos p) - 1)) by lia.
    rewrite !Z.pow_succ_r by lia.
    revert IH. generalize (2 ^ (Zpos (digits2_pos p) - 1)) (2 ^ Zpos (digits2_pos p)). lia.
  - cbn. lia.
Qed.

Lemma shr_1_m (r : shr_record) : 0 <= shr_m r -> shr_m (shr_1 r) = shr_m r / 2.
Proof.
  destruct r as [m b s]. cbn [shr_m]. intros Hm.
  destruct m as [|[p|p|]|p]; cbn [shr_1 shr_m orb].
  - reflexivity.
  - change (Zpos p~1) with (2 * Zpos p + 1). apply Z.div_unique with 1; lia.
  - change (Zpos p~0) with (2 * Zpos p). apply Z.div_unique with 0; lia.
  - reflexivity.
  - lia.
Qed.

Lemma shr_iter_m (n : positive) (r : shr_record) :
  0 <= shr_m r -> shr_m (SpecFloat.iter_pos shr_1 n r) = shr_m r / 2 ^ Zpos n.
Proof.
  revert r. induction n as [n IH|n IH|]; intros r Hr; cbn [SpecFloat.iter_pos].
  - assert (H1 : 0 <= shr_m (shr_1 r)) by (rewrite shr_1_m by assumption; apply Z.div_pos; lia).
    assert (H2 : 0 <= shr_m (SpecFloat.iter_pos shr_1 n (shr_1 r))).
    { rewrite IH by assumption. apply Z.div_pos; lia. }
    rewrite IH, IH, shr_1_m by assumption.
    rewrite !Z.div_div by lia. f_equal.
    change (Zpos n~1) with (2 * Zpos n + 1). rewrite Z.pow_add_r, Z.pow_mul_r by lia.
    change (2 ^ 2) with 4. change (2 ^ 1) with 2.
    replace (4 ^ Zpos n) with (2 ^ Zpos n * 2 ^ Zpos n); [lia|].
    rewrite <- Z.pow_mul_l. reflexivity.
  - assert (H2 : 0 <= shr_m (SpecFloat.iter_pos shr_1 n r)).
    { rewrite IH by assumption. apply Z.div_pos; lia. }
    rewrite IH, IH by assumption.
    rewrite !Z.div_div by lia. f_equal.
    change (Zpos n~0) with (2 * Zpos n). rewrite Z.pow_mul_r by lia.
    change (2 ^ 2) with 4. rewrite <- Z.pow_mul_l. reflexivity.
  - rewrite shr_1_m by assumption. reflexivity.
Qed.

Lemma shr_record_of_loc_m (m : Z) (l : location) :
  shr_m (shr_record_of_loc m l) = m.
Proof. destruct l as [|[]]; reflexivity. Qed.

(** Shifting a positive mantissa to its format exponent never loses all
    of it, as long as the exponent is not below the least one. *)
Lemma shr_fexp_pos (p : positive) (e : Z) (l : location) :
  emin64 <= e ->
  0 < shr_m (fst (shr_fexp prec emax (Zpos p) e l))
  /\ emin64 <= snd (shr_fexp prec emax (Zpos p) e l).
Proof.
  intros He. unfold shr_fexp, shr. cbn [Zdigits2].
  pose proof (digits2_bounds p) as [Hlo _].
  set (d := Zpos (digits2_pos p)) in *.
  assert (Hd : 0 < d) by (subst d; lia).
  destruct (fexp64 (d + e) - e) as [|n|n] eqn:En; cbn [fst snd];
    rewrite ?shr_record_of_loc_m; try (split; [lia | assumption]).
  rewrite fexp64_eq in En. change emin64 with (-1074) in *.
  split; [|lia].
  rewrite shr_iter_m by (rewrite shr_record_of_loc_m; lia).
  rewrite shr_record_of_loc_m.
  assert (2 ^ Zpos n <= Zpos p).
  { apply Z.le_trans with (2 ^ (d - 1)); [|assumption].
    apply Z.pow_le_mono_r; lia. }
  apply Z.div_str_pos. lia.
Qed.

Lemma round_nearest_even_ge (m : Z) (l : location) : m <= round_nearest_even m l.
Proof. destruct l as [|[]]; cbn; try destruct (Z.even m); lia. Qed.

Lemma binary_round_aux_nonzero (s : bool) (p : positive) (e : Z) (l : location) :
  emin64 <= e -> signed_nonzero s (binary_round_aux prec emax s (Zpos p) e l).
Proof.
  intros He. unfold binary_round_aux.
  destruct (shr_fexp_pos p e l He) as [H1 H2].
  destruct (shr_fexp prec emax (Zpos p) e l) as [r1 e1]. cbn [fst snd] in *.
  pose proof (round_nearest_even_ge (shr_m r1) (loc_of_shr_record r1)) as Hr.
  destruct (round_nearest_even (shr_m r1) (loc_of_shr_record r1)) as [|q|q]; try lia.
  destruct (shr_fexp_pos q e1 loc_Exact H2) as [H3 _].
  destruct (shr_fexp prec emax (Zpos q) e1 loc_Exact) as [r2 e2]. cbn [fst snd] in *.
  destruct (shr_m r2) as [|m|m]; try lia.
  destruct (e2 <=? emax - prec); reflexivity.
Qed.

Lemma binary_round_nonzero (s : bool) (p : positive) (e : Z) :
  emin64 <= e -> signed_nonzero s (binary_round prec emax s p e).
Proof.
  intros He. unfold binary_round, shl_align.
  assert (Hf : emin64 <= fexp64 (Zpos (digits2_pos p) + e)).
  { rewrite fexp64_eq. change emin64 with (-1074). lia. }
  destruct (fexp64 (Zpos (digits2_pos p) + e) - e);
    apply binary_round_aux_nonzero; assumption.
Qed.

Lemma ltb_zero_normalize (d e : Z) :
  emin64 <= e ->
  SFltb (S754_zero false) (binary_normalize prec emax d e false) = (0 <? d).
Proof.
  intros He. destruct d as [|p|p]; cbn [binary_normalize].
  - reflexivity.
  - pose proof (binary_round_nonzero false p e He) as H.
    destruct (binary_round prec emax false p e); cbn in H; try contradiction;
      subst; reflexivity.
  - pose proof (binary_round_nonzero true p e He) as H.
    destruct (binary_round prec emax true p e); cbn in H; try contradiction;
      subst; reflexivity.
Qed.

(** *** Finite numbers on a common exponent *)

Lemma iter_xO_pow (p d : positive) : Zpos (Pos.iter xO p d) = Zpos p * 2 ^ Zpos d.
Proof.
  induction d as [|d IH] using Pos.peano_ind.
  - cbn. lia.
  - rewrite Pos.iter_succ, Pos2Z.inj_succ, Z.pow_succ_r by lia.
    change (Zpos (Pos.iter xO p d)~0) with (2 * Zpos (Pos.iter xO p d)).
    rewrite IH. ring.
Qed.

Lemma shl_align_fst (m : positive) (e ez : Z) :
  ez <= e -> Zpos (fst (shl_align m e ez)) = Zpos m * 2 ^ (e - ez).
Proof.
  intros H. unfold shl_align.
  destruct (ez - e) as [|d|d] eqn:E; cbn [fst].
  - replace (e - ez) with 0 by lia. cbn. lia.
  - lia.
  - rewrite iter_xO_pow. f_equal. f_equal. lia.
Qed.

Lemma canonical_digits (m : positive) (e : Z) :
  canonical_mantissa prec emax m e = true ->
  emin64 <= e /\ Zpos (digits2_pos m) <= 53
  /\ (emin64 < e -> Zpos (digits2_pos m) = 53).
Proof.
  unfold canonical_mantissa. rewrite Z.eqb_eq, fexp64_eq.
  change emin64 with (-1074). lia.
Qed.

(** Of two canonical mantissas, the one with the larger exponent is the
    larger number. *)
Lemma canonical_exponent_lt (m1 m2 : positive) (e1 e2 : Z) :
  canonical_mantissa prec emax m1 e1 = true ->
  canonical_mantissa prec emax m2 e2 = true ->
  e1 < e2 -> Zpos m1 < Zpos m2 * 2 ^ (e2 - e1).
Proof.
  intros H1 H2 Hlt.
  destruct (canonical_digits _ _ H1) as (Hmin1 & Hd1 & _).
  destruct (canonical_digits _ _ H2) as (_ & _ & Hd2).
  specialize (Hd2 ltac:(lia)).
  pose proof (digits2_bounds m1) as [_ Hu]. pose proof (digits2_bounds m2) as [Hl _].
  rewrite Hd2 in Hl.
  assert (Zpos m1 < 2 ^ 53).
  { eapply Z.lt_le_trans; [exact Hu|]. apply Z.pow_le_mono_r; lia. }
  assert (2 ^ 1 <= 2 ^ (e2 - e1)) by (apply Z.pow_le_mono_r; lia).
  change (2 ^ 1) with 2 in *. change (2 ^ (53 - 1)) with (2 ^ 53 / 2) in Hl.
  change (2 ^ 53) with 9007199254740992 in *.
  change (9007199254740992 / 2) with 4503599627370496 in Hl.
  nia.
Qed.

Lemma SFcompare_aligned (s1 s2 : bool) (m1 m2 : positive) (e1 e2 : Z) :
  canonical_mantissa prec emax m1 e1 = true ->
  canonical_mantissa prec emax m2 e2 = true ->
  SFcompare (S754_finite s1 m1 e1) (S754_finite s2 m2 e2)
  = Some (aligned (Z.min e1 e2) s1 m1 e1 ?= aligned (Z.min e1 e2) s2 m2 e2).
Proof.
  intros H1 H2. unfold aligned.
  rewrite !shl_align_fst by lia. cbn [SFcompare]. f_equal.
  assert (P1 : 0 < 2 ^ (e1 - Z.min e1 e2)) by (apply Z.pow_pos_nonneg; lia).
  assert (P2 : 0 < 2 ^ (e2 - Z.min e1 e2)) by (apply Z.pow_pos_nonneg; lia).
  destruct (Z.compare_spec e1 e2) as [E|E|E].
  - subst e2. rewrite Z.min_id, Z.sub_diag in *. change (2 ^ 0) with 1.
    rewrite !Z.mul_1_r. change (Pos.compare_cont Eq m1 m2) with (m1 ?= m2)%positive.
    destruct s1, s2; reflexivity.
  - pose proof (canonical_exponent_lt _ _ _ _ H1 H2 E) as Hlt.
    rewrite Z.min_l in * by lia. rewrite Z.sub_diag in *. change (2 ^ 0) with 1.
    rewrite Z.mul_1_r.
    destruct s1, s2; cbn [cond_Zopp]; symmetry;
      [apply Z.compare_gt_iff|apply Z.compare_lt_iff|apply Z.compare_gt_iff|apply Z.compare_lt_iff]; lia.
  - pose proof (canonical_exponent_lt _ _ _ _ H2 H1 E) as Hlt.
    rewrite Z.min_r in * by lia. rewrite Z.sub_diag in *. change (2 ^ 0) with 1.
    rewrite Z.mul_1_r.
    destruct s1, s2; cbn [cond_Zopp]; symmetry;
      [apply Z.compare_lt_iff|apply Z.compare_lt_iff|apply Z.compare_gt_iff|apply Z.compare_gt_iff]; lia.
Qed.

Lemma bounded_canonical (m : positive) (e : Z) :
  bounded prec emax m e = true -> canonical_mantissa prec emax m e = true.
Proof. unfold bounded. now intros [H _]%andb_true_iff. Qed.

Lemma SFsub_ltb (x y : spec_float) :
  valid_binary x = true -> valid_binary y = true ->
  x <> S754_nan -> y <> S754_nan ->
  SFltb (S754_zero false) (SF64sub y x) = SFltb x y.
Proof.
  intros Vx Vy Nx Ny.
  destruct x as [sx|sx| |sx mx ex], y as [sy|sy| |sy my ey]; try congruence;
    try (destruct sx, sy; reflexivity); try (destruct sx; reflexivity);
    try (destruct sy; reflexivity).
  cbn in Vx, Vy. apply bounded_canonical in Vx, Vy.
  unfold SF64sub, SFsub. rewrite ltb_zero_normalize.
  - unfold SFltb. rewrite (SFcompare_aligned _ _ _ _ _ _ Vx Vy).
    fold (aligned (Z.min ey ex) sy my ey). fold (aligned (Z.min ey ex) sx mx ex).
    rewrite (Z.min_comm ey ex).
    set (a := aligned (Z.min ex ey) sx mx ex). set (b := aligned (Z.min ex ey) sy my ey).
    destruct (Z.compare_spec a b); destruct (Z.ltb_spec 0 (b - a)); try reflexivity; lia.
  - destruct (canonical_digits _ _ Vx), (canonical_digits _ _ Vy). lia.
Qed.

Lemma Prim2SF_not_nan (x : float) : is_nan x = false -> Prim2SF x <> S754_nan.
Proof.
  intros H. unfold Prim2SF. rewrite H.
  destruct (is_zero x); [discriminate|]. destruct (is_infinity x); [discriminate|].
  destruct (Z.frexp x) as [r e].
  destruct (shr_fexp prec emax _ _ _) as [r' e']. destruct (shr_m r'); discriminate.
Qed.

(** The sign test of a comparator [y - x]: on numbers other than NaN the
    difference is positive exactly when [x < y]. *)
Lemma sub_pos_iff (x y : float) :
  is_nan x = false -> is_nan y = false ->
  (0 <? y - x)%float = (x <? y)%float.
Proof.
  intros Hx Hy. rewrite !ltb_spec, sub_spec.
  change (Prim2SF 0) with (S754_zero false).
  apply SFsub_ltb; auto using Prim2SF_valid, Prim2SF_not_nan.
Qed.

End Binary64.

(** ** The order of binary64 numbers *)

Section Order.

Lemma finite_rank_bounds (s : bool) (m : positive) (e : Z) :
  bounded prec emax m e = true ->
  0 < Zpos m * 2 ^ (e + 1074) < 2 ^ 2200.
Proof.
  intros H. pose proof (bounded_canonical _ _ H) as Hc.
  apply andb_true_iff in H as [_ He%Z.leb_le]. change (emax - prec) with 971 in He.
  destruct (canonical_digits _ _ Hc) as (Hmin & Hd & _). change (SpecFloat.emin prec emax) with (-1074) in Hmin.
  pose proof (digits2_bounds m) as [_ Hu].
  assert (Hm : Zpos m < 2 ^ 53).
  { eapply Z.lt_le_trans; [exact Hu|]. apply Z.pow_le_mono_r; lia. }
  assert (Hp : 0 < 2 ^ (e + 1074)) by (apply Z.pow_pos_nonneg; lia).
  assert (Hq : 2 ^ (e + 1074) <= 2 ^ 2045) by (apply Z.pow_le_mono_r; lia).
  split; [lia|].
  replace (2 ^ 2200) with (2 ^ 53 * 2 ^ 2045 * 2 ^ 102)
    by (rewrite <- !Z.pow_add_r by lia; reflexivity).
  assert (1 <= 2 ^ 102) by (change 1 with (2 ^ 0); apply Z.pow_le_mono_r; lia).
  revert Hm Hp Hq H. generalize (2 ^ (e + 1074)) (2 ^ 53) (2 ^ 2045) (2 ^ 102).
  intros p a b c Hm Hp Hq Hc1.
  assert (Zpos m * p < a * p) by (apply Z.mul_lt_mono_pos_r; lia).
  assert (a * p <= a * b) by (apply Z.mul_le_mono_nonneg_l; lia).
  assert (a * b * 1 <= a * b * c) by (apply Z.mul_le_mono_nonneg_l; nia).
  lia.
Qed.

Lemma SFcompare_rank (x y : spec_float) :
  valid_binary x = true -> valid_binary y = true ->
  x <> S754_nan -> y <> S754_nan ->
  SFcompare x y = Some (SFrank x ?= SFrank y).
Proof.
  intros Vx Vy Nx Ny.
  assert (Hinf : 0 < 2 ^ 2200) by (apply Z.pow_pos_nonneg; lia).
  destruct x as [sx|sx| |sx mx ex], y as [sy|sy| |sy my ey]; try congruence;
    cbn [valid_binary] in *;
    try pose proof (finite_rank_bounds sx mx ex Vx) as Bx;
    try pose proof (finite_rank_bounds sy my ey Vy) as By.
  1-8: cbn [SFcompare SFrank]; f_equal; try destruct sx; try destruct sy;
    cbn [cond_Zopp]; symmetry;
    first [ apply Z.compare_eq_iff; lia | apply Z.compare_lt_iff; lia
          | apply Z.compare_gt_iff; lia ].
  cbn [SFrank].
  - apply bounded_canonical in Vx, Vy.
    pose proof (SFcompare_aligned sx sy mx my ex ey Vx Vy) as H.
    rewrite H. f_equal. unfold aligned.
    destruct (canonical_digits _ _ Vx) as (Hx & _), (canonical_digits _ _ Vy) as (Hy & _).
    change (SpecFloat.emin prec emax) with (-1074) in *.
    rewrite !shl_align_fst by lia.
    set (ez := Z.min ex ey).
    assert (Hc : 0 < 2 ^ (ez + 1074)) by (apply Z.pow_pos_nonneg; lia).
    assert (Hs : forall s m e, ez <= e ->
              cond_Zopp s (Zpos m * 2 ^ (e + 1074))
              = cond_Zopp s (Zpos m * 2 ^ (e - ez)) * 2 ^ (ez + 1074)).
    { intros s m e He. replace (e + 1074) with ((e - ez) + (ez + 1074)) by lia.
      rewrite Z.pow_add_r by lia. destruct s; cbn [cond_Zopp]; ring. }
    rewrite (Hs sx mx ex), (Hs sy my ey) by lia.
    generalize (cond_Zopp sx (Zpos mx * 2 ^ (ex - ez)))
               (cond_Zopp sy (Zpos my * 2 ^ (ey - ez))) (2 ^ (ez + 1074)) Hc.
    intros a b c Hpos.
    destruct (Z.compare_spec a b); symmetry;
      [apply Z.compare_eq_iff; congruence
      |apply Z.compare_lt_iff, Z.mul_lt_mono_pos_r; assumption
      |apply Z.compare_gt_iff, Z.mul_lt_mono_pos_r; assumption].
Qed.

Lemma ltb_rank (x y : float) :
  is_nan x = false -> is_nan y = false -> (x <? y)%float = (rank x <? rank y).
Proof.
  intros Hx Hy. rewrite ltb_spec. unfold SFltb, rank, Z.ltb.
  rewrite SFcompare_rank by auto using Prim2SF_valid, Prim2SF_not_nan.
  reflexivity.
Qed.

Lemma leb_rank (x y : float) :
  is_nan x = false -> is_nan y = false -> (x <=? y)%float = (rank x <=? rank y).
Proof.
  intros Hx Hy. rewrite leb_spec. unfold SFleb, rank, Z.leb.
  rewrite SFcompare_rank by auto using Prim2SF_valid, Prim2SF_not_nan.
  destruct (_ ?= _); reflexivity.
Qed.

End Order.

(** ** Array.prototype.sort *)

Section Sort.

Context {A : Type}.

Lemma insert_sorted_perm (cmp : A -> A -> float) (x : A) (l : list A) :
  Permutation (JS.insert_sorted cmp x l) (x :: l).
Proof.
  induction l as [|y l IH]; cbn; [reflexivity|].
  destruct (0 <? cmp x y)%float; [|reflexivity].
  rewrite IH. apply perm_swap.
Qed.

Lemma Array_sort_perm (cmp : A -> A -> float) (l : list A) :
  Permutation (JS.Array_sort cmp l) l.
Proof.
  induction l as [|x l IH]; cbn; [reflexivity|].
  fold (JS.Array_sort cmp l). rewrite insert_sorted_perm. now constructor.
Qed.

Variable k : A -> float.

Let cmp (a b : A) : float := (k b - k a)%float.

Lemma insert_sorted_descending (x : A) (l : list A) :
  is_nan (k x) = false -> Forall (fun y => is_nan (k y) = false) l ->
  StronglySorted (keyDescending k) l ->
  StronglySorted (keyDescending k) (JS.insert_sorted cmp x l).
Proof.
  intros Hx Hl Hs. induction Hs as [|y l Hs IH Hy]; cbn.
  - repeat constructor.
  - apply Forall_cons in Hl as [Hny Hl]. unfold cmp at 1.
    rewrite sub_pos_iff, ltb_rank by assumption.
    destruct (Z.ltb_spec (rank (k x)) (rank (k y))) as [Hlt|Hge].
    + constructor; [apply IH; assumption|].
      eapply Permutation_Forall; [symmetry; apply insert_sorted_perm|].
      constructor; [|assumption].
      unfold keyDescending. rewrite leb_rank by assumption. apply Z.leb_le. lia.
    + constructor; [now constructor|].
      constructor.
      * unfold keyDescending. rewrite leb_rank by assumption. now apply Z.leb_le.
      * rewrite Forall_forall in Hy, Hl |- *. intros z Hz.
        specialize (Hy z Hz). specialize (Hl z Hz). unfold keyDescending in *.
        rewrite leb_rank in Hy |- * by assumption. apply Z.leb_le in Hy.
        apply Z.leb_le. lia.
Qed.

Lemma Array_sort_descending (l : list A) :
  Forall (fun y => is_nan (k y) = false) l ->
  StronglySorted (keyDescending k) (JS.Array_sort cmp l).
Proof.
  induction l as [|x l IH]; intros Hl; cbn; [constructor|].
  apply Forall_cons in Hl as [Hx Hl]. fold (JS.Array_sort cmp l).
  apply insert_sorted_descending; [assumption| |now apply IH].
  eapply Permutation_Forall; [symmetry; apply Array_sort_perm|assumption].
Qed.

End Sort.

(** ** Rounding yields numbers of the format *)

Section Rounding.

Lemma digits2_unique (q : positive) (k : Z) :
  2 ^ (k - 1) <= Zpos q < 2 ^ k -> Zpos (digits2_pos q) = k.
Proof.
  intros [Hlo Hhi]. pose proof (digits2_bounds q) as [Blo Bhi].
  set (d := Zpos (digits2_pos q)) in *.
  assert (0 < d) by (subst d; lia).
  assert (0 < k).
  { destruct k as [|k|k]; [change (2 ^ 0) with 1 in Hhi|lia|rewrite Z.pow_neg_r in Hhi by lia];
      pose proof (Pos2Z.is_pos q); lia. }
  destruct (Z.lt_trichotomy d k) as [Hlt|[Heq|Hgt]]; [|assumption|].
  - assert (2 ^ d <= 2 ^ (k - 1)) by (apply Z.pow_le_mono_r; lia). lia.
  - assert (2 ^ k <= 2 ^ (d - 1)) by (apply Z.pow_le_mono_r; lia). lia.
Qed.

Lemma digits2_shift (p : positive) (n : Z) (q : positive) :
  0 < n -> Zpos p / 2 ^ n = Zpos q ->
  Zpos (digits2_pos q) = Zpos (digits2_pos p) - n.
Proof.
  intros Hn Hq. pose proof (digits2_bounds p) as [Blo Bhi].
  set (d := Zpos (digits2_pos p)) in *.
  assert (Hp : 0 < 2 ^ n) by (apply Z.pow_pos_nonneg; lia).
  assert (Hnd : n < d).
  { destruct (Z.lt_ge_cases n d) as [|Hge]; [assumption|].
    assert (2 ^ d <= 2 ^ n) by (apply Z.pow_le_mono_r; lia).
    rewrite Z.div_small in Hq by lia. discriminate Hq. }
  apply digits2_unique. rewrite <- Hq. split.
  - apply Z.div_le_lower_bound; [assumption|].
    rewrite <- Z.pow_add_r by lia. replace (n + (d - n - 1)) with (d - 1) by lia.
    assumption.
  - apply Z.div_lt_upper_bound; [assumption|].
    rewrite <- Z.pow_add_r by lia. replace (n + (d - n)) with d by lia. assumption.
Qed.

(** A mantissa shifted to its format exponent is canonical there. *)
Lemma shr_fexp_canonical (p : positive) (e : Z) (l : location) (q : positive) :
  e <= fexp prec emax (Zpos (digits2_pos p) + e) ->
  shr_m (fst (shr_fexp prec emax (Zpos p) e l)) = Zpos q ->
  canonical_mantissa prec emax q (snd (shr_fexp prec emax (Zpos p) e l)) = true.
Proof.
  unfold shr_fexp, shr, canonical_mantissa. cbn [Zdigits2].
  set (d := Zpos (digits2_pos p)). intros He.
  destruct (fexp prec emax (d + e) - e) as [|n|n] eqn:En; cbn [fst snd];
    try lia.
  - rewrite shr_record_of_loc_m. intros [= <-]. fold d. apply Z.eqb_eq. lia.
  - rewrite shr_iter_m, shr_record_of_loc_m by (rewrite shr_record_of_loc_m; lia).
    intros Hq. apply Z.eqb_eq.
    rewrite (digits2_shift p (Zpos n) q) by (lia || assumption). fold d.
    replace (d - Zpos n + (e + Zpos n)) with (d + e) by lia. lia.
Qed.

Lemma round_nearest_even_cases (m : Z) (l : location) :
  round_nearest_even m l = m \/ round_nearest_even m l = m + 1.
Proof. destruct l as [|[]]; cbn; try destruct (Z.even m); auto. Qed.

Lemma digits2_mono (p q : positive) :
  Zpos p <= Zpos q -> Zpos (digits2_pos p) <= Zpos (digits2_pos q).
Proof.
  intros H. pose proof (digits2_bounds p) as [Plo _]. pose proof (digits2_bounds q) as [_ Qhi].
  destruct (Z.le_gt_cases (Zpos (digits2_pos p)) (Zpos (digits2_pos q))) as [|Hgt];
    [assumption|].
  assert (2 ^ Zpos (digits2_pos q) <= 2 ^ (Zpos (digits2_pos p) - 1))
    by (apply Z.pow_le_mono_r; lia).
  lia.
Qed.

Lemma fexp_mono (a b : Z) : a <= b -> fexp prec emax a <= fexp prec emax b.
Proof. rewrite !fexp64_eq. lia. Qed.

Lemma binary_round_aux_valid (s : bool) (p : positive) (e : Z) (l : location) :
  SpecFloat.emin prec emax <= e ->
  e <= fexp prec emax (Zpos (digits2_pos p) + e) ->
  valid_binary (binary_round_aux prec emax s (Zpos p) e l) = true.
Proof.
  intros Hmin He. unfold binary_round_aux.
  pose proof (fun q => shr_fexp_canonical p e l q He) as H1.
  destruct (shr_fexp_pos p e l Hmin) as [Hpos1 Hmin1].
  destruct (shr_fexp prec emax (Zpos p) e l) as [r1 e1]. cbn [fst snd] in *.
  destruct (shr_m r1) as [|q|q] eqn:Eq1; try lia.
  specialize (H1 q eq_refl). clear Hpos1.
  assert (Hm1 : exists m1, round_nearest_even (Zpos q) (loc_of_shr_record r1) = Zpos m1
                           /\ Zpos q <= Zpos m1).
  { destruct (round_nearest_even_cases (Zpos q) (loc_of_shr_record r1)) as [->| ->].
    - exists q. split; [reflexivity|lia].
    - exists (q + 1)%positive. split; [reflexivity|lia]. }
  destruct Hm1 as (m1 & -> & Hle).
  assert (He1 : e1 <= fexp prec emax (Zpos (digits2_pos m1) + e1)).
  { unfold canonical_mantissa in H1. apply Z.eqb_eq in H1. rewrite <- H1 at 1.
    apply fexp_mono. pose proof (digits2_mono q m1 Hle). lia. }
  pose proof (fun q' => shr_fexp_canonical m1 e1 loc_Exact q' He1) as H2.
  destruct (shr_fexp_pos m1 e1 loc_Exact Hmin1) as [Hpos2 _].
  destruct (shr_fexp prec emax (Zpos m1) e1 loc_Exact) as [r2 e2]. cbn [fst snd] in *.
  destruct (shr_m r2) as [|m2|m2]; try lia.
  destruct (e2 <=? emax - prec) eqn:Ee; [|reflexivity].
  cbn [valid_binary]. unfold bounded. now rewrite (H2 m2 eq_refl), Ee.
Qed.

Lemma digits2_iter_xO (p k : positive) :
  Zpos (digits2_pos (Pos.iter xO p k)) = Zpos (digits2_pos p) + Zpos k.
Proof.
  induction k as [|k IH] using Pos.peano_ind.
  - cbn. lia.
  - rewrite Pos.iter_succ. cbn [digits2_pos]. rewrite Pos2Z.inj_succ, IH. lia.
Qed.

Lemma binary_round_valid (s : bool) (p : positive) (e : Z) :
  SpecFloat.emin prec emax <= e ->
  valid_binary (binary_round prec emax s p e) = true.
Proof.
  intros Hmin. unfold binary_round, shl_align.
  assert (Hf : SpecFloat.emin prec emax <= fexp prec emax (Zpos (digits2_pos p) + e)).
  { rewrite fexp64_eq. change (SpecFloat.emin prec emax) with (-1074). lia. }
  destruct (fexp prec emax (Zpos (digits2_pos p) + e) - e) as [|k|k] eqn:Ek;
    apply binary_round_aux_valid; try assumption; try lia.
  rewrite digits2_iter_xO.
  replace (Zpos (digits2_pos p) + Zpos k + fexp prec emax (Zpos (digits2_pos p) + e))
    with (Zpos (digits2_pos p) + e) by lia.
  lia.
Qed.

Lemma binary_normalize_valid (z e : Z) (s : bool) :
  SpecFloat.emin prec emax <= e ->
  valid_binary (binary_normalize prec emax z e s) = true
  /\ binary_normalize prec emax z e s <> S754_nan.
Proof.
  intros Hmin. destruct z as [|p|p]; cbn [binary_normalize]; [now split| |].
  - split; [now apply binary_round_valid|].
    pose proof (binary_round_nonzero false p e Hmin) as H.
    destruct (binary_round prec emax false p e); try discriminate. destruct H.
  - split; [now apply binary_round_valid|].
    pose proof (binary_round_nonzero true p e Hmin) as H.
    destruct (binary_round prec emax true p e); try discriminate. destruct H.
Qed.

(** *** Numbers that are not NaN *)

Lemma SF2Prim_not_nan (x : spec_float) :
  valid_binary x = true -> x <> S754_nan -> is_nan (SF2Prim x) = false.
Proof.
  intros Hv Hn. unfold is_nan. rewrite FloatAxioms.eqb_spec, Prim2SF_SF2Prim by assumption.
  unfold SFeqb. rewrite SFcompare_rank by assumption. now rewrite Z.compare_refl.
Qed.

Lemma of_Z_not_nan (z : Z) : is_nan (JS.of_Z z) = false.
Proof.
  unfold JS.of_Z. apply SF2Prim_not_nan; now apply binary_normalize_valid.
Qed.

Lemma of_decimal_integer_not_nan (neg : bool) (m : Z) :
  is_nan (JS.of_decimal neg m 0) = false.
Proof.
  unfold JS.of_decimal. destruct m as [|p|p]; try (now destruct neg).
  apply SF2Prim_not_nan; now apply binary_normalize_valid.
Qed.

End Rounding.

(** ** JSON texts read back *)

Section RoundTrip.

Import JS JSON.

Lemma append_nil_l (s : string) : "" ++ s = s.
Proof. reflexivity. Qed.

Lemma append_assoc (a b c : string) : (a ++ b) ++ c = a ++ (b ++ c).
Proof.
  induction a as [|x a IH]; [reflexivity|].
  now rewrite !append_cons, IH.
Qed.

Lemma length_append (a b : string) :
  String.length (a ++ b) = (String.length a + String.length b)%nat.
Proof.
  induction a as [|x a IH]; [reflexivity|].
  rewrite append_cons. cbn. now rewrite IH.
Qed.

(** *** Strings *)

Lemma parseChars_escapeChar (c : ascii) (t : string) :
  parseChars (escapeChar c ++ t) = consChar c (parseChars t).
Proof.
  destruct c as [[] [] [] [] [] [] [] []]; reflexivity.
Qed.

Lemma parseChars_escape (s rest : string) :
  parseChars (escape s ++ String dquote rest) = Parsed (s, rest).
Proof.
  induction s as [|c s IH]; [reflexivity|].
  cbn [escape]. rewrite append_assoc, parseChars_escapeChar, IH. reflexivity.
Qed.

(** *** Numbers *)

Lemma allNumberChars_app (a b : string) :
  allNumberChars (a ++ b) = allNumberChars a && allNumberChars b.
Proof.
  induction a as [|c a IH]; [reflexivity|].
  rewrite append_cons. cbn. now rewrite IH, andb_assoc.
Qed.

Lemma digitChar_number (d : Z) : 0 <= d < 10 -> isNumberChar (digitChar d) = true.
Proof.
  intros H.
  assert (d = 0 \/ d = 1 \/ d = 2 \/ d = 3 \/ d = 4 \/ d = 5 \/ d = 6 \/ d = 7
          \/ d = 8 \/ d = 9) as Hd by lia.
  repeat (destruct Hd as [->|Hd]; [reflexivity|]). now subst.
Qed.

Lemma digitsOf_number (fuel : nat) (z : Z) (acc : string) :
  allNumberChars acc = true -> allNumberChars (digitsOf fuel z acc) = true.
Proof.
  revert z acc. induction fuel as [|fuel IH]; intros z acc Hacc; cbn; [assumption|].
  assert (H : allNumberChars (String (digitChar (z mod 10)) acc) = true).
  { cbn. rewrite digitChar_number, Hacc; [reflexivity|]. apply Z.mod_pos_bound. lia. }
  destruct (z <? 10); [exact H|]. now apply IH.
Qed.

Lemma decimal_number (z : Z) : allNumberChars (decimal z) = true.
Proof. now apply digitsOf_number. Qed.

Lemma zeros_number (n : nat) : allNumberChars (zeros n) = true.
Proof. induction n; [reflexivity|assumption]. Qed.

Lemma takeChars_number (n : nat) (s : string) :
  allNumberChars s = true -> allNumberChars (takeChars n s) = true.
Proof.
  revert s. induction n as [|n IH]; intros [|c s] H; try reflexivity.
  cbn in *. apply andb_true_iff in H as [-> H]. now apply IH.
Qed.

Lemma dropChars_number (n : nat) (s : string) :
  allNumberChars s = true -> allNumberChars (dropChars n s) = true.
Proof.
  revert s. induction n as [|n IH]; intros [|c s] H; try assumption.
  cbn in *. apply andb_true_iff in H as [_ H]. now apply IH.
Qed.

Lemma formatDecimal_number (s k n : Z) : allNumberChars (formatDecimal s k n) = true.
Proof.
  unfold formatDecimal.
  repeat match goal with |- context [if ?b then _ else _] => destruct b end;
    rewrite ?allNumberChars_app, ?decimal_number, ?zeros_number,
      ?takeChars_number, ?dropChars_number by apply decimal_number;
    reflexivity.
Qed.

Lemma finite_Prim2SF (x : float) :
  isFinite x = true ->
  match Prim2SF x with S754_zero _ | S754_finite _ _ _ => True | _ => False end.
Proof.
  unfold isFinite, is_finite, Prim2SF. intros H.
  apply negb_true_iff, orb_false_iff in H as [-> ->].
  destruct (is_zero x); [exact I|]. destruct (Z.frexp x) as [r e].
  destruct (shr_fexp prec emax _ _ _) as [r' e']. now destruct (shr_m r').
Qed.

(** The text of a finite number is made of number characters only. *)
Lemma Number_toString_number (x : float) :
  isFinite x = true -> allNumberChars (Number_toString x) = true.
Proof.
  intros H%finite_Prim2SF. unfold Number_toString.
  destruct (Prim2SF x) as [s|s| |sg m e]; try contradiction; [reflexivity|].
  destruct (if 0 <=? e then _ else _) as [num den].
  destruct (shortest _ _ _ _ _ _) as [k s].
  destruct (s =? 10 ^ k), sg; rewrite ?allNumberChars_app, !formatDecimal_number;
    reflexivity.
Qed.

Lemma spanNumber_token (tok rest : string) :
  allNumberChars tok = true -> startsWithNumberChar rest = false ->
  spanNumber (tok ++ rest) = (tok, rest).
Proof.
  intros Ht Hr. induction tok as [|c tok IH].
  - rewrite append_nil_l. destruct rest as [|c r]; [reflexivity|].
    cbn in *. now rewrite Hr.
  - rewrite append_cons. cbn in *. apply andb_true_iff in Ht as [-> Ht].
    now rewrite IH.
Qed.

(** A number token followed by something that cannot continue it is read
    as the number it denotes. *)
Lemma parseValue_number (fuel : nat) (tok rest : string) (x : float) :
  allNumberChars tok = true -> jsonNumber tok = Some x ->
  startsWithNumberChar rest = false ->
  parseValue (S fuel) (tok ++ rest) = Parsed (JNumber x, rest).
Proof.
  intros Ht Hx Hr. pose proof (spanNumber_token tok rest Ht Hr) as Hspan.
  destruct tok as [|c tok]; [discriminate Hx|].
  rewrite append_cons in *. cbn [allNumberChars] in Ht.
  apply andb_true_iff in Ht as [Hc _].
  assert (Hcodes : isJsonWhiteSpace c = false /\ (code c =? 34) = false
             /\ (code c =? 91) = false /\ (code c =? 123) = false
             /\ (code c =? 116) = false /\ (code c =? 102) = false
             /\ (code c =? 110) = false).
  { destruct c as [[] [] [] [] [] [] [] []]; try discriminate Hc;
      repeat split; reflexivity. }
  destruct Hcodes as (W & C1 & C2 & C3 & C4 & C5 & C6).
  cbn [parseValue skipWhiteSpace]. rewrite W. cbv zeta.
  rewrite C1, C2, C3, C4, C5, C6, Hspan, Hx. reflexivity.
Qed.

(** *** Values, members and elements *)

(** Brings a text to the form of its first characters followed by the rest. *)
Ltac expose_text :=
  repeat first [rewrite append_assoc | rewrite append_cons | rewrite append_nil_l].

Lemma readsBack_string (s : string) : readsBack 1 (JString s).
Proof.
  intros [|f] rest Hf _; [lia|]. cbn [stringify]. unfold quote.
  expose_text.
  cbn [parseValue skipWhiteSpace]. change (isJsonWhiteSpace dquote) with false.
  cbv zeta. change (code dquote =? 34) with true. cbv iota.
  now rewrite parseChars_escape.
Qed.

Lemma readsBack_number (x : float) :
  isFinite x = true -> jsonNumber (Number_toString x) = Some x ->
  readsBack 1 (JNumber x).
Proof.
  intros Hfin Hx [|f] rest Hf Hr; [lia|]. cbn [stringify]. rewrite Hfin.
  apply parseValue_number; auto using Number_toString_number.
Qed.

Lemma join_cons (p : string) (ps : list string) :
  join (p :: ps) = match ps with [] => p | _ => p ++ "," ++ join ps end.
Proof. reflexivity. Qed.

Lemma parseMembers_join (fv : nat) (ms : list (string * json)) (f : nat) (rest : string) :
  ms <> [] -> Forall (fun kv => readsBack fv (snd kv)) ms ->
  (length ms + fv <= f)%nat ->
  parseMembers f (join (map memberText ms) ++ String "}" rest) = Parsed (ms, rest).
Proof.
  revert f. induction ms as [|[k v] ms IH]; intros f Hne Hall Hf; [congruence|].
  apply Forall_cons in Hall as [Hv Hall]. cbn [snd] in Hv.
  destruct f as [|f]; [cbn in Hf; lia|]. cbn [length] in Hf.
  destruct ms as [|m ms].
  - change (join (map memberText [(k, v)])) with (memberText (k, v)).
    unfold memberText, quote. cbn [fst snd]. expose_text.
    cbn [parseMembers skipWhiteSpace]. change (isJsonWhiteSpace dquote) with false.
    cbv iota. change (code dquote =? 34) with true. cbv iota.
    rewrite parseChars_escape. cbn [skipWhiteSpace].
    change (isJsonWhiteSpace ":") with false. cbv iota.
    change (code ":" =? 58) with true. cbv iota.
    rewrite (Hv f (String "}" rest)) by (reflexivity || lia).
    reflexivity.
  - change (join (map memberText ((k, v) :: m :: ms)))
      with (memberText (k, v) ++ "," ++ join (map memberText (m :: ms))).
    set (tail := join (map memberText (m :: ms))) in *.
    unfold memberText at 1. unfold quote. cbn [fst snd]. expose_text.
    cbn [parseMembers skipWhiteSpace]. change (isJsonWhiteSpace dquote) with false.
    cbv iota. change (code dquote =? 34) with true. cbv iota.
    rewrite parseChars_escape. cbn [skipWhiteSpace].
    change (isJsonWhiteSpace ":") with false. cbv iota.
    change (code ":" =? 58) with true. cbv iota.
    rewrite (Hv f (String "," (tail ++ String "}" rest))) by (reflexivity || lia).
    cbn [skipWhiteSpace]. change (isJsonWhiteSpace ",") with false. cbv iota.
    change (code "," =? 44) with true. cbv iota.
    rewrite IH; [reflexivity|discriminate|assumption|lia].
Qed.

Lemma members_head (ms : list (string * json)) (rest : string) :
  ms <> [] ->
  exists t, join (map memberText ms) ++ rest = String dquote t.
Proof.
  destruct ms as [|[k v] [|m ms]]; [congruence| |]; intros _.
  - change (join (map memberText [(k, v)])) with (memberText (k, v)).
    unfold memberText, quote. cbn [fst snd]. expose_text. eauto.
  - change (join (map memberText ((k, v) :: m :: ms)))
      with (memberText (k, v) ++ "," ++ join (map memberText (m :: ms))).
    unfold memberText at 1. unfold quote. cbn [fst snd]. expose_text. eauto.
Qed.

Lemma stringify_object (ms : list (string * json)) :
  stringify (JObject ms) = String "{" (join (map memberText ms) ++ "}").
Proof. reflexivity. Qed.

Lemma stringify_array (vs : list json) :
  stringify (JArray vs) = String "[" (join (map stringify vs) ++ "]").
Proof. reflexivity. Qed.

Lemma readsBack_object (fv : nat) (ms : list (string * json)) :
  ms <> [] -> Forall (fun kv => readsBack fv (snd kv)) ms ->
  fold_left setProperty ms [] = ms ->
  readsBack (S (length ms + fv)) (JObject ms).
Proof.
  intros Hne Hall Hprops [|f] rest Hf _; [lia|].
  rewrite stringify_object. expose_text.
  destruct (members_head ms (String "}" rest) Hne) as [t Ht].
  cbn [parseValue skipWhiteSpace]. change (isJsonWhiteSpace "{") with false.
  cbv iota zeta. change (code "{" =? 34) with false. change (code "{" =? 91) with false.
  change (code "{" =? 123) with true. cbv iota.
  rewrite Ht at 1. cbn [skipWhiteSpace]. change (isJsonWhiteSpace dquote) with false.
  cbv iota. change (code dquote =? 125) with false. cbv iota.
  rewrite parseMembers_join with (fv := fv) by (assumption || lia).
  now rewrite Hprops.
Qed.

Lemma parseElements_join (fv : nat) (vs : list json) (f : nat) (rest : string) :
  vs <> [] -> Forall (readsBack fv) vs -> (length vs + fv <= f)%nat ->
  parseElements f (join (map stringify vs) ++ String "]" rest) = Parsed (vs, rest).
Proof.
  revert f. induction vs as [|v vs IH]; intros f Hne Hall Hf; [congruence|].
  apply Forall_cons in Hall as [Hv Hall].
  destruct f as [|f]; [cbn in Hf; lia|]. cbn [length] in Hf.
  destruct vs as [|w vs].
  - change (join (map stringify [v])) with (stringify v).
    cbn [parseElements]. rewrite (Hv f (String "]" rest)) by (reflexivity || lia).
    reflexivity.
  - change (join (map stringify (v :: w :: vs)))
      with (stringify v ++ "," ++ join (map stringify (w :: vs))).
    set (tail := join (map stringify (w :: vs))) in *. expose_text.
    cbn [parseElements].
    rewrite (Hv f (String "," (tail ++ String "]" rest))) by (reflexivity || lia).
    cbn [skipWhiteSpace]. change (isJsonWhiteSpace ",") with false. cbv iota.
    change (code "," =? 44) with true. cbv iota.
    rewrite IH; [reflexivity|discriminate|assumption|lia].
Qed.

(** *** Expense records *)

Lemma readsBack_expense (e : Expense) :
  wellFormed e -> readsBack 7 (json_of_Expense e).
Proof.
  intros [Hfin Hnum].
  unfold json_of_Expense.
  match goal with
  | |- readsBack _ (JObject ?ms) => change (readsBack (S (length ms + 1)) (JObject ms))
  end.
  apply readsBack_object; [discriminate| |reflexivity].
  repeat constructor; cbn [snd];
    first [apply readsBack_string | now apply readsBack_number].
Qed.

Lemma expenses_head (e : Expense) (es : list Expense) (rest : string) :
  exists t, join (map stringify (map json_of_Expense (e :: es))) ++ rest = String "{" t.
Proof.
  destruct es as [|e' es]; cbn [map]; rewrite join_cons; cbn [map];
    unfold json_of_Expense at 1; rewrite stringify_object; expose_text; eauto.
Qed.

Lemma length_expenses_text (es : list Expense) :
  (2 * length es <= String.length (join (map stringify (map json_of_Expense es))))%nat.
Proof.
  induction es as [|e [|e' es] IH]; [cbn; lia| |].
  - cbn [map join]. unfold json_of_Expense. rewrite stringify_object. cbn [String.length].
    rewrite length_append. change (String.length "}") with 1%nat. cbn [length]. lia.
  - change (join (map stringify (map json_of_Expense (e :: e' :: es))))
      with (stringify (json_of_Expense e) ++ ","
            ++ join (map stringify (map json_of_Expense (e' :: es)))).
    unfold json_of_Expense at 1. rewrite stringify_object, append_cons.
    cbn [String.length]. rewrite !length_append.
    change (String.length "}") with 1%nat. change (String.length ",") with 1%nat.
    cbn [length] in *. lia.
Qed.

(** JSON.parse reads the text JSON.stringify writes for well-formed
    records back as those records, in their order. *)
Lemma parse_stringify_expenses (es : list Expense) :
  Forall wellFormed es ->
  parse (stringify (JArray (map json_of_Expense es)))
  = Parsed (JArray (map json_of_Expense es)).
Proof.
  intros Hwf. destruct es as [|e es]; [reflexivity|].
  unfold parse. rewrite stringify_array.
  set (body := join (map stringify (map json_of_Expense (e :: es)))).
  assert (Hlen : (2 * length (e :: es) <= String.length body)%nat)
    by apply length_expenses_text.
  cbn [String.length]. rewrite length_append. cbn [length] in Hlen.
  change (String.length "]") with 1%nat.
  replace (2 * S (String.length body + 1) + 2)%nat
    with (S (2 * String.length body + 5)) by lia.
  destruct (expenses_head e es "]") as [t Ht]. fold body in Ht.
  cbn [parseValue skipWhiteSpace]. change (isJsonWhiteSpace "[") with false.
  cbv iota zeta. change (code "[" =? 34) with false. change (code "[" =? 91) with true.
  cbv iota. rewrite Ht at 1. cbn [skipWhiteSpace].
  change (isJsonWhiteSpace "{") with false. cbv iota.
  change (code "{" =? 93) with false. cbv iota.
  unfold body. rewrite parseElements_join with (fv := 7%nat).
  - reflexivity.
  - discriminate.
  - apply Forall_map. eapply List.Forall_impl; [|exact Hwf]. apply readsBack_expense.
  - rewrite length_map. cbn [length]. fold body. lia.
Qed.

End RoundTrip.

(** ** The ids that [handleAdd] makes read as numbers *)

Section TimeStamps.

Import JS.

Lemma digit_facts (c : ascii) :
  isDigit c = true ->
  isWhiteSpace c = false /\ (code c =? 45) = false /\ (code c =? 43) = false
  /\ (code c =? 46) = false /\ radixOfPrefix c = None
  /\ Ascii.eqb "I" c = false.
Proof.
  destruct c as [[] [] [] [] [] [] [] []]; try discriminate; intros _;
    repeat split; reflexivity.
Qed.

Lemma string_of_uint_digits (d : Decimal.uint) :
  allDigits (NilEmpty.string_of_uint d) = true.
Proof. induction d; cbn; auto. Qed.

Lemma scanDigits_all (s : string) (acc n : Z) :
  allDigits s = true ->
  exists v, scanDigits acc n s = (v, n + Z.of_nat (String.length s), "").
Proof.
  revert acc n. induction s as [|c s IH]; intros acc n H; cbn in *.
  - exists acc. f_equal. f_equal. lia.
  - apply andb_true_iff in H as [-> H].
    destruct (IH (10 * acc + digitValue c) (n + 1) H) as [v ->].
    exists v. f_equal. f_equal. lia.
Qed.

Lemma trimEnd_digits (s : string) : allDigits s = true -> trimEnd s = s.
Proof.
  induction s as [|c s IH]; [reflexivity|]. cbn.
  intros [Hc Hs]%andb_true_iff. rewrite (IH Hs).
  destruct (digit_facts c Hc) as (-> & _). now destruct s.
Qed.

(** A digit string, with or without a minus sign in front, reads as a
    number that is not NaN. *)
Lemma Number_digits (neg : bool) (d : ascii) (ds : string) :
  isDigit d = true -> allDigits ds = true ->
  is_nan (Number (signed neg (String d ds))) = false.
Proof.
  intros Hd Hds. destruct (digit_facts d Hd) as (Hw & H45 & H43 & H46 & Hrad & HI).
  assert (Hall : allDigits (String d ds) = true) by (cbn; now rewrite Hd, Hds).
  destruct (scanDigits_all (String d ds) 0 0 Hall) as [v Hv].
  assert (Hlen : (0 + Z.of_nat (String.length (String d ds)) =? 0) = false)
    by (apply Z.eqb_neq; cbn [String.length]; lia).
  assert (Hscan : scanDecimalLiteral (signed neg (String d ds))
                  = Some (LitDecimal neg v 0, "")).
  { unfold scanDecimalLiteral.
    assert (scanSign (signed neg (String d ds)) = (neg, String d ds)) as ->.
    { destruct neg; [reflexivity|]. cbn. now rewrite H45, H43. }
    cbn [dropPrefix]. rewrite HI. unfold scanUnsigned. rewrite Hv, Hlen. reflexivity. }
  assert (Htrim : trim (signed neg (String d ds)) = signed neg (String d ds)).
  { unfold trim. destruct neg; cbn [signed trimStart].
    - change (isWhiteSpace "-") with false. cbv iota.
      change (trimEnd (String "-" (String d ds)))
        with (match trimEnd (String d ds) with
              | EmptyString => if isWhiteSpace "-" then "" else String "-" ""
              | t => String "-" t
              end).
      now rewrite (trimEnd_digits _ Hall).
    - rewrite Hw. now apply trimEnd_digits. }
  unfold Number. rewrite Htrim.
  assert (Hval : is_nan (match scanDecimalLiteral (signed neg (String d ds)) with
                         | Some (l, EmptyString) => literalValue l
                         | _ => PrimFloat.nan
                         end) = false).
  { rewrite Hscan. cbn [literalValue]. apply of_decimal_integer_not_nan. }
  destruct neg; cbn [signed] in *.
  - destruct ds as [|c2 r]; [exact Hval|].
    change (code "-" =? 48) with false. cbv iota. exact Hval.
  - destruct ds as [|c1 [|c2 r]]; try exact Hval.
    cbn in Hds. apply andb_true_iff in Hds as [Hc1 _].
    destruct (digit_facts c1 Hc1) as (_ & _ & _ & _ & -> & _).
    destruct (code d =? 48); exact Hval.
Qed.

Lemma String_of_int_numeric (t : Z) : is_nan (Number (String_of_int t)) = false.
Proof.
  unfold String_of_int.
  assert (Hu : forall u, exists d ds, NilZero.string_of_uint u = String d ds
                                      /\ isDigit d = true /\ allDigits ds = true).
  { intros u. pose proof (string_of_uint_digits u) as H.
    destruct u; cbn in *; eauto 10. }
  destruct (Z.to_int t) as [u|u]; cbn [NilZero.string_of_int];
    destruct (Hu u) as (d & ds & -> & Hd & Hds).
  - exact (Number_digits false d ds Hd Hds).
  - exact (Number_digits true d ds Hd Hds).
Qed.

End TimeStamps.

(** ** The sign of a rounded amount *)

Section Signs.

Lemma shr_fexp_nonneg (m e : Z) (l : location) :
  0 <= m -> 0 <= shr_m (fst (shr_fexp prec emax m e l)).
Proof.
  intros Hm. unfold shr_fexp, shr.
  destruct (fexp prec emax (Zdigits2 m + e) - e) as [|n|n]; cbn [fst];
    rewrite ?shr_iter_m, ?shr_record_of_loc_m; rewrite ?shr_record_of_loc_m; try assumption.
  apply Z.div_pos; lia.
Qed.

(** Rounding keeps the sign, whatever is rounded. *)
Lemma binary_round_aux_sign (s : bool) (m e : Z) (l : location) :
  0 <= m -> signed_number s (binary_round_aux prec emax s m e l).
Proof.
  intros Hm. unfold binary_round_aux.
  pose proof (shr_fexp_nonneg m e l Hm) as H1.
  destruct (shr_fexp prec emax m e l) as [r1 e1]. cbn [fst] in H1.
  pose proof (round_nearest_even_ge (shr_m r1) (loc_of_shr_record r1)) as Hr.
  pose proof (shr_fexp_nonneg (round_nearest_even (shr_m r1) (loc_of_shr_record r1)) e1
                loc_Exact ltac:(lia)) as H2.
  destruct (shr_fexp prec emax _ e1 loc_Exact) as [r2 e2]. cbn [fst] in H2.
  destruct (shr_m r2) as [|q|q]; [reflexivity| |lia].
  destruct (e2 <=? emax - prec); reflexivity.
Qed.

Lemma signed_number_leb (x : float) :
  signed_number false (Prim2SF x) -> (0 <=? x)%float = true.
Proof.
  rewrite leb_spec, Prim2SF_zero.
  destruct (Prim2SF x) as [s|s| |s m e]; cbn; intros H; subst; try reflexivity.
  destruct H.
Qed.

Lemma positive_finite (p : float) :
  JS.isFinite p = true -> (0 <? p)%float = true ->
  exists m e, Prim2SF p = S754_finite false m e.
Proof.
  intros Hfin Hpos. rewrite ltb_spec, Prim2SF_zero in Hpos.
  destruct (Prim2SF p) as [s|s| |s m e] eqn:E; try destruct s; try discriminate Hpos.
  - exfalso. rewrite <- (SF2Prim_Prim2SF p), E in Hfin. discriminate Hfin.
  - eauto.
Qed.

Lemma Math_round_sign (x : float) :
  signed_number false (Prim2SF x) -> signed_number false (Prim2SF (JS.Math_round x)).
Proof.
  intros H. unfold JS.Math_round.
  destruct (Prim2SF x) as [s|s| |s m [|e|k]] eqn:E; try (rewrite E; exact H).
  cbn in H. subst s.
  set (r := (2 * Zpos m + 2 ^ Zpos k) / 2 ^ (Zpos k + 1)).
  assert (Hr : 0 <= r).
  { apply Z.div_pos; [|apply Z.pow_pos_nonneg; lia].
    assert (0 < 2 ^ Zpos k) by (apply Z.pow_pos_nonneg; lia). lia. }
  destruct (Z.eqb_spec r 0); [reflexivity|].
  unfold JS.of_Z. destruct (binary_normalize_valid r 0 false) as [Hv _];
    [change (SpecFloat.emin prec emax) with (-1074); lia|].
  rewrite Prim2SF_SF2Prim by assumption.
  destruct r as [|q|q]; try lia. cbn [binary_normalize].
  pose proof (binary_round_nonzero false q 0) as Hs.
  destruct (binary_round prec emax false q 0); cbn in Hs |- *;
    try (apply Hs; change (SpecFloat.emin prec emax) with (-1074); lia);
    exfalso; apply Hs; change (SpecFloat.emin prec emax) with (-1074); lia.
Qed.

Lemma rounded_amount_sign (p : float) :
  JS.isFinite p = true -> (0 <? p)%float = true ->
  signed_number false (Prim2SF (JS.Math_round (p * 100) / 100)).
Proof.
  intros Hfin Hpos. destruct (positive_finite p Hfin Hpos) as (m & e & E).
  assert (E100 : Prim2SF 100 = S754_finite false 7036874417766400 (-46)) by reflexivity.
  assert (H1 : signed_number false (Prim2SF (p * 100))).
  { rewrite mul_spec, E, E100. cbn [SF64mul SFmul xorb].
    apply binary_round_aux_sign. lia. }
  apply Math_round_sign in H1. rewrite div_spec, E100.
  destruct (Prim2SF (JS.Math_round (p * 100))) as [s|s| |s m1 e1]; cbn in H1; subst;
    try destruct H1; try reflexivity.
  unfold SF64div, SFdiv, SFdiv_core_binary.
  set (m' := match _ - _ - _ with Z0 => _ | Zpos _ => _ | Zneg _ => _ end).
  assert (Hm' : 0 <= m').
  { subst m'. destruct (_ - _ - _); try lia. apply Z.shiftl_nonneg. lia. }
  pose proof (Z.div_pos m' 7036874417766400 Hm' ltac:(lia)) as Hq.
  unfold Z.div in Hq. destruct (Z.div_eucl m' 7036874417766400) as [q r].
  cbn [xorb fst] in *. now apply binary_round_aux_sign.
Qed.

Lemma add_sign (x y : float) :
  signed_number false (Prim2SF x) -> signed_number false (Prim2SF y) ->
  signed_number false (Prim2SF (x + y)).
Proof.
  intros Hx Hy. rewrite add_spec. unfold SF64add.
  destruct (Prim2SF x) as [sx|sx| |sx mx ex], (Prim2SF y) as [sy|sy| |sy my ey];
    cbn in Hx, Hy; subst; try contradiction; try reflexivity.
  cbn [SFadd cond_Zopp]. unfold binary_normalize.
  change (Z.pos ?a + Z.pos ?b) with (Z.pos (a + b)). unfold binary_round.
  destruct (shl_align _ _ _) as [mz ez]. now apply binary_round_aux_sign.
Qed.

End Signs.

(** ** Whole numbers that binary64 holds exactly *)

Section ExactIntegers.

Import JS.

Lemma binary_round_aux_exact (s : bool) (m : positive) (e : Z) :
  canonical_mantissa prec emax m e = true -> e <= emax - prec ->
  binary_round_aux prec emax s (Zpos m) e loc_Exact = S754_finite s m e.
Proof.
  intros Hc He. unfold canonical_mantissa in Hc. apply Z.eqb_eq in Hc.
  assert (Hs : shr_fexp prec emax (Zpos m) e loc_Exact
               = (shr_record_of_loc (Zpos m) loc_Exact, e)).
  { unfold shr_fexp, shr. cbn [Zdigits2]. rewrite Hc, Z.sub_diag. reflexivity. }
  unfold binary_round_aux. rewrite Hs. cbn [shr_record_of_loc shr_m loc_of_shr_record round_nearest_even].
  rewrite Hs. cbn [shr_record_of_loc shr_m].
  apply Z.leb_le in He. now rewrite He.
Qed.

Lemma binary_round_exact (s : bool) (p : positive) :
  Zpos p < 2 ^ 53 ->
  exists m e, binary_round prec emax s p 0 = S754_finite s m e
    /\ bounded prec emax m e = true
    /\ Zpos m * 2 ^ (e + 1074) = Zpos p * 2 ^ 1074
    /\ Zpos m = Zpos p * 2 ^ (53 - Zpos (digits2_pos p))
    /\ e = Zpos (digits2_pos p) - 53.
Proof.
  intros Hp. pose proof (digits2_bounds p) as [Hlo _].
  set (d := Zpos (digits2_pos p)) in *.
  assert (Hd : 0 < d <= 53).
  { split; [subst d; lia|]. destruct (Z.le_gt_cases d 53) as [|Hgt]; [assumption|].
    assert (2 ^ 53 <= 2 ^ (d - 1)) by (apply Z.pow_le_mono_r; lia). lia. }
  unfold binary_round. fold d.
  assert (Hf : fexp prec emax (d + 0) = d - 53) by (rewrite fexp64_eq; lia).
  rewrite Hf. unfold shl_align.
  destruct (d - 53 - 0) as [|k|k] eqn:Ek; try lia.
  - exists p, 0. assert (Hcan : canonical_mantissa prec emax p 0 = true).
    { unfold canonical_mantissa. fold d. apply Z.eqb_eq. rewrite fexp64_eq. lia. }
    split; [apply binary_round_aux_exact; [assumption|change (emax - prec) with 971; lia]|].
    split; [unfold bounded; rewrite Hcan; reflexivity|]. split; [reflexivity|].
    fold d. replace (53 - d) with 0 by lia. split; lia.
  - exists (Pos.iter xO p k), (d - 53).
    assert (Hcan : canonical_mantissa prec emax (Pos.iter xO p k) (d - 53) = true).
    { unfold canonical_mantissa. rewrite digits2_iter_xO. fold d.
      apply Z.eqb_eq. rewrite fexp64_eq. lia. }
    split; [apply binary_round_aux_exact; [assumption|change (emax - prec) with 971; lia]|].
    split.
    + unfold bounded. rewrite Hcan. cbn [andb]. apply Z.leb_le. change (emax - prec) with 971. lia.
    + split.
      * rewrite iter_xO_pow. rewrite <- Z.mul_assoc, <- Z.pow_add_r by lia.
        f_equal. f_equal. lia.
      * fold d. rewrite iter_xO_pow. split; [|reflexivity]. do 2 f_equal. lia.
Qed.

Lemma rank_of_Z (z : Z) : Z.abs z < 2 ^ 53 -> rank (of_Z z) = z * 2 ^ 1074.
Proof.
  intros Hz. unfold rank, of_Z.
  destruct (binary_normalize_valid z 0 false) as [Hv _];
    [change (SpecFloat.emin prec emax) with (-1074); lia|].
  rewrite Prim2SF_SF2Prim by assumption.
  destruct z as [|p|p]; cbn [binary_normalize]; [reflexivity| |].
  - destruct (binary_round_exact false p) as (m & e & -> & _ & E & _); [lia|].
    cbn [SFrank cond_Zopp]. exact E.
  - destruct (binary_round_exact true p) as (m & e & -> & _ & E & _); [lia|].
    cbn [SFrank cond_Zopp]. rewrite E. lia.
Qed.

End ExactIntegers.

(** ** Rounding to nearest *)

Section Nearest.

Import JS.









End Nearest.

(** ** Amounts in cents *)

Section CentsOps.

Import JS.








End CentsOps.

Section CentsAmount.

Import JS.






End CentsAmount.

(** ** Digit strings *)

Section DigitStrings.

Import JS JSON.

Lemma append_nil_r (s : string) : s ++ "" = s.
Proof. induction s as [|c s IH]; [reflexivity|]. now rewrite append_cons, IH. Qed.

Lemma scanDigits_app (ds rest : string) (acc n : Z) :
  allDigits ds = true -> startsWithDigit rest = false ->
  scanDigits acc n (ds ++ rest)
  = (digitsValue acc ds, n + Z.of_nat (String.length ds), rest).
Proof.
  revert acc n. induction ds as [|c ds IH]; intros acc n Hds Hrest.
  - rewrite append_nil_l. cbn [digitsValue String.length Z.of_nat]. rewrite Z.add_0_r.
    destruct rest as [|c r]; [reflexivity|]. cbn in Hrest |- *. now rewrite Hrest.
  - cbn in Hds. apply andb_true_iff in Hds as [Hc Hds].
    rewrite append_cons. cbn [scanDigits digitsValue String.length]. rewrite Hc.
    rewrite (IH _ _ Hds Hrest). f_equal. f_equal. lia.
Qed.

Lemma scanDigits_digits (ds : string) (acc n : Z) :
  allDigits ds = true ->
  scanDigits acc n ds = (digitsValue acc ds, n + Z.of_nat (String.length ds), "").
Proof.
  intros H. rewrite <- (append_nil_r ds) at 1. now apply scanDigits_app.
Qed.

Lemma digitsValue_app (a b : string) (acc : Z) :
  digitsValue acc (a ++ b) = digitsValue (digitsValue acc a) b.
Proof.
  revert acc. induction a as [|c a IH]; intros acc; [now rewrite append_nil_l|].
  rewrite append_cons. cbn [digitsValue]. apply IH.
Qed.

Lemma allDigits_app (a b : string) :
  allDigits (a ++ b) = allDigits a && allDigits b.
Proof.
  induction a as [|c a IH]; [now rewrite append_nil_l|].
  rewrite append_cons. cbn [allDigits]. now rewrite IH, andb_assoc.
Qed.

Lemma digitChar_facts (d : Z) :
  0 <= d < 10 ->
  isDigit (digitChar d) = true /\ digitValue (digitChar d) = d
  /\ ((code (digitChar d) =? 48) = (d =? 0)).
Proof.
  intros H.
  assert (Hd : d = 0 \/ d = 1 \/ d = 2 \/ d = 3 \/ d = 4 \/ d = 5 \/ d = 6 \/ d = 7
               \/ d = 8 \/ d = 9) by lia.
  repeat destruct Hd as [->|Hd]; try subst d; repeat split; reflexivity.
Qed.

(** The digits of a number with [k] decimal digits. *)
Lemma digitsOf_spec (fuel : nat) :
  forall (z k : Z) (acc : string),
    1 <= k <= Z.of_nat fuel -> 10 ^ (k - 1) <= z < 10 ^ k ->
    exists d r,
      digitsOf fuel z acc = String d r ++ acc
      /\ isDigit d = true /\ (code d =? 48) = false /\ allDigits r = true
      /\ Z.of_nat (String.length (String d r)) = k
      /\ forall a, digitsValue a (String d r) = a * 10 ^ k + z.
Proof.
  induction fuel as [|fuel IH]; intros z k acc Hk Hz; [lia|].
  cbn [digitsOf].
  assert (H0 : 0 < z).
  { assert (0 < 10 ^ (k - 1)) by (apply Z.pow_pos_nonneg; lia). lia. }
  pose proof (Z.div_mod z 10 ltac:(lia)) as Hdm.
  pose proof (Z.mod_pos_bound z 10 ltac:(lia)) as Hm.
  destruct (digitChar_facts (z mod 10) Hm) as (Hd & Hv & H48).
  destruct (Z.ltb_spec z 10) as [Hlt|Hge].
  - assert (k = 1).
    { destruct (Z.eq_dec k 1) as [|Hne]; [assumption|].
      assert (10 ^ 1 <= 10 ^ (k - 1)) by (apply Z.pow_le_mono_r; lia).
      change (10 ^ 1) with 10 in *. lia. }
    subst k. rewrite Z.mod_small in * by lia.
    exists (digitChar z), "". rewrite append_cons, append_nil_l.
    split; [reflexivity|]. split; [exact Hd|]. split.
    + rewrite H48. apply Z.eqb_neq. lia.
    + split; [reflexivity|]. split; [reflexivity|].
      intros a. cbn [digitsValue]. rewrite Hv. change (10 ^ 1) with 10. lia.
  - assert (Hk2 : 2 <= k).
    { destruct (Z.le_gt_cases 2 k) as [|Hlt]; [assumption|].
      replace k with 1 in Hz by lia. change (10 ^ 1) with 10 in Hz. lia. }
    assert (Hp : 10 ^ k = 10 * 10 ^ (k - 1)).
    { rewrite <- Z.pow_succ_r by lia. f_equal. lia. }
    assert (Hp' : 10 ^ (k - 1) = 10 * 10 ^ (k - 1 - 1)).
    { rewrite <- Z.pow_succ_r by lia. f_equal. lia. }
    destruct (IH (z / 10) (k - 1) (String (digitChar (z mod 10)) acc))
      as (d & r & E & Hd' & H48' & Hr & Hlen & Hval).
    + lia.
    + split.
      * apply Z.div_le_lower_bound; lia.
      * apply Z.div_lt_upper_bound; lia.
    + exists d, (r ++ String (digitChar (z mod 10)) "").
      rewrite E. split.
      { rewrite !append_cons. f_equal. rewrite append_assoc. reflexivity. }
      split; [exact Hd'|]. split; [exact H48'|]. split.
      { rewrite allDigits_app, Hr. cbn. now rewrite Hd. }
      split.
      { cbn [String.length] in Hlen |- *. rewrite length_append. cbn [String.length]. lia. }
      intros a. change (String d (r ++ String (digitChar (z mod 10)) ""))
        with (String d r ++ String (digitChar (z mod 10)) "").
      rewrite digitsValue_app, Hval. cbn [digitsValue]. rewrite Hv, Hp. lia.
Qed.

Lemma decimal_spec (z k : Z) :
  1 <= k -> 10 ^ (k - 1) <= z < 10 ^ k ->
  exists d r,
    decimal z = String d r
    /\ isDigit d = true /\ (code d =? 48) = false /\ allDigits r = true
    /\ Z.of_nat (String.length (String d r)) = k
    /\ forall a, digitsValue a (String d r) = a * 10 ^ k + z.
Proof.
  intros Hk Hz. unfold decimal.
  destruct (digitsOf_spec (Z.to_nat (Z.log2 z) + 1) z k "") as (d & r & E & H).
  - split; [lia|].
    assert (2 ^ (k - 1) <= z).
    { eapply Z.le_trans; [|apply Hz]. apply Z.pow_le_mono_l. lia. }
    assert (k - 1 <= Z.log2 z).
    { apply Z.log2_le_pow2; [|assumption].
      assert (0 < 2 ^ (k - 1)) by (apply Z.pow_pos_nonneg; lia). lia. }
    lia.
  - exact Hz.
  - exists d, r. rewrite E, append_nil_r. auto.
Qed.

Lemma zeros_spec (n : nat) :
  allDigits (zeros n) = true /\ String.length (zeros n) = n
  /\ forall a, digitsValue a (zeros n) = a * 10 ^ Z.of_nat n.
Proof.
  induction n as [|n (H1 & H2 & H3)]; cbn [zeros].
  - repeat split. intros a. cbn. lia.
  - split; [cbn; exact H1|]. split; [cbn; now rewrite H2|].
    intros a. cbn [digitsValue]. rewrite H3.
    change (digitValue "0") with 0. rewrite Nat2Z.inj_succ, Z.pow_succ_r by lia. lia.
Qed.

Lemma take_drop (n : nat) (s : string) : takeChars n s ++ dropChars n s = s.
Proof.
  revert s. induction n as [|n IH]; intros s; [destruct s; reflexivity|].
  destruct s as [|c s]; [reflexivity|]. cbn [takeChars dropChars].
  rewrite append_cons. now rewrite IH.
Qed.

Lemma takeChars_digits (n : nat) (s : string) :
  allDigits s = true -> allDigits (takeChars n s) = true.
Proof.
  revert s. induction n as [|n IH]; intros s H; [destruct s; reflexivity|].
  destruct s as [|c s]; [reflexivity|]. cbn in H |- *.
  apply andb_true_iff in H as [-> H]. now apply IH.
Qed.

Lemma dropChars_digits (n : nat) (s : string) :
  allDigits s = true -> allDigits (dropChars n s) = true.
Proof.
  revert s. induction n as [|n IH]; intros s H; [destruct s; assumption|].
  destruct s as [|c s]; [reflexivity|]. cbn in H |- *.
  apply andb_true_iff in H as [_ H]. now apply IH.
Qed.

Lemma takeChars_length (n : nat) (s : string) :
  (n <= String.length s)%nat -> String.length (takeChars n s) = n.
Proof.
  revert s. induction n as [|n IH]; intros s H; [destruct s; reflexivity|].
  destruct s as [|c s]; cbn in H |- *; [lia|]. rewrite IH; lia.
Qed.

End DigitStrings.

(** ** The text of a decimal reads back *)

Section FormatParse.

Import JS JSON.

(** A digit string that starts a token. *)
Lemma scanSign_digit (d : ascii) (r : string) :
  isDigit d = true -> scanSign (String d r) = (false, String d r).
Proof.
  intros Hd. destruct (digit_facts d Hd) as (_ & H45 & H43 & _).
  cbn. now rewrite H45, H43.
Qed.

Lemma dropPrefix_digit (d : ascii) (r : string) :
  isDigit d = true -> dropPrefix "Infinity" (String d r) = None.
Proof.
  intros Hd. destruct (digit_facts d Hd) as (_ & _ & _ & _ & _ & HI).
  cbn [dropPrefix]. now rewrite HI.
Qed.

Lemma of_decimal_scaled (s j : Z) :
  0 < s -> 0 <= j -> of_decimal false (s * 10 ^ j) 0 = of_decimal false s j.
Proof.
  intros Hs Hj. assert (0 < 10 ^ j) by (apply Z.pow_pos_nonneg; lia).
  unfold of_decimal. destruct s as [|p|p]; try lia.
  destruct (Z.pos p * 10 ^ j) as [|q|q] eqn:E; try nia.
  change (10 ^ 0) with 1. rewrite Z.mul_1_r, <- E.
  destruct j as [|j|j]; try lia; reflexivity.
Qed.

(** Whole numbers: the digits, then zeros. *)
Lemma jsonNumber_whole (s k n : Z) :
  1 <= k -> 10 ^ (k - 1) <= s < 10 ^ k -> k <= n ->
  jsonNumber (decimal s ++ zeros (Z.to_nat (n - k))) = Some (of_decimal false s (n - k)).
Proof.
  intros Hk Hs Hn.
  destruct (decimal_spec s k Hk Hs) as (d & r & -> & Hd & H48 & Hr & Hlen & Hval).
  destruct (zeros_spec (Z.to_nat (n - k))) as (Hz1 & Hz2 & Hz3).
  assert (Hall : allDigits (String d r ++ zeros (Z.to_nat (n - k))) = true).
  { rewrite allDigits_app, Hz1. cbn. now rewrite Hd, Hr. }
  assert (Hv : digitsValue 0 (String d r ++ zeros (Z.to_nat (n - k))) = s * 10 ^ (n - k)).
  { rewrite digitsValue_app, Hz3, Hval, Z2Nat.id by lia. lia. }
  pose proof (scanDigits_digits _ 0 0 Hall) as Hscan. rewrite Hv in Hscan.
  rewrite append_cons in *.
  destruct (digit_facts d Hd) as (_ & H45 & _).
  unfold jsonNumber.
  assert (Hvalid : validNumber (String d (r ++ zeros (Z.to_nat (n - k)))) = true).
  { unfold validNumber. rewrite H45, Hd, Hscan, H48. cbn [negb andb orb].
    now rewrite orb_true_r. }
  rewrite Hvalid. unfold scanDecimalLiteral.
  rewrite (scanSign_digit _ _ Hd), (dropPrefix_digit _ _ Hd).
  unfold scanUnsigned. rewrite Hscan.
  assert (Hni : (0 + Z.of_nat (String.length (String d (r ++ zeros (Z.to_nat (n - k))))) =? 0)
                = false) by (apply Z.eqb_neq; cbn [String.length]; lia).
  rewrite Hni. cbn [literalValue]. f_equal.
  assert (0 < s) by (assert (0 < 10 ^ (k - 1)) by (apply Z.pow_pos_nonneg; lia); lia).
  apply of_decimal_scaled; lia.
Qed.

(** Numbers with a point among their digits. *)
Lemma jsonNumber_point (s k n : Z) :
  10 ^ (k - 1) <= s < 10 ^ k -> 0 < n < k ->
  jsonNumber (takeChars (Z.to_nat n) (decimal s) ++ "." ++ dropChars (Z.to_nat n) (decimal s))
  = Some (of_decimal false s (n - k)).
Proof.
  intros Hs Hn.
  destruct (decimal_spec s k ltac:(lia) Hs) as (d & r & E & Hd & H48 & Hr & Hlen & Hval).
  rewrite E.
  assert (Hds : allDigits (String d r) = true) by (cbn; now rewrite Hd, Hr).
  set (T := takeChars (Z.to_nat n) (String d r)).
  set (D := dropChars (Z.to_nat n) (String d r)).
  assert (HT : allDigits T = true) by now apply takeChars_digits.
  assert (HD : allDigits D = true) by now apply dropChars_digits.
  assert (HlT : Z.of_nat (String.length T) = n).
  { subst T. rewrite takeChars_length; lia. }
  assert (HlD : Z.of_nat (String.length D) = k - n).
  { pose proof (f_equal String.length (take_drop (Z.to_nat n) (String d r))) as Hl.
    fold T D in Hl. rewrite length_append in Hl. lia. }
  assert (HTD : digitsValue (digitsValue 0 T) D = s).
  { rewrite <- digitsValue_app. subst T D. rewrite take_drop, Hval. lia. }
  assert (ET : exists t, T = String d t).
  { subst T. destruct (Z.to_nat n) as [|n'] eqn:En; [lia|]. cbn. eauto. }
  destruct ET as [t ET].
  pose proof (scanDigits_app T (String "." D) 0 0 HT eq_refl) as Hscan.
  pose proof (scanDigits_digits D 0 0 HD) as HscanD0.
  pose proof (scanDigits_digits D (digitsValue 0 T) 0 HD) as HscanD.
  change ("." ++ D) with (String "." D).
  rewrite ET in Hscan |- *. rewrite append_cons in *.
  destruct (digit_facts d Hd) as (_ & H45 & _).
  unfold jsonNumber.
  assert (Hnf : (0 + Z.of_nat (String.length D) =? 0) = false) by (apply Z.eqb_neq; lia).
  assert (Hvalid : validNumber (String d (t ++ String "." D)) = true).
  { unfold validNumber. rewrite H45, Hd, Hscan, H48.
    change (code "." =? 46) with true. cbv iota. rewrite HscanD0, Hnf.
    cbn [negb andb orb]. now rewrite orb_true_r. }
  rewrite Hvalid. unfold scanDecimalLiteral.
  rewrite (scanSign_digit _ _ Hd), (dropPrefix_digit _ _ Hd).
  unfold scanUnsigned. rewrite Hscan.
  change (code "." =? 46) with true. cbv iota. rewrite <- ET, HscanD, Hnf, andb_false_r.
  cbn [scanExponent literalValue]. rewrite HTD. do 2 f_equal. lia.
Qed.

(** Numbers below one: a zero, the point, zeros and the digits. *)
Lemma jsonNumber_fraction (s k n : Z) :
  1 <= k -> 10 ^ (k - 1) <= s < 10 ^ k -> n <= 0 ->
  jsonNumber ("0." ++ zeros (Z.to_nat (- n)) ++ decimal s)
  = Some (of_decimal false s (n - k)).
Proof.
  intros Hk Hs Hn.
  destruct (decimal_spec s k Hk Hs) as (d & r & E & Hd & H48 & Hr & Hlen & Hval).
  rewrite E.
  assert (Hds : allDigits (String d r) = true) by (cbn; now rewrite Hd, Hr).
  destruct (zeros_spec (Z.to_nat (- n))) as (Hz1 & Hz2 & Hz3).
  set (F := zeros (Z.to_nat (- n)) ++ String d r).
  assert (HF : allDigits F = true) by (subst F; now rewrite allDigits_app, Hz1, Hds).
  assert (HlF : Z.of_nat (String.length F) = - n + k).
  { subst F. rewrite length_append, Hz2. lia. }
  assert (HvF : digitsValue 0 F = s).
  { subst F. rewrite digitsValue_app, Hz3, Hval. lia. }
  pose proof (scanDigits_digits F 0 0 HF) as HscanF. rewrite HvF in HscanF.
  change ("0." ++ F) with (String "0" (String "." F)).
  assert (Hnf : (0 + Z.of_nat (String.length F) =? 0) = false) by (apply Z.eqb_neq; lia).
  assert (H0 : scanDigits 0 0 (String "0" (String "." F)) = (0, 1, String "." F))
    by reflexivity.
  unfold jsonNumber.
  assert (Hvalid : validNumber (String "0" (String "." F)) = true).
  { unfold validNumber. change (code "0" =? 45) with false. cbv iota.
    rewrite H0. change (isDigit "0") with true. change (1 =? 1) with true.
    change (code "." =? 46) with true. cbv iota. rewrite HscanF, Hnf. reflexivity. }
  rewrite Hvalid. unfold scanDecimalLiteral.
  rewrite (scanSign_digit "0" _ eq_refl), (dropPrefix_digit "0" _ eq_refl).
  unfold scanUnsigned. rewrite H0.
  change (code "." =? 46) with true. cbv iota. rewrite HscanF, Hnf, andb_false_r.
  cbn [scanExponent literalValue]. do 2 f_equal. lia.
Qed.

(** The text of [s * 10^(n - k)], for [s] of [k] digits, reads back as that
    number. *)
Lemma jsonNumber_formatDecimal (s k n : Z) :
  1 <= k -> 10 ^ (k - 1) <= s < 10 ^ k -> -6 < n <= 21 ->
  jsonNumber (formatDecimal s k n) = Some (of_decimal false s (n - k)).
Proof.
  intros Hk Hs Hn. unfold formatDecimal.
  destruct (Z.leb_spec k n) as [H1|H1];
    destruct (Z.leb_spec n 21) as [H2|H2]; try lia; cbn [andb].
  - now apply jsonNumber_whole.
  - destruct (Z.ltb_spec 0 n) as [H3|H3]; cbn [andb].
    + apply jsonNumber_point; [assumption|lia].
    + destruct (Z.ltb_spec (-6) n) as [H4|H4]; try lia.
      destruct (Z.leb_spec n 0) as [H5|H5]; try lia. cbn [andb].
      now apply jsonNumber_fraction.
Qed.

End FormatParse.

(** ** The shortest digits of a number *)

Section ShortestDigits.

Import JS JSON.

Lemma forallZ_spec (len : nat) (lo : Z) (f : Z -> bool) :
  forallZ lo len f = true -> forall z, lo <= z < lo + Z.of_nat len -> f z = true.
Proof.
  revert lo. induction len as [|len IH]; intros lo H z Hz; [lia|].
  cbn [forallZ] in H. apply andb_true_iff in H as [H0 H].
  destruct (Z.eq_dec z lo) as [->|Hne]; [exact H0|].
  apply (IH (lo + 1) H). lia.
Qed.

Lemma magnitude_least (fuel : nat) (num den n0 n1 : Z) :
  n0 <= n1 < n0 + Z.of_nat fuel -> below10 num den n1 = true ->
  n0 <= magnitude fuel num den n0 <= n1
  /\ below10 num den (magnitude fuel num den n0) = true
  /\ forall j, n0 <= j < magnitude fuel num den n0 -> below10 num den j = false.
Proof.
  revert n0. induction fuel as [|fuel IH]; intros n0 Hn Hb; [lia|].
  cbn [magnitude]. fold (below10 num den n0).
  destruct (below10 num den n0) eqn:E.
  - split; [lia|]. split; [exact E|]. intros j Hj. lia.
  - assert (n0 <> n1) by congruence.
    destruct (IH (n0 + 1) ltac:(lia) Hb) as (H1 & H2 & H3).
    split; [lia|]. split; [exact H2|]. intros j Hj.
    destruct (Z.eq_dec j n0) as [->|]; [exact E|]. apply H3. lia.
Qed.

Lemma below10_shift (num den n U : Z) :
  0 <= U -> 0 <= n + U ->
  (below10 num den n = true <-> num * 10 ^ U < den * 10 ^ (n + U)).
Proof.
  intros HU HnU. unfold below10.
  assert (HX : 0 < 10 ^ U) by (apply Z.pow_pos_nonneg; lia).
  destruct (Z.leb_spec 0 n) as [Hn|Hn].
  - rewrite Z.ltb_lt, Z.pow_add_r by lia.
    assert (0 < 10 ^ n) by (apply Z.pow_pos_nonneg; lia). nia.
  - rewrite Z.ltb_lt. replace U with (- n + (n + U)) at 1 by lia.
    rewrite Z.pow_add_r by lia.
    assert (0 < 10 ^ (n + U)) by (apply Z.pow_pos_nonneg; lia).
    assert (0 < 10 ^ (- n)) by (apply Z.pow_pos_nonneg; lia). nia.
Qed.

Lemma scale10_shift (num den j U : Z) :
  0 < den -> 0 <= U -> 0 <= j + U ->
  0 < snd (scale10 num den j)
  /\ fst (scale10 num den j) * den * 10 ^ U = num * snd (scale10 num den j) * 10 ^ (j + U).
Proof.
  intros Hden HU HjU. unfold scale10.
  destruct (Z.leb_spec 0 j) as [Hj|Hj]; cbn [fst snd].
  - split; [assumption|]. rewrite (Z.pow_add_r 10 j U) by lia. ring.
  - assert (0 < 10 ^ (- j)) by (apply Z.pow_pos_nonneg; lia).
    split; [nia|]. replace U with (- j + (j + U)) at 1 by lia.
    rewrite Z.pow_add_r by lia. ring.
Qed.

(** Scaled to [k] digits, a number of magnitude [n] lies between
    [10^(k-1)] and [10^k]. *)
Lemma scale10_range (num den n k : Z) :
  0 < den -> 1 <= k -> -400 <= n <= 400 -> k <= 400 ->
  below10 num den n = true -> below10 num den (n - 1) = false ->
  10 ^ (k - 1) <= fst (scale10 num den (k - n)) / snd (scale10 num den (k - n)) < 10 ^ k.
Proof.
  intros Hden Hk Hn Hk' Hlt Hge.
  destruct (scale10_shift num den (k - n) 1000 Hden ltac:(lia) ltac:(lia)) as [Hb Hab].
  apply (below10_shift num den n 1000) in Hlt; [|lia|lia].
  assert (Hge' : ~ num * 10 ^ 1000 < den * 10 ^ (n - 1 + 1000)).
  { intros H. apply (below10_shift num den (n - 1) 1000) in H; [congruence|lia|lia]. }
  set (a := fst (scale10 num den (k - n))) in *.
  set (b := snd (scale10 num den (k - n))) in *.
  assert (HX : 0 < 10 ^ 1000) by (apply Z.pow_pos_nonneg; lia).
  assert (HY : 0 < 10 ^ (k - n + 1000)) by (apply Z.pow_pos_nonneg; lia).
  assert (E1 : 10 ^ (n + 1000) * 10 ^ (k - n + 1000) = 10 ^ k * (10 ^ 1000 * 10 ^ 1000)).
  { rewrite <- !Z.pow_add_r by lia. f_equal. lia. }
  assert (E0 : 10 ^ (n - 1 + 1000) * 10 ^ (k - n + 1000)
               = 10 ^ (k - 1) * (10 ^ 1000 * 10 ^ 1000)).
  { rewrite <- !Z.pow_add_r by lia. f_equal. lia. }
  revert Hlt Hge' Hab HX HY E1 E0.
  generalize (10 ^ 1000) (10 ^ (k - n + 1000)) (10 ^ (n + 1000)) (10 ^ (n - 1 + 1000))
             (10 ^ k) (10 ^ (k - 1)).
  intros X Y Z1 Z0 K K' Hlt Hge' Hab HX HY E1 E0.
  assert (Hhi : a < K * b).
  { apply (Z.mul_lt_mono_pos_r (den * (X * X))); [nia|].
    replace (a * (den * (X * X))) with (a * den * X * X) by ring.
    rewrite Hab.
    replace (K * b * (den * (X * X))) with (den * b * (K * (X * X))) by ring.
    rewrite <- E1.
    replace (num * b * Y * X) with (num * X * (b * Y)) by ring.
    replace (den * b * (Z1 * Y)) with (den * Z1 * (b * Y)) by ring.
    apply Z.mul_lt_mono_pos_r; [nia|assumption]. }
  assert (Hlo : K' * b <= a).
  { apply (Z.mul_le_mono_pos_r _ _ (den * (X * X))); [nia|].
    replace (a * (den * (X * X))) with (a * den * X * X) by ring.
    rewrite Hab.
    replace (K' * b * (den * (X * X))) with (den * b * (K' * (X * X))) by ring.
    rewrite <- E0.
    replace (num * b * Y * X) with (num * X * (b * Y)) by ring.
    replace (den * b * (Z0 * Y)) with (den * Z0 * (b * Y)) by ring.
    apply Z.mul_le_mono_nonneg_r; [nia|lia]. }
  split.
  - apply Z.div_le_lower_bound; [assumption|lia].
  - apply Z.div_lt_upper_bound; [assumption|lia].
Qed.

Lemma candidates_In (x : float) (num den n k s : Z) :
  In s (candidates x num den n k) <->
  (s = fst (scale10 num den (k - n)) / snd (scale10 num den (k - n))
   \/ s = fst (scale10 num den (k - n)) / snd (scale10 num den (k - n)) + 1)
  /\ 0 < s /\ of_decimal false s (n - k) = x.
Proof.
  unfold candidates. destruct (scale10 num den (k - n)) as [a b]. cbn [fst snd].
  rewrite filter_In, andb_true_iff, Z.ltb_lt, Leibniz.eqb_spec.
  assert (Hin : forall l, (l = [a / b; a / b + 1] \/ l = [a / b + 1; a / b]) ->
                          (In s l <-> s = a / b \/ s = a / b + 1)).
  { intros l [->| ->]; cbn; intuition. }
  rewrite Hin; [reflexivity|].
  destruct (2 * (a - a / b * b) ?= b); try destruct (Z.even (a / b)); auto.
Qed.

Lemma shortest_found (fuel : nat) (x : float) (num den n k0 k1 : Z) :
  k0 <= k1 < k0 + Z.of_nat fuel -> candidates x num den n k1 <> [] ->
  k0 <= fst (shortest fuel x num den n k0) <= k1
  /\ In (snd (shortest fuel x num den n k0))
        (candidates x num den n (fst (shortest fuel x num den n k0))).
Proof.
  revert k0. induction fuel as [|fuel IH]; intros k0 Hk Hc; [lia|].
  cbn [shortest]. destruct (candidates x num den n k0) as [|s l] eqn:E.
  - assert (k0 <> k1) by congruence.
    destruct (IH (k0 + 1) ltac:(lia) Hc) as [H1 H2]. split; [lia|exact H2].
  - cbn [fst snd]. split; [lia|]. rewrite E. now left.
Qed.

End ShortestDigits.

(** ** Adding *)

Lemma handleAdd_accepts (now : Z) (st : State) :
  JS.isFinite (JS.parseFloat (amount st)) = true ->
  (0 <? JS.parseFloat (amount st))%float = true ->
  handleAdd now st =
    {| expenses :=
         {| Expense.id := JS.String_of_int now;
            Expense.date := date st;
            Expense.amount :=
              (JS.Math_round (JS.parseFloat (amount st) * 100) / 100)%float;
            Expense.category := JS.or_else (JS.trim (category st)) "General";
            Expense.note := JS.trim (note st) |} :: expenses st;
       selectedDate := date st;
       amount := ""; category := "General"; note := "";
       date := selectedDate st |}.
Proof.
  intros Hfin Hpos. unfold handleAdd.
  rewrite Hfin, (ltb_zero_leb _ Hpos). cbn.
  destruct (String.eqb_spec (date st) (selectedDate st)) as [->|]; reflexivity.
Qed.

Lemma handleAdd_rejects (now : Z) (st : State) :
  JS.isFinite (JS.parseFloat (amount st)) = false
  \/ (JS.parseFloat (amount st) <=? 0)%float = true ->
  handleAdd now st = st.
Proof.
  intros [H|H]; unfold handleAdd; rewrite H; [reflexivity|].
  now rewrite orb_true_r.
Qed.


(** C1 as stated fails: an amount typed as 1e308 parses to a finite number
    above zero, and what is stored for it is Infinity, which holds no
    number of hundredths. *)
Lemma add_stores_infinity :
  ~ (forall now st,
       let p := JS.parseFloat (amount st) in
       JS.isFinite p = true -> (0 <? p)%float = true ->
       exists r n, expenses (handleAdd now st) = r :: expenses st
                   /\ hundredths (Expense.amount r) n).
Proof.
  intros H.
  destruct (H 1704067200000 (setAmount "1e308" demo_form) eq_refl eq_refl)
    as (r & n & Hr & Hfin & _).
  vm_compute in Hr. injection Hr as <-. discriminate Hfin.
Qed.



(** The cents of the scenario: 12.345 is stored as 1235 hundredths. *)
Example twelve_thirty_five :
  nearestWhole (JS.parseFloat "12.345" * 100) 1235
  /\ hundredths 12.35 1235
  /\ strippedOf "  lunch with Ann " "lunch with Ann".
Proof.
  split; [|split].
  - unfold nearestWhole. vm_compute. split; [discriminate|reflexivity].
  - split; [reflexivity|]. unfold approximates. vm_compute. discriminate.
  - exists "  ", " ". repeat split.
Qed.

(** C2: when the amount typed into the form is not numeric (no decimal
    literal can be read from it), or parses to a number that is not finite,
    or to a number that is zero or below, [handleAdd] changes nothing: the
    state, and with it the store, is the one it was called with. *)
Theorem add_invalid_amount_is_noop (now : Z) (st : State) :
  let p := JS.parseFloat (amount st) in
  JS.scanDecimalLiteral (JS.trimStart (amount st)) = None
  \/ JS.isFinite p = false
  \/ (p <=? 0)%float = true ->
  handleAdd now st = st
  /\ expenses (handleAdd now st) = expenses st.
Proof.
  intros p H.
  assert (E : handleAdd now st = st).
  { apply handleAdd_rejects. destruct H as [H|[H|H]]; [left|left|right]; try exact H.
    unfold JS.parseFloat. rewrite H. reflexivity. }
  now rewrite E.
Qed.

(** An amount of ["abc"] is rejected. *)
Lemma add_invalid_amount_is_noop_witness :
  (JS.scanDecimalLiteral (JS.trimStart "abc") = None
   \/ JS.isFinite (JS.parseFloat "abc") = false
   \/ (JS.parseFloat "abc" <=? 0)%float = true)
  /\ handleAdd 1704067200000 (setAmount "abc" demo_form) = setAmount "abc" demo_form.
Proof.
  assert (H : JS.scanDecimalLiteral (JS.trimStart "abc") = None
   \/ JS.isFinite (JS.parseFloat "abc") = false
   \/ (JS.parseFloat "abc" <=? 0)%float = true) by (left; reflexivity).
  split; [exact H|].
  exact (proj1 (add_invalid_amount_is_noop 1704067200000 (setAmount "abc" demo_form) H)).
Defined.

(** ** Deleting *)

Lemma keeps_true (id : string) (e : Expense) :
  negb (String.eqb (Expense.id e) id) = true <-> Expense.id e <> id.
Proof.
  destruct (String.eqb_spec (Expense.id e) id); cbn; split; congruence.
Qed.

Lemma filter_all {A} (f : A -> bool) (l : list A) :
  (forall x, In x l -> f x = true) -> List.filter f l = l.
Proof.
  induction l as [|x l IH]; intros H; cbn; [reflexivity|].
  rewrite (H x (or_introl eq_refl)), IH; [reflexivity|].
  intros y Hy. apply H. now right.
Qed.

(** Splitting a list of records at the one that carries an id no other
    record carries. *)
Lemma filter_unique_id (id : string) (l : list Expense) (e : Expense) :
  NoDup (map Expense.id l) -> In e l -> Expense.id e = id ->
  exists l1 l2, l = (l1 ++ e :: l2)%list
    /\ List.filter (fun x => negb (String.eqb (Expense.id x) id)) l = (l1 ++ l2)%list.
Proof.
  induction l as [|x l IH]; intros Hnd Hin Hid; [destruct Hin|].
  cbn in Hnd. apply NoDup_cons in Hnd as [Hx Hnd]. destruct Hin as [->|Hin].
  - exists [], l. split; [reflexivity|]. cbn. rewrite Hid, String.eqb_refl. cbn.
    apply filter_all. intros y Hy. apply keeps_true. intros Hy'.
    apply Hx. rewrite Hid, <- Hy'. apply list_elem_of_In, in_map, Hy.
  - destruct (IH Hnd Hin Hid) as (l1 & l2 & -> & Hf).
    exists (x :: l1), l2. split; [reflexivity|]. cbn.
    assert (Hne : Expense.id x <> id).
    { intros Hx'. apply Hx. rewrite Hx', <- Hid. apply list_elem_of_In, in_map, Hin. }
    apply keeps_true in Hne. rewrite Hne, Hf. reflexivity.
Qed.

(** C3: [handleDelete id] keeps exactly the records whose id is not [id];
    when no record has that id the state is unchanged; and in a store whose
    ids are distinct the record with that id is the one record that goes,
    everything before and after it staying in place. *)
Theorem delete_removes_exactly_that_id (id : string) (st : State) :
  (forall e, In e (expenses (handleDelete id st))
             <-> In e (expenses st) /\ Expense.id e <> id)
  /\ ((forall e, In e (expenses st) -> Expense.id e <> id) ->
      handleDelete id st = st)
  /\ (NoDup (map Expense.id (expenses st)) ->
      forall e, In e (expenses st) -> Expense.id e = id ->
      exists l1 l2, expenses st = (l1 ++ e :: l2)%list
                    /\ expenses (handleDelete id st) = (l1 ++ l2)%list).
Proof.
  split; [|split].
  - intros e. cbn. unfold JS.Array_filter. rewrite filter_In, keeps_true. reflexivity.
  - intros H. destruct st as [ex sd am ca no da]. unfold handleDelete. cbn in *.
    f_equal. apply filter_all. intros e He. apply keeps_true, H, He.
  - intros Hnd e Hin Hid. apply filter_unique_id; assumption.
Qed.

(** C10: in any store, also one in which several records share an id,
    [handleDelete id] leaves no record with that id, what it leaves is a
    subsequence of the store (the relative order is kept), and the records
    it takes out are as many as the records with that id. *)
Theorem delete_removes_all_with_id_keeps_order (id : string) (st : State) :
  Forall (fun e => Expense.id e <> id) (expenses (handleDelete id st))
  /\ sublist (expenses (handleDelete id st)) (expenses st)
  /\ (length (expenses (handleDelete id st))
      + count_occ string_dec (map Expense.id (expenses st)) id
      = length (expenses st))%nat.
Proof.
  cbn. unfold JS.Array_filter. induction (expenses st) as [|x l (IH1 & IH2 & IH3)].
  - repeat split; [constructor|constructor].
  - cbn. destruct (String.eqb_spec (Expense.id x) id) as [E|E]; cbn.
    + repeat split; [assumption|now constructor|].
      destruct (string_dec (Expense.id x) id); [lia|contradiction].
    + repeat split; [now constructor|now constructor|].
      destruct (string_dec (Expense.id x) id); [contradiction|lia].
Qed.

(** ** The total of a view *)

Lemma zero_add (x : float) : x <> neg_zero -> (0 + x)%float = x.
Proof.
  intros Hx. apply Prim2SF_inj. rewrite add_spec.
  change (Prim2SF 0) with (S754_zero false).
  destruct (Prim2SF x) as [[]|s| |s m e] eqn:E; try reflexivity.
  exfalso. apply Hx. rewrite <- (SF2Prim_Prim2SF x), E. reflexivity.
Qed.

Lemma total_app (a b : list Expense) :
  totalForSelectedDate (a ++ b)
  = fold_left (fun s e => (s + Expense.amount e)%float) b (totalForSelectedDate a).
Proof. unfold totalForSelectedDate, JS.Array_reduce. apply fold_left_app. Qed.

(** C5 as stated fails: amounts are binary64 numbers and their addition
    is not associative; the total of 0.1 followed by 0.2 and 0.3 is
    0.6000000000000001, the sum of the two totals is 0.6. *)
Lemma total_not_additive :
  ~ (forall a b : list Expense,
       totalForSelectedDate (a ++ b)
       = (totalForSelectedDate a + totalForSelectedDate b)%float).
Proof.
  intros H. specialize (H tenths fifths). vm_compute in H. discriminate H.
Qed.

(** C5, amended: the total of no records is 0; the total of [a ++ b] is
    the total of [a] with the amounts of [b] added to it one after the
    other, from left to right; it is the sum of the two totals when [b] is a
    single record (whose amount is not the negative zero); and two records
    of one date with the amounts 10.00 and 5.50 total 15.50. *)
Theorem total_accumulates_left_to_right :
  totalForSelectedDate [] = 0%float
  /\ (forall a b : list Expense,
        totalForSelectedDate (a ++ b)
        = fold_left (fun s e => (s + Expense.amount e)%float) b
            (totalForSelectedDate a))
  /\ (forall (a : list Expense) (r : Expense),
        Expense.amount r <> neg_zero ->
        totalForSelectedDate (a ++ [r])
        = (totalForSelectedDate a + totalForSelectedDate [r])%float)
  /\ (forall (store : list Expense) (d : string) (r1 r2 : Expense),
        List.filter (fun e => String.eqb (Expense.date e) d) store = [r1; r2] ->
        Expense.amount r1 = 10%float -> Expense.amount r2 = 5.5%float ->
        totalForSelectedDate (expensesForSelectedDate store d) = 15.5%float).
Proof.
  split; [reflexivity|]. split; [exact total_app|]. split.
  - intros a r Hr. rewrite total_app. cbn.
    unfold totalForSelectedDate at 2. cbn. now rewrite zero_add.
  - intros store d r1 r2 Hf H1 H2.
    unfold expensesForSelectedDate, JS.Array_filter. rewrite Hf. cbn.
    destruct (0 <? _)%float; cbn; rewrite H1, H2; reflexivity.
Qed.

(** ** The store invariants *)

(** *** String(Date.now()) is injective *)



(** *** What one submission does *)

Lemma handleAdd_cases (now : Z) (st : State) :
  handleAdd now st = st
  \/ (JS.isFinite (JS.parseFloat (amount st)) = true
      /\ (0 <? JS.parseFloat (amount st))%float = true).
Proof.
  destruct (JS.isFinite (JS.parseFloat (amount st))) eqn:Hfin;
    [|left; apply handleAdd_rejects; now left].
  destruct (JS.parseFloat (amount st) <=? 0)%float eqn:Hle;
    [left; apply handleAdd_rejects; now right|].
  right. split; [reflexivity|].
  assert (Hn : is_nan (JS.parseFloat (amount st)) = false).
  { unfold JS.isFinite, is_finite in Hfin. apply negb_true_iff, orb_false_iff in Hfin. tauto. }
  rewrite leb_rank in Hle by (assumption || reflexivity).
  rewrite ltb_rank by (assumption || reflexivity).
  apply Z.leb_gt in Hle. now apply Z.ltb_lt.
Qed.


Lemma Forall_filter_keep {A} (P : A -> Prop) (g : A -> bool) (l : list A) :
  Forall P l -> Forall P (List.filter g l).
Proof.
  rewrite !List.Forall_forall. intros H x [Hx _]%filter_In. now apply H.
Qed.

Lemma submitTimes_app (evs1 evs2 : list Event) :
  submitTimes (evs1 ++ evs2) = (submitTimes evs1 ++ submitTimes evs2)%list.
Proof. apply flat_map_app. Qed.

Lemma run_snoc (evs : list Event) (ev : Event) (st : State) :
  run (evs ++ [ev]) st = step (run evs st) ev.
Proof. unfold run. now rewrite fold_left_app. Qed.





(** ** The views are pure *)

(** C9: run on a heap in which the store is the array [a] with content
    [xs], the view of a date returns a newly allocated array whose content
    is [expensesForSelectedDate xs d], a function of the content and the
    date alone, and leaves every array that existed, the store among them,
    with the content it had; the total returns [totalForSelectedDate xs]
    and leaves the whole heap as it was. *)
Theorem views_do_not_mutate (h : gmap positive (list Expense)) (a : positive)
  (xs : list Expense) (d : string) :
  h !! a = Some xs ->
  (exists b h',
      Heap.expensesForSelectedDate a d h = Some (b, h')
      /\ h' !! b = Some (expensesForSelectedDate xs d)
      /\ h !! b = None
      /\ forall c ys, h !! c = Some ys -> h' !! c = Some ys)
  /\ Heap.totalForSelectedDate a h = Some (totalForSelectedDate xs, h).
Proof.
  intros Ha. split.
  - unfold Heap.expensesForSelectedDate, Heap.filter, Heap.sort. rewrite Ha.
    set (b := fresh (dom h)).
    assert (Hb : h !! b = None) by (apply not_elem_of_dom, is_fresh).
    rewrite lookup_insert_eq. eexists b, _. split; [reflexivity|].
    split; [apply lookup_insert_eq|]. split; [exact Hb|].
    intros c ys Hc. assert (b <> c) by congruence.
    now rewrite !lookup_insert_ne.
  - unfold Heap.totalForSelectedDate, Heap.reduce. now rewrite Ha.
Qed.

(** The view of a one-array heap leaves that array alone. *)
Lemma views_do_not_mutate_witness :
  oneArray !! 1%positive = Some mixedIds
  /\ exists b h',
      Heap.expensesForSelectedDate 1%positive "2024-01-01" oneArray = Some (b, h')
      /\ h' !! 1%positive = Some mixedIds.
Proof.
  assert (H : oneArray !! 1%positive = Some mixedIds) by reflexivity.
  split; [exact H|].
  destruct (views_do_not_mutate oneArray 1%positive mixedIds "2024-01-01" H)
    as [(b & h' & E & _ & _ & Hkeep) _].
  exists b, h'. split; [exact E|]. apply Hkeep, H.
Defined.

Section Persistence.

Import JS JSON.

(** ** Loading and persisting *)

(** C7 as stated fails: the load effect checks that the parsed content is
    an array and nothing else, so the content [[1]], which is no sequence of
    expense records, is loaded as it is. *)
Lemma load_keeps_any_array :
  ~ (forall ls : gmap string string,
       (forall raw, localStorage.getItem STORAGE_KEY ls = Some raw ->
                    ~ parsesToExpenses raw) ->
       loadEffect ls = Some []).
Proof.
  intros H. specialize (H foreignArray).
  assert (E : loadEffect foreignArray = Some [JNumber 1%float]).
  { unfold loadEffect, localStorage.getItem, foreignArray.
    rewrite lookup_singleton_eq. reflexivity. }
  rewrite E in H. discriminate H.
  intros raw Hraw (l & Hl & Hshape).
  unfold localStorage.getItem, foreignArray in Hraw.
  rewrite lookup_singleton_eq in Hraw. injection Hraw as <-.
  vm_compute in Hl. injection Hl as <-. discriminate Hshape.
Qed.

(** C7, amended: the load effect always returns; it yields the empty
    sequence when the slot is absent, when its content is not valid JSON
    (the empty string included) and when it is valid JSON but not an array,
    such as the object [{}]; content that is a JSON array is taken as it
    is, whatever its elements. *)
Theorem load_falls_back_to_empty (ls : gmap string string) :
  (localStorage.getItem STORAGE_KEY ls = None -> loadEffect ls = Some [])
  /\ (forall raw, localStorage.getItem STORAGE_KEY ls = Some raw ->
        parse raw = SyntaxError -> loadEffect ls = Some [])
  /\ (forall raw v, localStorage.getItem STORAGE_KEY ls = Some raw ->
        parse raw = Parsed v -> Array_isArray v = false -> loadEffect ls = Some [])
  /\ (forall raw l, localStorage.getItem STORAGE_KEY ls = Some raw ->
        parse raw = Parsed (JArray l) -> loadEffect ls = Some l)
  /\ (parse "" = SyntaxError /\ parse "{}" = Parsed (JObject [])
      /\ (localStorage.getItem STORAGE_KEY ls = Some "{}" -> loadEffect ls = Some [])).
Proof.
  unfold loadEffect. repeat split.
  - now intros ->.
  - intros raw -> ->. now destruct (truthy raw).
  - intros raw v -> -> ->. now destruct (truthy raw).
  - intros raw l -> Hp. destruct raw as [|c raw]; [discriminate Hp|].
    cbn [truthy]. now rewrite Hp.
  - now intros ->.
Qed.

(** ** Round trip *)




(** C8 as stated fails: a write that the browser refuses is caught and
    leaves the storage as it was, so what is loaded after saving two
    well-formed records into a storage that is full is what the storage
    held before, here the array [[1]]. *)
Lemma load_after_refused_write :
  ~ (forall (quota : N) (records : list Expense) (ls : gmap string string),
       Forall wellFormed records ->
       loadEffect (persistEffect quota records ls) = Some (map json_of_Expense records)).
Proof.
  intros H. specialize (H 10%N twoRecords foreignArray).
  assert (E : persistEffect 10 twoRecords foreignArray = foreignArray).
  { unfold persistEffect, localStorage.setItem.
    assert ((localStorage.usage
               (<[STORAGE_KEY := stringify (JArray (map json_of_Expense twoRecords))]>
                  foreignArray) <=? 10)%N = false) as -> by (vm_compute; reflexivity).
    reflexivity. }
  rewrite E in H.
  assert (L : loadEffect foreignArray = Some [JNumber 1%float]).
  { unfold loadEffect, localStorage.getItem, foreignArray.
    rewrite lookup_singleton_eq. reflexivity. }
  rewrite L in H. discriminate H.
  repeat constructor; vm_compute; reflexivity.
Qed.



(** Where the round trip stops: an amount typed as 1e308 passes the check of
    [handleAdd] and is stored as Infinity, which JSON writes as [null]. *)
Example infinite_amount_is_not_read_back :
  expenses (run [SetAmount "1e308"; Submit 1704067200000]
                (initialState "2024-01-01" "2024-01-01"))
  = [Expense.mk "1704067200000" "2024-01-01" infinity "General" ""]
  /\ loadEffect (persistEffect 5000000
                   [Expense.mk "1704067200000" "2024-01-01" infinity "General" ""] ∅)
     = Some [JObject [("id", JString "1704067200000"); ("date", JString "2024-01-01");
                      ("amount", JNull); ("category", JString "General");
                      ("note", JString "")]].
Proof. split; vm_compute; reflexivity. Qed.


End Persistence.

(** ** The view of one date *)

(** C4 as stated fails: a store may hold an id that does not read as a
    number (ids are strings, and the store can come from local storage);
    the comparator then yields NaN and the records with ids 1, x and 2 stay
    in that order, 1 before 2. *)
Lemma view_unsorted_on_non_numeric_id :
  ~ (forall store d, isViewOf store d (expensesForSelectedDate store d)).
Proof.
  intros H. destruct (H mixedIds "2024-01-01") as (_ & _ & Hs). clear H.
  apply StronglySorted_inv in Hs as [_ H].
  apply Forall_cons in H as [_ H]. apply Forall_cons in H as [H _].
  vm_compute in H. discriminate H.
Qed.

Lemma stamped_run (today today' : string) (evs : list Event) :
  Forall (fun e => exists t, Expense.id e = JS.String_of_int t)
         (expenses (run evs (initialState today today'))).
Proof.
  induction evs as [|ev evs IH] using rev_ind; [constructor|].
  rewrite run_snoc. set (st := run evs (initialState today today')) in *.
  destruct ev as [v|v|v|v|v|now|id]; cbn [step]; try exact IH.
  - destruct (handleAdd_cases now st) as [->|[Hfin Hpos]]; [exact IH|].
    rewrite (handleAdd_accepts now st Hfin Hpos). cbn [expenses].
    constructor; [now exists now|exact IH].
  - cbn [handleDelete expenses]. now apply Forall_filter_keep.
Qed.

Lemma view_of_numeric_ids (store : list Expense) (d : string) :
  (forall e, In e store -> Expense.date e = d -> numericId e) ->
  isViewOf store d (expensesForSelectedDate store d).
Proof.
  intros Hnum. unfold isViewOf, expensesForSelectedDate, JS.Array_filter.
  split; [apply Array_sort_perm|]. split.
  - intros e. rewrite (Permutation_in' (eq_refl e) (Array_sort_perm _ _)).
    rewrite filter_In, String.eqb_eq. reflexivity.
  - apply (Array_sort_descending (fun e => JS.Number (Expense.id e))).
    apply List.Forall_forall. intros e [He Hd%String.eqb_eq]%filter_In.
    now apply Hnum.
Qed.

(** C4, amended: for every store in which the ids of the records of date
    [d] read as numbers, and so for every store reached from the empty one
    by the events of the page (every id made by [handleAdd] reads as a
    number), the view of [d] holds exactly the records of the store whose
    date is [d], each as often as the store does, ordered by decreasing
    numeric id. *)
Theorem view_is_the_date_newest_first :
  (forall store d,
      (forall e, In e store -> Expense.date e = d -> numericId e) ->
      isViewOf store d (expensesForSelectedDate store d))
  /\ (forall today today' evs d,
        isViewOf (expenses (run evs (initialState today today'))) d
          (expensesForSelectedDate (expenses (run evs (initialState today today'))) d)).
Proof.
  split; [exact view_of_numeric_ids|].
  intros today today' evs d. apply view_of_numeric_ids. intros e He _.
  pose proof (stamped_run today today' evs) as H. rewrite List.Forall_forall in H.
  destruct (H e He) as [t Ht]. unfold numericId. rewrite Ht.
  apply String_of_int_numeric.
Qed.

(** ** More on the order of numbers and on sorting *)

Lemma eqb_rank (x y : float) :
  is_nan x = false -> is_nan y = false -> (x =? y)%float = (rank x =? rank y).
Proof.
  intros Hx Hy. rewrite FloatAxioms.eqb_spec. unfold SFeqb, rank.
  rewrite SFcompare_rank by auto using Prim2SF_valid, Prim2SF_not_nan.
  destruct (Z.compare_spec (SFrank (Prim2SF x)) (SFrank (Prim2SF y)));
    symmetry; [apply Z.eqb_eq|apply Z.eqb_neq|apply Z.eqb_neq]; lia.
Qed.

Section SortedInput.

Context {A : Type}.
Variable k : A -> float.

Let cmp (a b : A) : float := (k b - k a)%float.

Lemma insert_sorted_cons (x y : A) (l : list A) :
  is_nan (k x) = false -> is_nan (k y) = false ->
  JS.insert_sorted cmp x (y :: l)
  = if rank (k x) <? rank (k y) then y :: JS.insert_sorted cmp x l else x :: y :: l.
Proof.
  intros Hx Hy. cbn [JS.insert_sorted]. unfold cmp at 1.
  now rewrite sub_pos_iff, ltb_rank by assumption.
Qed.

(** An element that no key of the list exceeds is inserted in front. *)
Lemma insert_sorted_front (x : A) (l : list A) :
  is_nan (k x) = false -> Forall (fun y => is_nan (k y) = false) l ->
  Forall (keyDescending k x) l ->
  JS.insert_sorted cmp x l = x :: l.
Proof.
  intros Hx Hn Hl. destruct l as [|y l]; [reflexivity|]. cbn.
  apply Forall_cons in Hn as [Hy _]. apply Forall_cons in Hl as [Hxy _].
  unfold cmp. rewrite sub_pos_iff, ltb_rank by assumption.
  unfold keyDescending in Hxy. rewrite leb_rank in Hxy by assumption.
  apply Z.leb_le in Hxy. destruct (Z.ltb_spec (rank (k x)) (rank (k y))); [lia|reflexivity].
Qed.

(** Sorting leaves a list that is in descending order as it is. *)
Lemma Array_sort_sorted (l : list A) :
  Forall (fun y => is_nan (k y) = false) l ->
  StronglySorted (keyDescending k) l ->
  JS.Array_sort cmp l = l.
Proof.
  intros Hn Hs. induction Hs as [|x l Hs IH Hx]; [reflexivity|].
  apply Forall_cons in Hn as [Hnx Hn]. cbn. fold (JS.Array_sort cmp l).
  rewrite IH by assumption. now apply insert_sorted_front.
Qed.

(** Filtering and inserting into a sorted list commute. *)
Lemma filter_insert_sorted (f : A -> bool) (x : A) (l : list A) :
  is_nan (k x) = false -> Forall (fun y => is_nan (k y) = false) l ->
  StronglySorted (keyDescending k) l ->
  List.filter f (JS.insert_sorted cmp x l)
  = if f x then JS.insert_sorted cmp x (List.filter f l) else List.filter f l.
Proof.
  intros Hx Hn Hs. induction Hs as [|y l Hs IH Hy].
  - cbn. destruct (f x); reflexivity.
  - apply Forall_cons in Hn as [Hny Hn]. rewrite insert_sorted_cons by assumption.
    destruct (Z.ltb_spec (rank (k x)) (rank (k y))) as [Hlt|Hge].
    + cbn [List.filter]. rewrite IH by assumption.
      destruct (f x), (f y); try reflexivity.
      rewrite insert_sorted_cons by assumption.
      apply Z.ltb_lt in Hlt. now rewrite Hlt.
    + cbn [List.filter]. destruct (f x); [|reflexivity].
      symmetry. apply insert_sorted_front; [assumption| |].
      * apply (Forall_filter_keep _ f (y :: l)). now constructor.
      * apply (Forall_filter_keep _ f (y :: l)). constructor.
        -- unfold keyDescending. rewrite leb_rank by assumption. now apply Z.leb_le.
        -- rewrite Forall_forall in Hy, Hn |- *. intros z Hz.
           specialize (Hy z Hz). specialize (Hn z Hz). unfold keyDescending in *.
           rewrite leb_rank in Hy |- * by assumption. apply Z.leb_le in Hy.
           apply Z.leb_le. lia.
Qed.

Lemma filter_Array_sort (f : A -> bool) (l : list A) :
  Forall (fun y => is_nan (k y) = false) l ->
  JS.Array_sort cmp (List.filter f l) = List.filter f (JS.Array_sort cmp l).
Proof.
  induction l as [|x l IH]; intros Hn; [reflexivity|].
  apply Forall_cons in Hn as [Hx Hn]. cbn [JS.Array_sort fold_right List.filter].
  fold (JS.Array_sort cmp l). rewrite filter_insert_sorted.
  - destruct (f x); [|now apply IH]. cbn [JS.Array_sort fold_right].
    fold (JS.Array_sort cmp (List.filter f l)). now rewrite IH.
  - assumption.
  - eapply Permutation_Forall; [symmetry; apply Array_sort_perm|assumption].
  - now apply Array_sort_descending.
Qed.

(** Inserting puts an element in front of the elements with its key. *)
Lemma insert_sorted_same_key (v : float) (x : A) (l : list A) :
  is_nan v = false ->
  is_nan (k x) = false -> Forall (fun y => is_nan (k y) = false) l ->
  List.filter (fun e => (k e =? v)%float) (JS.insert_sorted cmp x l)
  = List.filter (fun e => (k e =? v)%float) (x :: l).
Proof.
  intros Hv Hx Hn. induction l as [|y l IH]; [reflexivity|].
  apply Forall_cons in Hn as [Hy Hn]. rewrite insert_sorted_cons by assumption.
  destruct (Z.ltb_spec (rank (k x)) (rank (k y))) as [Hlt|Hge]; [|reflexivity].
  cbn [List.filter] in *. rewrite IH by assumption.
  rewrite !eqb_rank by assumption.
  destruct (Z.eqb_spec (rank (k x)) (rank v)), (Z.eqb_spec (rank (k y)) (rank v));
    try reflexivity. lia.
Qed.

Lemma Array_sort_stable (v : float) (l : list A) :
  is_nan v = false ->
  Forall (fun y => is_nan (k y) = false) l ->
  List.filter (fun e => (k e =? v)%float) (JS.Array_sort cmp l)
  = List.filter (fun e => (k e =? v)%float) l.
Proof.
  intros Hv. induction l as [|x l IH]; intros Hn; [reflexivity|].
  apply Forall_cons in Hn as [Hx Hn]. cbn [JS.Array_sort fold_right].
  fold (JS.Array_sort cmp l). rewrite insert_sorted_same_key; try assumption.
  - cbn [List.filter]. now rewrite IH.
  - eapply Permutation_Forall; [symmetry; apply Array_sort_perm|assumption].
Qed.

End SortedInput.

(** ** Adding and deleting, one after the other *)

(** X1: submitting the form twice adds at most one record.  After a
    submission that was accepted the amount field is empty, so a second
    submission, at whatever clock reading, is rejected; after one that was
    rejected the form is as it was and is rejected again.  Either way the
    second [handleAdd] changes nothing. *)
Theorem resubmission_adds_nothing (now now' : Z) (st : State) :
  handleAdd now' (handleAdd now st) = handleAdd now st.
Proof.
  destruct (handleAdd_cases now st) as [E|[Hfin Hpos]].
  - rewrite E. apply handleAdd_rejects.
    destruct (JS.isFinite (JS.parseFloat (amount st))) eqn:Hfin; [|now left].
    right. unfold handleAdd in E. rewrite Hfin in E. cbn [negb orb] in E.
    destruct (JS.parseFloat (amount st) <=? 0)%float; [reflexivity|].
    exfalso. apply (f_equal (fun s => length (expenses s))) in E. cbn in E. lia.
  - rewrite (handleAdd_accepts now st Hfin Hpos). apply handleAdd_rejects.
    left. reflexivity.
Qed.

(** X2: after an accepted submission the page views the date the record
    was filed under, the new record is among the rows of the view, and the
    item count is one more than the number of records the store held for
    that date. *)
Theorem added_record_is_shown (now : Z) (st : State) :
  let p := JS.parseFloat (amount st) in
  let st' := handleAdd now st in
  JS.isFinite p = true -> (0 <? p)%float = true ->
  selectedDate st' = date st
  /\ (exists r, expenses st' = r :: expenses st
        /\ In r (expensesForSelectedDate (expenses st') (selectedDate st')))
  /\ itemCount st'
     = S (length (List.filter (fun e => String.eqb (Expense.date e) (date st))
                              (expenses st))).
Proof.
  intros p st' Hfin Hpos. subst st'. unfold itemCount.
  rewrite (handleAdd_accepts now st Hfin Hpos). cbn [selectedDate expenses].
  split; [reflexivity|]. unfold expensesForSelectedDate, JS.Array_filter.
  cbn [List.filter Expense.date]. rewrite String.eqb_refl. split.
  - eexists. split; [reflexivity|].
    eapply Permutation_in; [symmetry; apply Array_sort_perm|]. now left.
  - rewrite (Permutation_length (Array_sort_perm _ _)). reflexivity.
Qed.

(** A record for 2024-01-02 added while 2024-01-01 is viewed. *)
Lemma added_record_is_shown_witness :
  JS.isFinite (JS.parseFloat (amount otherDateForm)) = true
  /\ (0 <? JS.parseFloat (amount otherDateForm))%float = true
  /\ selectedDate (handleAdd 1704153600000 otherDateForm) = "2024-01-02"
  /\ itemCount (handleAdd 1704153600000 otherDateForm) = 1%nat.
Proof.
  assert (H1 : JS.isFinite (JS.parseFloat (amount otherDateForm)) = true) by reflexivity.
  assert (H2 : (0 <? JS.parseFloat (amount otherDateForm))%float = true) by reflexivity.
  destruct (added_record_is_shown 1704153600000 otherDateForm H1 H2) as (Hs & _ & Hc).
  split; [exact H1|]. split; [exact H2|]. split; [exact Hs|].
  rewrite Hc. reflexivity.
Defined.

(** X3: an accepted submission resets the form with the viewed date of the
    render it was made in: afterwards the form holds the date that was
    viewed and the page views the date the form held.  So when the two
    differed, a second record, added after typing only an amount, is filed
    under the date viewed at first and not under the date of the first
    record, and the page is then back on the date it viewed at first. *)
Theorem next_add_is_filed_under_the_viewed_date (t1 t2 : Z) (a : string) (st : State) :
  let st1 := handleAdd t1 st in
  let st2 := handleAdd t2 (setAmount a st1) in
  JS.isFinite (JS.parseFloat (amount st)) = true ->
  (0 <? JS.parseFloat (amount st))%float = true ->
  JS.isFinite (JS.parseFloat a) = true -> (0 <? JS.parseFloat a)%float = true ->
  date st1 = selectedDate st /\ selectedDate st1 = date st
  /\ exists r1 r2, expenses st2 = r2 :: r1 :: expenses st
       /\ Expense.date r1 = date st /\ Expense.date r2 = selectedDate st
       /\ selectedDate st2 = selectedDate st /\ date st2 = date st.
Proof.
  intros st1 st2 Hfin Hpos Hfa Hpa. subst st2 st1.
  rewrite (handleAdd_accepts t1 st Hfin Hpos). cbn [date selectedDate].
  split; [reflexivity|]. split; [reflexivity|].
  rewrite handleAdd_accepts by (cbn; assumption). cbn.
  eexists _, _. repeat split.
Qed.

(** Two records added in a row from a form that held 2024-01-02 while
    2024-01-01 was viewed. *)
Lemma next_add_is_filed_under_the_viewed_date_witness :
  JS.isFinite (JS.parseFloat (amount otherDateForm)) = true
  /\ (0 <? JS.parseFloat (amount otherDateForm))%float = true
  /\ JS.isFinite (JS.parseFloat "1.50") = true
  /\ (0 <? JS.parseFloat "1.50")%float = true
  /\ map Expense.date
       (expenses (handleAdd 1704153600001
                    (setAmount "1.50" (handleAdd 1704153600000 otherDateForm))))
     = ["2024-01-01"; "2024-01-02"; "2024-01-01"; "2024-01-01"].
Proof.
  assert (H1 : JS.isFinite (JS.parseFloat (amount otherDateForm)) = true) by reflexivity.
  assert (H2 : (0 <? JS.parseFloat (amount otherDateForm))%float = true) by reflexivity.
  assert (H3 : JS.isFinite (JS.parseFloat "1.50") = true) by reflexivity.
  assert (H4 : (0 <? JS.parseFloat "1.50")%float = true) by reflexivity.
  destruct (next_add_is_filed_under_the_viewed_date 1704153600000 1704153600001 "1.50"
              otherDateForm H1 H2 H3 H4) as (_ & _ & r1 & r2 & E & D1 & D2 & _).
  split; [exact H1|]. split; [exact H2|]. split; [exact H3|]. split; [exact H4|].
  rewrite E. cbn [map]. rewrite D1, D2. reflexivity.
Defined.

Lemma filter_filter_comm {A} (f g : A -> bool) (l : list A) :
  List.filter f (List.filter g l) = List.filter g (List.filter f l).
Proof.
  induction l as [|x l IH]; [reflexivity|]. cbn.
  destruct (f x) eqn:Ef, (g x) eqn:Eg; cbn; rewrite ?Ef, ?Eg, IH; reflexivity.
Qed.

Lemma filter_filter_same {A} (f : A -> bool) (l : list A) :
  List.filter f (List.filter f l) = List.filter f l.
Proof.
  induction l as [|x l IH]; [reflexivity|]. cbn.
  destruct (f x) eqn:Ef; cbn; rewrite ?Ef, IH; reflexivity.
Qed.

(** X4: deletions can be made in any order, and deleting the same id a
    second time changes nothing: the state after two [handleDelete] calls
    does not depend on their order, and a repeated call leaves the state
    of the first. *)
Theorem deletions_commute (a b : string) (st : State) :
  handleDelete a (handleDelete b st) = handleDelete b (handleDelete a st)
  /\ handleDelete a (handleDelete a st) = handleDelete a st.
Proof.
  unfold handleDelete, JS.Array_filter. cbn. split; f_equal.
  - apply filter_filter_comm.
  - apply filter_filter_same.
Qed.

(** X5: deleting the id of a record that was just added takes the record
    out again, and with it every older record that carries the same id;
    when no record of the store carried that id, the store is back to what
    it was before the addition. *)
Theorem delete_undoes_add (now : Z) (st : State) :
  let p := JS.parseFloat (amount st) in
  let id := JS.String_of_int now in
  JS.isFinite p = true -> (0 <? p)%float = true ->
  expenses (handleDelete id (handleAdd now st)) = expenses (handleDelete id st)
  /\ ((forall e, In e (expenses st) -> Expense.id e <> id) ->
      expenses (handleDelete id (handleAdd now st)) = expenses st).
Proof.
  intros p id Hfin Hpos. subst id.
  rewrite (handleAdd_accepts now st Hfin Hpos).
  cbn [handleDelete expenses]. unfold JS.Array_filter. cbn [List.filter Expense.id].
  rewrite String.eqb_refl. cbn [negb]. split; [reflexivity|].
  intros Hfresh. apply filter_all. intros e He. apply keeps_true, Hfresh, He.
Qed.

(** An addition to the two sample records, deleted again. *)
Lemma delete_undoes_add_witness :
  JS.isFinite (JS.parseFloat (amount otherDateForm)) = true
  /\ (0 <? JS.parseFloat (amount otherDateForm))%float = true
  /\ expenses (handleDelete "1704153600000" (handleAdd 1704153600000 otherDateForm))
     = twoRecords.
Proof.
  assert (H1 : JS.isFinite (JS.parseFloat (amount otherDateForm)) = true) by reflexivity.
  assert (H2 : (0 <? JS.parseFloat (amount otherDateForm))%float = true) by reflexivity.
  split; [exact H1|]. split; [exact H2|].
  apply (proj2 (delete_undoes_add 1704153600000 otherDateForm H1 H2)).
  intros e [<-|[<-|[]]]; discriminate.
Defined.

(** ** The date of the form and the viewed date *)



(** A page opened across midnight: the two calls of [todayIsoDate] fall
    on different days.  The first record is filed under the later day, the
    view moves to that day, and the form goes back to the earlier one. *)
Example opened_across_midnight :
  let st := handleAdd 1704153600000
              (run [SetAmount "4"] (initialState "2024-01-01" "2024-01-02")) in
  expenses st = [Expense.mk "1704153600000" "2024-01-02" 4 "General" ""]
  /\ selectedDate st = "2024-01-02"
  /\ date st = "2024-01-01".
Proof. repeat split; vm_compute; reflexivity. Qed.

(** ** More on the view of one date *)

Lemma numeric_run (today today' : string) (evs : list Event) :
  Forall numericId (expenses (run evs (initialState today today'))).
Proof.
  eapply List.Forall_impl; [|apply stamped_run]. cbn. intros e [t Ht].
  unfold numericId. rewrite Ht. apply String_of_int_numeric.
Qed.

Lemma numeric_of_date (store : list Expense) (d : string) :
  Forall numericId store ->
  Forall (fun e => is_nan (JS.Number (Expense.id e)) = false)
         (List.filter (fun e => String.eqb (Expense.date e) d) store).
Proof. intros H. now apply Forall_filter_keep. Qed.

(** X7: the sort of the view is stable.  In a store whose ids read as
    numbers (every store the page builds is one), the rows of the view
    whose id reads as the same number as that of a record [r], such as
    records added within one tick of the clock, stand in the order they
    have in the store: the one added last comes first. *)
Theorem same_id_rows_keep_store_order (store : list Expense) (d : string) (r : Expense) :
  Forall numericId store -> numericId r ->
  List.filter (sameNumericId r) (expensesForSelectedDate store d)
  = List.filter (sameNumericId r)
      (List.filter (fun e => String.eqb (Expense.date e) d) store).
Proof.
  intros Hn Hr. unfold expensesForSelectedDate, JS.Array_filter.
  apply (Array_sort_stable (fun e => JS.Number (Expense.id e))).
  - exact Hr.
  - now apply numeric_of_date.
Qed.

(** Two records of one tick and an older one: the two keep their order. *)
Lemma same_id_rows_keep_store_order_witness :
  Forall numericId sameTickStore
  /\ numericId (Expense.mk "1704067200000" "2024-01-01" 7 "General" "b")
  /\ map Expense.note
       (List.filter (sameNumericId (Expense.mk "1704067200000" "2024-01-01" 7 "General" "b"))
          (expensesForSelectedDate sameTickStore "2024-01-01"))
     = ["b"; "a"].
Proof.
  assert (H1 : Forall numericId sameTickStore) by (repeat constructor).
  assert (H2 : numericId (Expense.mk "1704067200000" "2024-01-01" 7 "General" "b"))
    by reflexivity.
  split; [exact H1|]. split; [exact H2|].
  rewrite (same_id_rows_keep_store_order sameTickStore "2024-01-01" _ H1 H2).
  reflexivity.
Defined.

(** X8: in a store whose ids read as numbers, the view of a date after
    [handleDelete id] is the view before it without the rows that carry
    [id]; the rows that stay keep their order. *)
Theorem delete_takes_the_rows_out (id d : string) (st : State) :
  Forall numericId (expenses st) ->
  expensesForSelectedDate (expenses (handleDelete id st)) d
  = List.filter (fun e => negb (String.eqb (Expense.id e) id))
      (expensesForSelectedDate (expenses st) d).
Proof.
  intros Hn. cbn [handleDelete expenses].
  unfold expensesForSelectedDate, JS.Array_filter.
  rewrite filter_filter_comm.
  apply (filter_Array_sort (fun e => JS.Number (Expense.id e))).
  now apply numeric_of_date.
Qed.

(** The older of the two sample records deleted: the newer one stays. *)
Lemma delete_takes_the_rows_out_witness :
  Forall numericId (expenses otherDateForm)
  /\ map Expense.id
       (expensesForSelectedDate
          (expenses (handleDelete "1704067200000" otherDateForm)) "2024-01-01")
     = ["1704067200001"].
Proof.
  assert (H : Forall numericId (expenses otherDateForm)) by (repeat constructor).
  split; [exact H|].
  rewrite (delete_takes_the_rows_out "1704067200000" "2024-01-01" otherDateForm H).
  reflexivity.
Defined.


(** Two records of one id on the viewed date: the item count is 2, and
    the rows would share a key. *)
Example rows_need_distinct_keys :
  let st := {| expenses := [Expense.mk "1" "2024-01-01" 7 "General" "b";
                            Expense.mk "1" "2024-01-01" 5 "General" "a"];
               selectedDate := "2024-01-01";
               amount := ""; category := "General"; note := ""; date := "2024-01-01" |} in
  itemCount st = 2%nat /\ listing st = None.
Proof. split; reflexivity. Qed.

(** X10: the view of a date changes only with the records of that date.
    A submission leaves the view of every date other than the form's date
    as it was, and a deletion leaves the view of every date none of whose
    records carries the deleted id as it was. *)
Theorem other_dates_are_unaffected (now : Z) (id d : string) (st : State) :
  (d <> date st ->
   expensesForSelectedDate (expenses (handleAdd now st)) d
   = expensesForSelectedDate (expenses st) d)
  /\ ((forall e, In e (expenses st) -> Expense.date e = d -> Expense.id e <> id) ->
      expensesForSelectedDate (expenses (handleDelete id st)) d
      = expensesForSelectedDate (expenses st) d).
Proof.
  split.
  - intros Hd. destruct (handleAdd_cases now st) as [->|[Hfin Hpos]]; [reflexivity|].
    rewrite (handleAdd_accepts now st Hfin Hpos). cbn [expenses].
    unfold expensesForSelectedDate, JS.Array_filter. cbn [List.filter Expense.date].
    destruct (String.eqb_spec (date st) d); [congruence|reflexivity].
  - intros H. cbn [handleDelete expenses].
    unfold expensesForSelectedDate, JS.Array_filter. f_equal.
    rewrite filter_filter_comm. apply filter_all.
    intros e [He Hd%String.eqb_eq]%filter_In. now apply keeps_true, H.
Qed.

(** A record added for 2024-01-02 leaves the view of 2024-01-01 alone. *)
Lemma other_dates_are_unaffected_witness :
  "2024-01-01" <> date otherDateForm
  /\ expensesForSelectedDate (expenses (handleAdd 1704153600000 otherDateForm)) "2024-01-01"
     = expensesForSelectedDate twoRecords "2024-01-01".
Proof.
  assert (H : "2024-01-01" <> date otherDateForm) by discriminate.
  split; [exact H|].
  exact (proj1 (other_dates_are_unaffected 1704153600000 "" "2024-01-01" otherDateForm) H).
Defined.


(** ** What every record made by the page carries *)

Lemma general_trimmed : "General" <> "" /\ trimmed "General".
Proof. split; [discriminate|split; reflexivity]. Qed.

Lemma trim_trimmed (s : string) : trimmed (JS.trim s).
Proof. destruct (trim_spec s) as (l & r & _ & _ & _ & H1 & H2). now split. Qed.

Lemma preserved_by_run (P : Expense -> Prop) (st : State) (evs : list Event) :
  (forall now st',
      JS.isFinite (JS.parseFloat (amount st')) = true ->
      (0 <? JS.parseFloat (amount st'))%float = true ->
      forall r, expenses (handleAdd now st') = r :: expenses st' -> P r) ->
  Forall P (expenses st) -> Forall P (expenses (run evs st)).
Proof.
  intros Hadd H0. induction evs as [|ev evs IH] using rev_ind; [exact H0|].
  rewrite run_snoc. set (st' := run evs st) in *.
  destruct ev as [v|v|v|v|v|now|id]; cbn [step]; try exact IH.
  - destruct (handleAdd_cases now st') as [->|[Hfin Hpos]]; [exact IH|].
    pose proof (Hadd now st' Hfin Hpos) as Hr.
    rewrite (handleAdd_accepts now st' Hfin Hpos) in Hr |- *. cbn [expenses] in *.
    constructor; [now apply Hr|exact IH].
  - cbn [handleDelete expenses]. now apply Forall_filter_keep.
Qed.

(** X11: every event of the page keeps the text fields of the store in
    shape: when every record has a category that is not empty and has no
    white space at either end of its category and of its note, the same
    holds after any sequence of events.  A record that [handleAdd] makes
    has the trimmed note and the trimmed category, or ["General"]. *)
Theorem stored_texts_are_trimmed (st : State) (evs : list Event) :
  textsTrimmed (expenses st) -> textsTrimmed (expenses (run evs st)).
Proof.
  apply preserved_by_run. intros now st' Hfin Hpos r.
  rewrite (handleAdd_accepts now st' Hfin Hpos). cbn [expenses]. intros [= <-].
  cbn [Expense.category Expense.note]. split; [|split].
  - unfold JS.or_else. destruct (JS.trim (category st')) eqn:E; cbn; discriminate.
  - unfold JS.or_else. destruct (JS.trim (category st')) eqn:E; cbn [JS.truthy].
    + apply general_trimmed.
    + rewrite <- E. apply trim_trimmed.
  - apply trim_trimmed.
Qed.

(** A category and a note typed with white space around them. *)
Lemma stored_texts_are_trimmed_witness :
  textsTrimmed (expenses otherDateForm)
  /\ textsTrimmed (expenses (run [Submit 1704153600000] otherDateForm))
  /\ map Expense.category (expenses (run [Submit 1704153600000] otherDateForm))
     = ["Coffee"; "Food"; "General"].
Proof.
  assert (H : textsTrimmed (expenses otherDateForm)).
  { repeat constructor; discriminate. }
  split; [exact H|].
  split; [exact (stored_texts_are_trimmed otherDateForm [Submit 1704153600000] H)|].
  reflexivity.
Defined.

(** X12: every event of the page keeps the amounts of the store numbers
    that are zero or above: when no amount of the store is NaN or below
    zero, the same holds after any sequence of events.  The amount that
    [handleAdd] stores, [Math.round(p * 100) / 100] for a finite [p] above
    zero, may be zero and may be infinite, but is never NaN and never
    negative. *)
Theorem stored_amounts_are_not_negative (st : State) (evs : list Event) :
  amountsNotNegative (expenses st) -> amountsNotNegative (expenses (run evs st)).
Proof.
  apply preserved_by_run. intros now st' Hfin Hpos r.
  rewrite (handleAdd_accepts now st' Hfin Hpos). cbn [expenses]. intros [= <-].
  cbn [Expense.amount]. now apply signed_number_leb, rounded_amount_sign.
Qed.

(** The two additions and the deletion of the sample trace. *)
Lemma stored_amounts_are_not_negative_witness :
  amountsNotNegative (expenses (initialState "2024-01-01" "2024-01-01"))
  /\ amountsNotNegative (expenses (run twoAdds (initialState "2024-01-01" "2024-01-01"))).
Proof.
  assert (H : amountsNotNegative (expenses (initialState "2024-01-01" "2024-01-01"))) by constructor.
  split; [exact H|].
  exact (stored_amounts_are_not_negative (initialState "2024-01-01" "2024-01-01") twoAdds H).
Defined.

(** *** The total *)

Lemma leb_signed_number (x : float) :
  (0 <=? x)%float = true -> signed_number false (Prim2SF x) \/ x = neg_zero.
Proof.
  rewrite leb_spec, Prim2SF_zero. intros H.
  destruct (Prim2SF x) as [s|s| |s m e] eqn:E; try destruct s; cbn in H;
    try discriminate; try (left; reflexivity).
  right. rewrite <- (SF2Prim_Prim2SF x), E. reflexivity.
Qed.

Lemma add_neg_zero (x : float) :
  signed_number false (Prim2SF x) -> signed_number false (Prim2SF (x + neg_zero)).
Proof.
  intros Hx. rewrite add_spec. change (Prim2SF neg_zero) with (S754_zero true).
  destruct (Prim2SF x) as [s|s| |s m e]; cbn in Hx; subst; try contradiction; reflexivity.
Qed.

Lemma total_not_negative (l : list Expense) (x : float) :
  signed_number false (Prim2SF x) ->
  Forall (fun e => (0 <=? Expense.amount e)%float = true) l ->
  signed_number false
    (Prim2SF (fold_left (fun sum e => (sum + Expense.amount e)%float) l x)).
Proof.
  revert x. induction l as [|e l IH]; intros x Hx Hl; [exact Hx|].
  apply Forall_cons in Hl as [He Hl]. cbn [fold_left]. apply IH; [|assumption].
  destruct (leb_signed_number _ He) as [H| ->]; [now apply add_sign|now apply add_neg_zero].
Qed.

(** X13: the total that the page shows is a number, zero or above.  When
    no amount of the store is NaN or below zero, then after any sequence of
    events the total of the view of any date is neither NaN nor below
    zero (it is 0 for a date without records, and may be infinite). *)
Theorem displayed_total_is_a_number (st : State) (evs : list Event) (d : string) :
  amountsNotNegative (expenses st) ->
  (0 <=? totalForSelectedDate (expensesForSelectedDate (expenses (run evs st)) d))%float
  = true.
Proof.
  intros H.
  assert (Hrun : amountsNotNegative (expenses (run evs st))).
  { revert H. apply preserved_by_run. intros now st' Hfin Hpos r.
    rewrite (handleAdd_accepts now st' Hfin Hpos). cbn [expenses]. intros [= <-].
    cbn [Expense.amount]. now apply signed_number_leb, rounded_amount_sign. }
  apply signed_number_leb. unfold totalForSelectedDate, JS.Array_reduce.
  apply total_not_negative; [reflexivity|].
  unfold expensesForSelectedDate, JS.Array_filter.
  eapply Permutation_Forall; [symmetry; apply Array_sort_perm|].
  now apply Forall_filter_keep.
Qed.

(** The total of the sample trace on its date. *)
Lemma displayed_total_is_a_number_witness :
  amountsNotNegative (expenses (initialState "2024-01-01" "2024-01-01"))
  /\ (0 <=? totalForSelectedDate
              (expensesForSelectedDate
                 (expenses (run twoAdds (initialState "2024-01-01" "2024-01-01"))) "2024-01-01"))%float
     = true.
Proof.
  assert (H : amountsNotNegative (expenses (initialState "2024-01-01" "2024-01-01"))) by constructor.
  split; [exact H|].
  exact (displayed_total_is_a_number (initialState "2024-01-01" "2024-01-01") twoAdds "2024-01-01" H).
Defined.

(** ** The ids of a page whose clock advances *)

Section ExactIds.

Import JS.

(** *** The number an id reads as *)

Lemma scanDigits_acc (u : Decimal.uint) (acc : positive) (n : Z) :
  fst (fst (scanDigits (Zpos acc) n (NilEmpty.string_of_uint u)))
  = Zpos (Pos.of_uint_acc u acc).
Proof.
  revert acc n. induction u as [|u IH|u IH|u IH|u IH|u IH|u IH|u IH|u IH|u IH|u IH];
    intros acc n; cbn [NilEmpty.string_of_uint scanDigits Pos.of_uint_acc];
    [reflexivity| | | | | | | | | |].
  all: match goal with |- context [isDigit ?c] => change (isDigit c) with true end;
    cbv iota;
    match goal with |- context [digitValue ?c] =>
      let v := eval vm_compute in (digitValue c) in change (digitValue c) with v end.
  all: match goal with |- context [scanDigits ?a _ _] =>
         match goal with |- context [Pos.of_uint_acc _ ?b] =>
           replace a with (Zpos b) by lia end end; apply IH.
Qed.

Lemma scanDigits_value (u : Decimal.uint) (n : Z) :
  fst (fst (scanDigits 0 n (NilEmpty.string_of_uint u))) = Z.of_N (Pos.of_uint u).
Proof.
  revert n. induction u as [|u IH|u IH|u IH|u IH|u IH|u IH|u IH|u IH|u IH|u IH];
    intros n; cbn [NilEmpty.string_of_uint scanDigits Pos.of_uint];
    [reflexivity| | | | | | | | | |].
  all: match goal with |- context [isDigit ?c] => change (isDigit c) with true end;
    cbv iota;
    match goal with |- context [digitValue ?c] =>
      let v := eval vm_compute in (digitValue c) in change (digitValue c) with v end.
  - apply IH.
  - apply (scanDigits_acc u 1).
  - apply (scanDigits_acc u 2).
  - apply (scanDigits_acc u 3).
  - apply (scanDigits_acc u 4).
  - apply (scanDigits_acc u 5).
  - apply (scanDigits_acc u 6).
  - apply (scanDigits_acc u 7).
  - apply (scanDigits_acc u 8).
  - apply (scanDigits_acc u 9).
Qed.

Lemma Number_digits_value (neg : bool) (d : ascii) (ds : string) :
  isDigit d = true -> allDigits ds = true ->
  Number (signed neg (String d ds))
  = of_decimal neg (fst (fst (scanDigits 0 0 (String d ds)))) 0.
Proof.
  intros Hd Hds. destruct (digit_facts d Hd) as (Hw & H45 & H43 & H46 & Hrad & HI).
  assert (Hall : allDigits (String d ds) = true) by (cbn; now rewrite Hd, Hds).
  destruct (scanDigits_all (String d ds) 0 0 Hall) as [v Hv].
  assert (Hlen : (0 + Z.of_nat (String.length (String d ds)) =? 0) = false)
    by (apply Z.eqb_neq; cbn [String.length]; lia).
  assert (Hscan : scanDecimalLiteral (signed neg (String d ds))
                  = Some (LitDecimal neg v 0, "")).
  { unfold scanDecimalLiteral.
    assert (scanSign (signed neg (String d ds)) = (neg, String d ds)) as ->.
    { destruct neg; [reflexivity|]. cbn. now rewrite H45, H43. }
    cbn [dropPrefix]. rewrite HI. unfold scanUnsigned. rewrite Hv, Hlen. reflexivity. }
  assert (Htrim : trim (signed neg (String d ds)) = signed neg (String d ds)).
  { unfold trim. destruct neg; cbn [signed trimStart].
    - change (isWhiteSpace "-") with false. cbv iota.
      change (trimEnd (String "-" (String d ds)))
        with (match trimEnd (String d ds) with
              | EmptyString => if isWhiteSpace "-" then "" else String "-" ""
              | t => String "-" t
              end).
      now rewrite (trimEnd_digits _ Hall).
    - rewrite Hw. now apply trimEnd_digits. }
  unfold Number. rewrite Htrim. rewrite Hv. cbn [fst].
  assert (Hval : match scanDecimalLiteral (signed neg (String d ds)) with
                 | Some (l, EmptyString) => literalValue l
                 | _ => PrimFloat.nan
                 end = of_decimal neg v 0).
  { rewrite Hscan. reflexivity. }
  destruct neg; cbn [signed] in *.
  - destruct ds as [|c2 r]; [exact Hval|].
    change (code "-" =? 48) with false. cbv iota. exact Hval.
  - destruct ds as [|c1 [|c2 r]]; try exact Hval.
    cbn in Hds. apply andb_true_iff in Hds as [Hc1 _].
    destruct (digit_facts c1 Hc1) as (_ & _ & _ & _ & -> & _).
    destruct (code d =? 48); exact Hval.
Qed.

(** [Number(String(t))] is the binary64 number nearest to [t]. *)
Lemma Number_String_of_int (t : Z) : Number (String_of_int t) = of_Z t.
Proof.
  assert (Hu : forall p, exists d ds,
             NilZero.string_of_uint (Pos.to_uint p) = String d ds
             /\ NilEmpty.string_of_uint (Pos.to_uint p) = String d ds
             /\ isDigit d = true /\ allDigits ds = true).
  { intros p. pose proof (string_of_uint_digits (Pos.to_uint p)) as H.
    pose proof (Unsigned.to_uint_nonnil p) as Hn.
    destruct (Pos.to_uint p); [congruence| | | | | | | | | |]; cbn in *; eauto 10. }
  assert (Hv : forall p, fst (fst (scanDigits 0 0 (NilEmpty.string_of_uint (Pos.to_uint p))))
                         = Zpos p).
  { intros p. rewrite scanDigits_value, Unsigned.of_to. reflexivity. }
  unfold String_of_int. destruct t as [|p|p]; [reflexivity| |];
    cbn [Z.to_int NilZero.string_of_int]; specialize (Hv p);
    destruct (Hu p) as (d & ds & -> & E & Hd & Hds); rewrite E in Hv.
  - pose proof (Number_digits_value false d ds Hd Hds) as H. cbn [signed] in H.
    rewrite H, Hv.
    unfold of_decimal, of_Z. change (10 ^ 0) with 1. now rewrite Z.mul_1_r.
  - pose proof (Number_digits_value true d ds Hd Hds) as H. cbn [signed] in H.
    rewrite H, Hv.
    unfold of_decimal, of_Z. change (10 ^ 0) with 1. now rewrite Z.mul_1_r.
Qed.

Lemma stampedAfter_newestFirst (a b : Expense) : stampedAfter a b -> newestFirst a b.
Proof.
  intros (ta & tb & Ha & Hb & Hlt & Hta & Htb).
  unfold newestFirst, keyDescending. rewrite Ha, Hb, !Number_String_of_int.
  rewrite leb_rank by apply of_Z_not_nan.
  assert (Hm : Date.maxTime < 2 ^ 53) by reflexivity.
  rewrite !rank_of_Z by lia. apply Z.leb_le.
  apply Z.mul_le_mono_nonneg_r; [apply Z.pow_nonneg|]; lia.
Qed.

Lemma StronglySorted_filter {A} (R : A -> A -> Prop) (f : A -> bool) (l : list A) :
  StronglySorted R l -> StronglySorted R (List.filter f l).
Proof.
  induction 1 as [|x l Hs IH Hx]; cbn; [constructor|].
  destruct (f x); [|assumption]. constructor; [assumption|].
  now apply Forall_filter_keep.
Qed.

Lemma StronglySorted_impl {A} (R S : A -> A -> Prop) (l : list A) :
  (forall a b, R a b -> S a b) -> StronglySorted R l -> StronglySorted S l.
Proof.
  intros H. induction 1 as [|x l Hs IH Hx]; constructor; [assumption|].
  eapply List.Forall_impl; [|exact Hx]. apply H.
Qed.

(** Under a clock that advances, each record of the store was stamped
    after the records behind it. *)
Lemma stamped_in_order (today today' : string) (evs : list Event) :
  StronglySorted Z.lt (submitTimes evs) -> timeValues evs ->
  StronglySorted stampedAfter (expenses (run evs (initialState today today')))
  /\ Forall (fun e => exists t, In t (submitTimes evs)
                                /\ Expense.id e = String_of_int t)
            (expenses (run evs (initialState today today'))).
Proof.
  induction evs as [|ev evs IH] using rev_ind; intros Hs Ht.
  - split; constructor.
  - unfold timeValues in *. rewrite submitTimes_app in Hs, Ht |- *.
    assert (Hs' : StronglySorted Z.lt (submitTimes evs)).
    { clear -Hs. induction (submitTimes evs) as [|t l IHl]; [constructor|].
      cbn in Hs. apply StronglySorted_inv in Hs as [Hs Ht].
      constructor; [now apply IHl|]. apply Forall_app in Ht. tauto. }
    apply Forall_app in Ht as [Ht Hnow].
    destruct (IH Hs' Ht) as [IH1 IH2]. rewrite run_snoc.
    set (st := run evs (initialState today today')) in *.
    assert (Hmono : Forall (fun e => exists t, In t (submitTimes evs ++ submitTimes [ev])
                                               /\ Expense.id e = String_of_int t)
                           (expenses st)).
    { eapply List.Forall_impl; [|exact IH2]. cbn. intros e (t & Hin & He).
      exists t. split; [apply in_or_app; now left|assumption]. }
    destruct ev as [v|v|v|v|v|now|id]; cbn [step]; try (split; assumption).
    + destruct (handleAdd_cases now st) as [->|[Hfin Hpos]]; [split; assumption|].
      rewrite (handleAdd_accepts now st Hfin Hpos). cbn [expenses].
      cbn [submitTimes flat_map app] in *. apply Forall_cons in Hnow as [Hnow _].
      split.
      * constructor; [assumption|]. rewrite List.Forall_forall in IH2, Ht |- *.
        intros e He. destruct (IH2 e He) as (t & Hin & Hid).
        exists now, t. repeat split; try assumption; [|now apply Ht].
        clear -Hs Hin. induction (submitTimes evs) as [|t' l IHl]; [destruct Hin|].
        cbn in Hs. apply StronglySorted_inv in Hs as [Hs Hl].
        destruct Hin as [->|Hin]; [|now apply IHl].
        apply Forall_app in Hl as [_ Hl]. now apply Forall_cons in Hl as [Hl _].
      * constructor; [|assumption]. exists now. split; [|reflexivity].
        apply in_or_app. right. now left.
    + cbn [handleDelete expenses]. unfold Array_filter. split.
      * now apply StronglySorted_filter.
      * now apply Forall_filter_keep.
Qed.

(** X14: under a clock that advances, the view needs no sorting.  When
    the clock readings of the submissions of a trace are time values (at
    most 8.64e15 ms either side of the epoch) and strictly increase, the id
    of every record reads as exactly the clock reading it was made from,
    the store holds its records newest first, and the view of a date is
    the records of that date in the order the store has them. *)
Theorem view_is_in_store_order (today today' : string) (evs : list Event) (d : string) :
  let store := expenses (run evs (initialState today today')) in
  StronglySorted Z.lt (submitTimes evs) -> timeValues evs ->
  expensesForSelectedDate store d
  = List.filter (fun e => String.eqb (Expense.date e) d) store
  /\ StronglySorted stampedAfter store
  /\ Forall (fun e => exists t, In t (submitTimes evs)
                        /\ Expense.id e = String_of_int t
                        /\ rank (Number (Expense.id e)) = t * 2 ^ 1074) store.
Proof.
  intros store Hs Ht. destruct (stamped_in_order today today' evs Hs Ht) as [Hso Hst].
  fold store in Hso, Hst. split; [|split; [exact Hso|]].
  - unfold expensesForSelectedDate, Array_filter.
    apply (Array_sort_sorted (fun e => Number (Expense.id e))).
    + apply Forall_filter_keep. apply numeric_run.
    + apply StronglySorted_filter.
      now apply (StronglySorted_impl stampedAfter); [exact stampedAfter_newestFirst|].
  - eapply List.Forall_impl; [|exact Hst]. cbn. intros e (t & Hin & He).
    exists t. split; [exact Hin|]. split; [exact He|].
    rewrite He, Number_String_of_int. apply rank_of_Z.
    unfold timeValues in Ht. rewrite List.Forall_forall in Ht. specialize (Ht t Hin).
    assert (Date.maxTime < 2 ^ 53) by reflexivity. lia.
Qed.

(** The two additions of the sample trace, a millisecond apart. *)
Lemma view_is_in_store_order_witness :
  StronglySorted Z.lt (submitTimes twoAdds) /\ timeValues twoAdds
  /\ expensesForSelectedDate (expenses (run twoAdds (initialState "2024-01-01" "2024-01-01")))
       "2024-01-01"
     = List.filter (fun e => String.eqb (Expense.date e) "2024-01-01")
         (expenses (run twoAdds (initialState "2024-01-01" "2024-01-01"))).
Proof.
  assert (H1 : StronglySorted Z.lt (submitTimes twoAdds)) by (repeat constructor).
  assert (H2 : timeValues twoAdds).
  { unfold timeValues. cbn [twoAdds submitTimes flat_map app].
    repeat (constructor; [unfold Date.maxTime; lia|]). constructor. }
  split; [exact H1|]. split; [exact H2|].
  exact (proj1 (view_is_in_store_order "2024-01-01" "2024-01-01" twoAdds "2024-01-01" H1 H2)).
Defined.

End ExactIds.

(** ** Mounting, and the storage of the mounted page *)

Section Mounting.

Import JS JSON.

Lemma usage_insert_fresh (k v : string) (m : gmap string string) :
  m !! k = None ->
  localStorage.usage (<[k := v]> m)
  = (N.of_nat (String.length k + String.length v) + localStorage.usage m)%N.
Proof.
  intros Hk. unfold localStorage.usage.
  apply (map_fold_insert_L (fun k v n => (N.of_nat (String.length k + String.length v) + n)%N));
    [|exact Hk].
  intros. lia.
Qed.

Lemma usage_insert (k v : string) (m : gmap string string) :
  localStorage.usage (<[k := v]> m)
  = (N.of_nat (String.length k + String.length v) + localStorage.usage (delete k m))%N.
Proof.
  rewrite <- (insert_delete_eq m). apply usage_insert_fresh, lookup_delete_eq.
Qed.

(** Writing a shorter text over a longer one never exceeds a quota that
    the storage is within. *)
Lemma usage_shorter (k v w : string) (m : gmap string string) :
  m !! k = Some w -> (String.length v <= String.length w)%nat ->
  (localStorage.usage (<[k := v]> m) <= localStorage.usage m)%N.
Proof.
  intros Hk Hlen. rewrite <- (insert_id m k w Hk) at 2. rewrite !usage_insert. lia.
Qed.

Lemma storeText_length (store : list Expense) :
  (2 <= String.length (storeText store))%nat.
Proof.
  unfold storeText. rewrite stringify_array. cbn [String.length].
  rewrite length_append. cbn. lia.
Qed.

Lemma loadCall_persisted (records : list Expense) (ls : gmap string string) :
  Forall wellFormed records ->
  localStorage.getItem STORAGE_KEY ls = Some (storeText records) ->
  loadCall ls = Some (Calls (map json_of_Expense records)).
Proof.
  intros Hwf Hget. unfold loadCall. rewrite Hget.
  unfold storeText. rewrite (parse_stringify_expenses records Hwf).
  now rewrite stringify_array.
Qed.

(** The render of a store of records of the page returns. *)
Lemma renders_expenses (d : string) (records : list Expense) :
  renders d (map json_of_Expense records) = Some true.
Proof.
  unfold renders.
  assert (H1 : existsb (fun e => match e with JNull => true | _ => false end)
                 (map json_of_Expense records) = false).
  { induction records as [|e records IH]; [reflexivity|exact IH]. }
  rewrite H1.
  assert (H2 : forallb (fun e => isPrimitive (getProperty "id" e)
                                 && isPrimitive (getProperty "amount" e)
                                 && isPrimitive (getProperty "category" e)
                                 && isPrimitive (getProperty "note" e))
                 (List.filter (viewed d) (map json_of_Expense records)) = true).
  { apply forallb_forall. intros v [Hv _]%filter_In.
    apply in_map_iff in Hv as (e & <- & _). reflexivity. }
  now rewrite H2.
Qed.

Lemma persistValues_accepted (quota : N) (values : list json) (ls : gmap string string) :
  (localStorage.usage (<[STORAGE_KEY := stringify (JArray values)]> ls) <= quota)%N ->
  persistValues quota values ls = <[STORAGE_KEY := stringify (JArray values)]> ls.
Proof.
  intros H. unfold persistValues, localStorage.setItem.
  apply N.leb_le in H. now rewrite H.
Qed.

(** X15: reopening the page restores what was saved.  When the slot of
    the page holds the text that the persist effect writes for records
    whose amounts are finite numbers that their JSON text reads back as,
    and the storage is within its quota, mounting, whatever date is
    viewed, yields a page whose store holds the JSON values of exactly
    these records, in their order, and leaves the storage as it was: the
    empty list that the first persist effect writes is overwritten by the
    second. *)
Theorem mount_restores_persisted_records (quota : N) (d : string)
  (records : list Expense) (ls : gmap string string) :
  Forall wellFormed records ->
  localStorage.getItem STORAGE_KEY ls = Some (storeText records) ->
  (localStorage.usage ls <= quota)%N ->
  mount quota d ls = Some (Mounted (map json_of_Expense records) ls).
Proof.
  intros Hwf Hget Hq. unfold mount.
  rewrite (loadCall_persisted records ls Hwf Hget), renders_expenses. do 2 f_equal.
  rewrite (persistValues_accepted quota []).
  - rewrite persistValues_accepted; rewrite insert_insert_eq;
      fold (storeText records); rewrite (insert_id ls _ _ Hget); [reflexivity|assumption].
  - eapply N.le_trans; [|exact Hq].
    apply (usage_shorter _ _ (storeText records)); [exact Hget|].
    apply (storeText_length records).
Qed.

(** Mounting on the saved text of the two sample records. *)
Lemma mount_restores_persisted_records_witness :
  Forall wellFormed twoRecords
  /\ localStorage.getItem STORAGE_KEY savedStorage = Some (storeText twoRecords)
  /\ (localStorage.usage savedStorage <= 5000000)%N
  /\ mount 5000000 "2024-01-01" savedStorage
     = Some (Mounted (map json_of_Expense twoRecords) savedStorage).
Proof.
  assert (H1 : Forall wellFormed twoRecords)
    by (repeat constructor; vm_compute; reflexivity).
  assert (H2 : localStorage.getItem STORAGE_KEY savedStorage = Some (storeText twoRecords))
    by apply lookup_singleton_eq.
  assert (H3 : (localStorage.usage savedStorage <= 5000000)%N)
    by (vm_compute; discriminate).
  split; [exact H1|]. split; [exact H2|]. split; [exact H3|].
  exact (mount_restores_persisted_records 5000000 "2024-01-01" twoRecords savedStorage
           H1 H2 H3).
Defined.

(** X16: mounting does not keep what it cannot read.  When the slot of the
    page is absent, or holds text on which [JSON.parse] throws its
    SyntaxError, or JSON that is no array, and the browser accepts the
    write, mounting, whatever date is viewed, leaves the page with an
    empty store and the slot with the text of the empty list: the content
    that was there is gone, and a later load yields the empty list. *)
Theorem mount_overwrites_what_is_no_array (quota : N) (d : string)
  (ls : gmap string string) :
  (localStorage.getItem STORAGE_KEY ls = None
   \/ exists raw, localStorage.getItem STORAGE_KEY ls = Some raw
        /\ (parse raw = SyntaxError
            \/ exists v, parse raw = Parsed v /\ Array_isArray v = false)) ->
  (localStorage.usage (<[STORAGE_KEY := "[]"]> ls) <= quota)%N ->
  mount quota d ls = Some (Mounted [] (<[STORAGE_KEY := "[]"]> ls))
  /\ loadEffect (<[STORAGE_KEY := "[]"]> ls) = Some [].
Proof.
  intros Hslot Hq.
  assert (Hl : loadCall ls = Some NoCall).
  { unfold loadCall.
    destruct Hslot as [->|(raw & -> & [->|(v & -> & ->)])];
      try reflexivity; now destruct (truthy raw). }
  split.
  - unfold mount. rewrite Hl. do 2 f_equal. now apply persistValues_accepted.
  - unfold loadEffect, localStorage.getItem. now rewrite lookup_insert_eq.
Qed.

(** A slot that holds an object. *)
Lemma mount_overwrites_what_is_no_array_witness :
  (localStorage.getItem STORAGE_KEY objectStorage = None
   \/ exists raw, localStorage.getItem STORAGE_KEY objectStorage = Some raw
        /\ (parse raw = SyntaxError
            \/ exists v, parse raw = Parsed v /\ Array_isArray v = false))
  /\ (localStorage.usage (<[STORAGE_KEY := "[]"]> objectStorage) <= 5000000)%N
  /\ mount 5000000 "2024-01-01" objectStorage
     = Some (Mounted [] (<[STORAGE_KEY := "[]"]> objectStorage)).
Proof.
  assert (H1 : localStorage.getItem STORAGE_KEY objectStorage = None
               \/ exists raw, localStorage.getItem STORAGE_KEY objectStorage = Some raw
                    /\ (parse raw = SyntaxError
                        \/ exists v, parse raw = Parsed v /\ Array_isArray v = false)).
  { right. exists "{}". split; [apply lookup_singleton_eq|].
    right. exists (JObject []). split; reflexivity. }
  assert (H2 : (localStorage.usage (<[STORAGE_KEY := "[]"]> objectStorage) <= 5000000)%N)
    by (vm_compute; discriminate).
  split; [exact H1|]. split; [exact H2|].
  exact (proj1 (mount_overwrites_what_is_no_array 5000000 "2024-01-01" objectStorage H1 H2)).
Defined.

(** X20: a stored array that holds [null] costs the page and the stored
    data.  When the slot of the page holds the text of an array one of
    whose elements is [null], and the browser accepts the write of the
    first persist effect, the render that follows the load throws, so that
    no page is left, and the slot holds the text of the empty list. *)
Theorem mount_fails_on_null_element (quota : N) (d raw : string)
  (l : list json) (ls : gmap string string) :
  localStorage.getItem STORAGE_KEY ls = Some raw ->
  parse raw = Parsed (JArray l) ->
  In JNull l ->
  (localStorage.usage (<[STORAGE_KEY := "[]"]> ls) <= quota)%N ->
  mount quota d ls = Some (Failed (<[STORAGE_KEY := "[]"]> ls)).
Proof.
  intros Hget Hparse Hnull Hq. unfold mount, loadCall. rewrite Hget.
  assert (Ht : truthy raw = true) by (destruct raw; [discriminate Hparse|reflexivity]).
  rewrite Ht, Hparse. cbn [Array_isArray elements]. unfold renders.
  assert (He : existsb (fun e => match e with JNull => true | _ => false end) l = true).
  { apply existsb_exists. now exists JNull. }
  rewrite He. do 2 f_equal. now apply persistValues_accepted.
Qed.

(** A slot that holds the array of one [null]. *)
Lemma mount_fails_on_null_element_witness :
  localStorage.getItem STORAGE_KEY nullStorage = Some "[null]"
  /\ parse "[null]" = Parsed (JArray [JNull])
  /\ In JNull [JNull]
  /\ (localStorage.usage (<[STORAGE_KEY := "[]"]> nullStorage) <= 5000000)%N
  /\ mount 5000000 "2024-01-01" nullStorage
     = Some (Failed (<[STORAGE_KEY := "[]"]> nullStorage)).
Proof.
  assert (H1 : localStorage.getItem STORAGE_KEY nullStorage = Some "[null]")
    by apply lookup_singleton_eq.
  assert (H2 : parse "[null]" = Parsed (JArray [JNull])) by reflexivity.
  assert (H3 : In JNull [JNull]) by (now left).
  assert (H4 : (localStorage.usage (<[STORAGE_KEY := "[]"]> nullStorage) <= 5000000)%N)
    by (vm_compute; discriminate).
  split; [exact H1|]. split; [exact H2|]. split; [exact H3|]. split; [exact H4|].
  exact (mount_fails_on_null_element 5000000 "2024-01-01" "[null]" [JNull] nullStorage
           H1 H2 H3 H4).
Defined.

(** *** The storage of a mounted page *)

Lemma fst_runPage (quota : N) (evs : list Event) (st : State) (ls : gmap string string) :
  fst (runPage quota evs (st, ls)) = run evs st.
Proof.
  revert st ls. induction evs as [|ev evs IH]; intros st ls; [reflexivity|].
  cbn [runPage run fold_left]. unfold stepPage at 2. cbn [fst snd]. apply IH.
Qed.

Lemma runPage_snoc (quota : N) (evs : list Event) (ev : Event)
  (pg : State * gmap string string) :
  runPage quota (evs ++ [ev]) pg = stepPage quota (runPage quota evs pg) ev.
Proof. unfold runPage. now rewrite fold_left_app. Qed.

Lemma step_keeps_expenses (st : State) (ev : Event) :
  setsExpenses st ev = false -> expenses (step st ev) = expenses st.
Proof.
  destruct ev as [v|v|v|v|v|now|id]; cbn [setsExpenses step]; try reflexivity;
    [|discriminate].
  intros H. apply negb_false_iff in H.
  rewrite handleAdd_rejects; [reflexivity|].
  apply orb_true_iff in H as [H|H]; [left|right]; [now apply negb_true_iff|assumption].
Qed.

(** X17: the storage follows the store.  On a page whose slot holds the
    text of its store, after any sequence of events each followed by the
    persist effect it triggers, the slot holds the text of the store the
    events lead to, provided that text fits the quota; writes refused on
    the way do not matter.  The store is the one the events alone lead to,
    and no other slot of the storage is touched. *)
Theorem storage_follows_the_store (quota : N) (st : State) (ls : gmap string string)
  (evs : list Event) :
  let pg := runPage quota evs (st, ls) in
  localStorage.getItem STORAGE_KEY ls = Some (storeText (expenses st)) ->
  (localStorage.usage (<[STORAGE_KEY := storeText (expenses (fst pg))]> ls) <= quota)%N ->
  fst pg = run evs st
  /\ snd pg = <[STORAGE_KEY := storeText (expenses (fst pg))]> ls
  /\ forall k, k <> STORAGE_KEY -> snd pg !! k = ls !! k.
Proof.
  intros pg Hget Hq. subst pg.
  assert (Inv : (exists t, snd (runPage quota evs (st, ls)) = <[STORAGE_KEY := t]> ls)
                /\ ((localStorage.usage
                       (<[STORAGE_KEY := storeText (expenses (fst (runPage quota evs (st, ls))))]> ls)
                     <= quota)%N ->
                    snd (runPage quota evs (st, ls))
                    = <[STORAGE_KEY := storeText (expenses (fst (runPage quota evs (st, ls))))]> ls)).
  { clear Hq. induction evs as [|ev evs IH] using rev_ind.
    - cbn. rewrite (insert_id ls _ _ Hget). split; [|reflexivity].
      exists (storeText (expenses st)). now rewrite (insert_id ls _ _ Hget).
    - rewrite runPage_snoc. destruct (runPage quota evs (st, ls)) as [st' ls'].
      cbn [fst snd] in *. destruct IH as [[t Ht] IH]. unfold stepPage. cbn [fst snd].
      destruct (setsExpenses st' ev) eqn:Eset.
      + unfold persistEffect, localStorage.setItem. fold (storeText (expenses (step st' ev))).
        rewrite Ht, insert_insert_eq.
        destruct (N.leb_spec (localStorage.usage
                    (<[STORAGE_KEY := storeText (expenses (step st' ev))]> ls)) quota).
        * split; [eauto|reflexivity].
        * split; [eauto|]. lia.
      + rewrite (step_keeps_expenses st' ev Eset). split; [eauto|exact IH]. }
  destruct Inv as [_ Inv]. specialize (Inv Hq).
  split; [apply fst_runPage|]. split; [exact Inv|].
  intros k Hk. rewrite Inv. now apply lookup_insert_ne.
Qed.

(** The sample trace on a page mounted on an empty storage. *)
Lemma storage_follows_the_store_witness :
  localStorage.getItem STORAGE_KEY emptyListStorage
  = Some (storeText (expenses (initialState "2024-01-01" "2024-01-01")))
  /\ (localStorage.usage
        (<[STORAGE_KEY :=
             storeText (expenses (fst (runPage 5000000 twoAdds
                                         (initialState "2024-01-01" "2024-01-01", emptyListStorage))))]>
           emptyListStorage) <= 5000000)%N
  /\ snd (runPage 5000000 twoAdds (initialState "2024-01-01" "2024-01-01", emptyListStorage))
     = <[STORAGE_KEY :=
           storeText (expenses (fst (runPage 5000000 twoAdds
                                       (initialState "2024-01-01" "2024-01-01", emptyListStorage))))]>
         emptyListStorage.
Proof.
  assert (H1 : localStorage.getItem STORAGE_KEY emptyListStorage
               = Some (storeText (expenses (initialState "2024-01-01" "2024-01-01"))))
    by apply lookup_singleton_eq.
  assert (H2 : (localStorage.usage
        (<[STORAGE_KEY :=
             storeText (expenses (fst (runPage 5000000 twoAdds
                                         (initialState "2024-01-01" "2024-01-01", emptyListStorage))))]>
           emptyListStorage) <= 5000000)%N)
    by (vm_compute; discriminate).
  split; [exact H1|]. split; [exact H2|].
  exact (proj1 (proj2 (storage_follows_the_store 5000000 (initialState "2024-01-01" "2024-01-01")
                         emptyListStorage twoAdds H1 H2))).
Defined.

End Mounting.

(** ** The date of the first render *)

Section Calendar.
Import Date.

Lemma DayFromYear_succ (y : Z) : DayFromYear (y + 1) = DayFromYear y + DaysInYear y.
Proof.
  unfold DayFromYear, DaysInYear.
  destruct (Z.eqb_spec (y mod 4) 0), (Z.eqb_spec (y mod 100) 0), (Z.eqb_spec (y mod 400) 0); cbn [negb]; Z.div_mod_to_equations; lia.
Qed.

Lemma DayFromYear_mono (a b : Z) : a <= b -> DayFromYear a <= DayFromYear b.
Proof. unfold DayFromYear. intros H. Z.div_mod_to_equations. lia. Qed.

Lemma YearFromTime_spec (t : Z) :
  DayFromYear (YearFromTime t) <= Day t < DayFromYear (YearFromTime t + 1).
Proof.
  unfold YearFromTime. generalize (Day t). intros d.
  set (y := 1970 + 400 * d / 146097).
  destruct (Z.ltb_spec d (DayFromYear y)).
  - replace (y - 1 + 1) with y by lia. split; [|lia].
    unfold DayFromYear in *. subst y. Z.div_mod_to_equations. lia.
  - destruct (Z.leb_spec (DayFromYear (y + 1)) d).
    + split; [lia|]. unfold DayFromYear in *. subst y. Z.div_mod_to_equations. lia.
    + lia.
Qed.

Lemma DaysInYear_leap (y : Z) : DaysInYear y = yearLength y.
Proof.
  unfold DaysInYear, yearLength, isLeapYear.
  destruct (Z.eqb_spec (y mod 4) 0), (Z.eqb_spec (y mod 100) 0), (Z.eqb_spec (y mod 400) 0); cbn; try reflexivity; Z.div_mod_to_equations; lia.
Qed.

Lemma daysOfYears_eq (n : nat) (a : Z) :
  daysOfYears a n = DayFromYear (a + Z.of_nat n) - DayFromYear a.
Proof.
  revert a. induction n as [|n IH]; intros a.
  - cbn [daysOfYears]. replace (a + Z.of_nat 0) with a by lia. lia.
  - cbn [daysOfYears]. rewrite IH, <- DaysInYear_leap.
    replace (a + Z.of_nat (S n)) with (a + 1 + Z.of_nat n) by lia.
    rewrite (DayFromYear_succ a). lia.
Qed.

Lemma daysToYear_eq (y : Z) : daysToYear y = DayFromYear y.
Proof.
  assert (E : DayFromYear 1970 = 0) by reflexivity.
  unfold daysToYear.
  destruct (Z.leb_spec 1970 y); rewrite daysOfYears_eq.
  - replace (1970 + Z.of_nat (Z.to_nat (y - 1970))) with y by lia. lia.
  - replace (y + Z.of_nat (Z.to_nat (1970 - y))) with 1970 by lia. lia.
Qed.

(** The month and the day of the month of a time are a calendar date of
    its year, the one that many days into the year. *)
Lemma month_and_date (t : Z) :
  let y := YearFromTime t in
  let m := MonthFromTime t + 1 in
  let d := DateFromTime t in
  1 <= m <= 12 /\ 1 <= d <= daysInMonth y m
  /\ DayWithinYear t = daysOfMonths y (Z.to_nat (m - 1)) + (d - 1).
Proof.
  intros y m d. subst m d. unfold DateFromTime, MonthFromTime.
  pose proof (YearFromTime_spec t) as H. rewrite DayFromYear_succ, DaysInYear_leap in H.
  assert (Hl : InLeapYear t = if isLeapYear y then 1 else 0).
  { unfold InLeapYear. rewrite DaysInYear_leap. unfold yearLength. fold y.
    now destruct (isLeapYear y). }
  assert (Hd : DayWithinYear t = Day t - DayFromYear y) by reflexivity.
  fold y in H. unfold yearLength in H.
  generalize dependent (DayWithinYear t). intros dw Hd.
  rewrite Hl. clear Hl.
  destruct (isLeapYear y) eqn:El;
  repeat (match goal with |- context [?a <? ?b] => destruct (Z.ltb_spec a b) end);
    match goal with
    | |- context [daysInMonth _ (?k + 1)] =>
        let m := eval vm_compute in (k + 1) in
        let n := eval vm_compute in (Z.to_nat (k + 1 - 1)) in
        change (k + 1) with m; change (Z.to_nat (m - 1)) with n
    end;
    cbn [daysOfMonths]; unfold daysInMonth; rewrite ?El;
    repeat match goal with
           | |- context [Z.of_nat ?n] =>
               let v := eval vm_compute in (Z.of_nat n) in change (Z.of_nat n) with v
           end;
    repeat match goal with
           | |- context [Zpos ?a =? Zpos ?b] =>
               let v := eval vm_compute in (Zpos a =? Zpos b) in
               change (Zpos a =? Zpos b) with v
           end;
    cbv [orb]; cbv iota; lia.
Qed.

Lemma digitChar_digit (d : Z) :
  0 <= d <= 9 -> JS.isDigit (JSON.digitChar d) = true /\ JS.digitValue (JSON.digitChar d) = d.
Proof.
  intros H.
  assert (d = 0 \/ d = 1 \/ d = 2 \/ d = 3 \/ d = 4 \/ d = 5 \/ d = 6 \/ d = 7 \/ d = 8 \/ d = 9) by lia.
  intuition subst; split; reflexivity.
Qed.

Lemma decimal_places (v : Z) :
  0 <= v <= 9999 ->
  0 <= v / 10 / 10 / 10 mod 10 <= 9 /\ 0 <= v / 10 / 10 mod 10 <= 9
  /\ 0 <= v / 10 mod 10 <= 9 /\ 0 <= v mod 10 <= 9
  /\ (v <= 99 -> 10 * (v / 10 mod 10) + v mod 10 = v)
  /\ 1000 * (v / 10 / 10 / 10 mod 10) + 100 * (v / 10 / 10 mod 10)
       + 10 * (v / 10 mod 10) + v mod 10 = v.
Proof. intros H. Z.div_mod_to_equations. lia. Qed.

(** The first ten characters of an ISO text spell its year, month and
    day. *)
Lemma dateText_fields (y m d : Z) (rest : string) :
  0 <= y <= 9999 -> 0 <= m <= 99 -> 0 <= d <= 99 ->
  let s := String.substring 0 10
             (pad 4 y "" ++ "-" ++ pad 2 m "" ++ "-" ++ pad 2 d "" ++ rest) in
  dateFields s = (y, m, d)
  /\ validDate s
     = (1 <=? y) && (1 <=? m) && (m <=? 12) && (1 <=? d) && (d <=? daysInMonth y m).
Proof.
  intros Hy Hm Hd s. subst s. cbn [pad].
  repeat (rewrite append_cons || rewrite append_nil_l). cbn [String.substring].
  assert (substring 0 0 rest = "") as -> by now destruct rest.
  destruct (decimal_places y Hy) as (Hy1 & Hy2 & Hy3 & Hy4 & _ & Ey).
  destruct (decimal_places m) as (_ & _ & Hm1 & Hm2 & Em & _); [lia|].
  destruct (decimal_places d) as (_ & _ & Hd1 & Hd2 & Ed & _); [lia|].
  unfold dateFields, validDate. cbn [forallb].
  destruct (digitChar_digit _ Hy1) as [-> ->], (digitChar_digit _ Hy2) as [-> ->],
    (digitChar_digit _ Hy3) as [-> ->], (digitChar_digit _ Hy4) as [-> ->],
    (digitChar_digit _ Hm1) as [-> ->], (digitChar_digit _ Hm2) as [-> ->],
    (digitChar_digit _ Hd1) as [-> ->], (digitChar_digit _ Hd2) as [-> ->].
  rewrite Ey, Em, Ed by lia. split; reflexivity.
Qed.

Lemma todayIsoDate_fields (now timezoneOffset : Z) :
  let t := now - timezoneOffset * 60000 in
  -62135596800000 <= t < 253402300800000 ->
  exists today, todayIsoDate now timezoneOffset = Some today
    /\ validDate today = true
    /\ dayNumber today = t / 86400000.
Proof.
  intros t Ht. unfold todayIsoDate. fold t.
  assert (Date.TimeClip t = Some t) as ->.
  { unfold Date.TimeClip, maxTime.
    destruct (Z.leb_spec (Z.abs t) 8640000000000000); [reflexivity|lia]. }
  cbn [toISOString].
  pose proof (YearFromTime_spec t) as Hy.
  assert (Hday : DayFromYear 1 <= Day t < DayFromYear 10000).
  { unfold Day, msPerDay. change (DayFromYear 1) with (-719162).
    change (DayFromYear 10000) with 2932897. Z.div_mod_to_equations. lia. }
  assert (Hyear : 1 <= YearFromTime t <= 9999).
  { pose proof (DayFromYear_mono (YearFromTime t + 1) 1).
    pose proof (DayFromYear_mono 10000 (YearFromTime t)). lia. }
  destruct (month_and_date t) as (Hm & Hd & Hw).
  assert (Hdm : daysInMonth (YearFromTime t) (MonthFromTime t + 1) <= 31).
  { unfold daysInMonth. repeat destruct (_ =? _); cbn; try destruct (isLeapYear _); lia. }
  unfold yearText.
  assert ((0 <=? YearFromTime t) && (YearFromTime t <=? 9999) = true) as ->.
  { apply andb_true_iff. split; apply Z.leb_le; lia. }
  eexists. split; [reflexivity|].
  destruct (dateText_fields (YearFromTime t) (MonthFromTime t + 1) (DateFromTime t)
    ("T" ++ pad 2 (HourFromTime t) "" ++ ":" ++ pad 2 (MinFromTime t) ""
         ++ ":" ++ pad 2 (SecFromTime t) "" ++ "." ++ pad 3 (msFromTime t) "" ++ "Z"))
    as [Hf Hv]; try lia.
  split.
  - rewrite Hv. repeat (apply andb_true_iff; split); apply Z.leb_le; lia.
  - unfold dayNumber. rewrite Hf, daysToYear_eq.
    unfold DayWithinYear, Day, msPerDay in Hw. lia.
Qed.

(** X18: for a clock reading whose local time lies in the years 1 to
    9999, [todayIsoDate] returns, without raising, a calendar date written
    YYYY-MM-DD: four digits of year, a month from 01 to 12 and a day that
    the month of that year has. *)
Theorem todayIsoDate_is_a_calendar_date (now timezoneOffset : Z) :
  let t := now - timezoneOffset * 60000 in
  -62135596800000 <= t < 253402300800000 ->
  exists today, todayIsoDate now timezoneOffset = Some today
                /\ validDate today = true.
Proof.
  intros t Ht. destruct (todayIsoDate_fields now timezoneOffset Ht) as (s & Hs & Hv & _).
  now exists s.
Qed.

(** Midnight UTC of 2024-01-01, read eight hours west of Greenwich. *)
Lemma todayIsoDate_is_a_calendar_date_witness :
  -62135596800000 <= 1704067200000 - 480 * 60000 < 253402300800000
  /\ exists today, todayIsoDate 1704067200000 480 = Some today
                   /\ validDate today = true.
Proof.
  assert (H : -62135596800000 <= 1704067200000 - 480 * 60000 < 253402300800000) by lia.
  split; [exact H|].
  exact (todayIsoDate_is_a_calendar_date 1704067200000 480 H).
Defined.

(** X19: the date that [todayIsoDate] returns is the local day of the
    clock reading.  For a reading whose local time lies in the years 1 to
    9999, the date returned, counted in days from 1970-01-01, is the day
    that holds the reading shifted by the time zone offset; west of
    Greenwich this is the day before the UTC day for the first hours of
    the UTC day. *)
Theorem todayIsoDate_is_the_local_day (now timezoneOffset : Z) :
  let t := now - timezoneOffset * 60000 in
  -62135596800000 <= t < 253402300800000 ->
  exists today, todayIsoDate now timezoneOffset = Some today
                /\ dayNumber today = t / 86400000.
Proof.
  intros t Ht. destruct (todayIsoDate_fields now timezoneOffset Ht) as (s & Hs & _ & Hd).
  now exists s.
Qed.

(** Midnight UTC of 2024-01-01 is still 2023-12-31 eight hours west. *)
Lemma todayIsoDate_is_the_local_day_witness :
  -62135596800000 <= 1704067200000 - 480 * 60000 < 253402300800000
  /\ todayIsoDate 1704067200000 480 = Some "2023-12-31"
  /\ dayNumber "2023-12-31" = (1704067200000 - 480 * 60000) / 86400000.
Proof.
  assert (H : -62135596800000 <= 1704067200000 - 480 * 60000 < 253402300800000) by lia.
  split; [exact H|].
  destruct (todayIsoDate_is_the_local_day 1704067200000 480 H) as (today & Hs & Hd).
  assert (E : today = "2023-12-31") by (vm_compute in Hs; congruence).
  subst today. split; [reflexivity|exact Hd].
Defined.

End Calendar.
